(** * Posts backend: users, posts, comments and likes over a relational store

    A shallow embedding of the service layer ([src/services/*.service.ts]) and
    of the request handlers ([src/api/users.ts], the like handlers) of the
    backend, together with the properties its specification states.

    Conventions of the embedding.
    - A JavaScript [number] that holds a count, a page or a limit is an
      integer ([Z]); the quotient [total / limit] is an exact rational ([Q]).
      Sums and products of integers are exact in JavaScript as long as they
      stay within [MAX_SAFE_INTEGER] (2^53 - 1), and for such integers the
      IEEE quotient and the exact one have the same ceiling, so [Math.ceil]
      is [Qceiling].  The statements that promise a result assume that
      [page * limit] is within that bound.  A zero [limit] yields [NaN] or
      [Infinity] in JavaScript, which have no counterpart here: every
      statement about pagination assumes a positive limit.
    - A table is the list of its rows in storage order.  Storage order is
      independent of the [createdAt] column; a query without [orderBy]
      returns rows in storage order.  An inserted row is stored last, and
      so is the new version of an updated row.
    - Rows with the same [createdAt] may be returned by the database in any
      order, which may differ from one query to the next.  [Prisma.ordered]
      keeps such rows in storage order; [sorted_arrangement_unique] shows
      that no other order is possible when the creation times of a table
      are pairwise distinct ([distinct_times]), and the statements that
      relate the rows of different queries assume that.
    - An [async] method that only reads is a function of the store; one that
      writes is a computation in the monad [M] (state and exceptions).
    - Values the store generates for a new row ([id], [createdAt],
      [updatedAt]) are passed in explicitly as a [Gen], and the time of an
      update, which the store writes to [updatedAt], as [now].
    - The schema file is not among the sources.  The store enforces the
      constraints that the sources and the specification name: the unique
      [email] and [username] of users, the unique pair ([userId], [postId])
      of likes, which the client exposes as the key [userId_postId], and
      the foreign keys of the relations (the author of a post; the author,
      the post and the parent of a comment; the user and the post of a
      like): an insert that breaks one is rejected.  The one referential
      action the sources name, the cascade from a deleted comment to its
      replies, is part of [CommentService.delete]; the deletion of users
      and posts, whose effect on dependent rows only the schema fixes, is
      not modelled. *)

From Stdlib Require Import Ascii ZArith QArith Qround Lia.
From stdpp Require Import base option list sorting gmap strings.

Local Open Scope string_scope.
Local Open Scope list_scope.
Local Open Scope Z_scope.

(** ** Rows of the four tables (the Prisma types [User], [Post], [Comment], [Like])

    The columns are those the README lists; a like has no [updatedAt]. *)

Module User.
Record t := mk
    { id : string; email : string; username : string;
      name : option string; avatar : option string; bio : option string;
      createdAt : Z; updatedAt : Z }.
End User.

Module Post.
Record t := mk
    { id : string; title : string; content : string;
      imageUrl : option string; published : bool; authorId : string;
      createdAt : Z; updatedAt : Z }.
End Post.

Module Comment.
Record t := mk
    { id : string; content : string; authorId : string; postId : string;
      parentId : option string; createdAt : Z; updatedAt : Z }.
End Comment.

Module Like.
Record t := mk
    { id : string; userId : string; postId : string; createdAt : Z }.
End Like.

Record DB := mkDB
  { users : list User.t; posts : list Post.t;
    comments : list Comment.t; likes : list Like.t }.

Definition emptyDB : DB := mkDB [] [] [] [].

(** Values generated by the store when a row is inserted: its [id] and
    the time, which fills [createdAt] and [updatedAt]. *)
Record Gen := mkGen { gen_id : string; gen_now : Z }.

(** ** Exceptions and the store monad *)

Inductive Error :=
| JsError (message : string)       (* [throw new Error(message)] *)
| PrismaError (code : string)      (* a query the store rejects, with its code *)
| QueryRejected.                   (* a query whose arguments are refused *)

Inductive Exc (A : Type) :=
| Ok (a : A)
| Throw (e : Error).
Arguments Ok {A} a.
Arguments Throw {A} e.

Definition M (A : Type) : Type := DB → Exc A * DB.

Definition ret {A} (a : A) : M A := λ db, (Ok a, db).
Definition throw {A} (e : Error) : M A := λ db, (Throw e, db).
Definition bind {A B} (m : M A) (k : A → M B) : M B :=
  λ db, match m db with
        | (Ok a, db') => k a db'
        | (Throw e, db') => (Throw e, db')
        end.
(** An awaited read-only query. *)
Definition read {A} (q : DB → A) : M A := λ db, (Ok (q db), db).
Definition readE {A} (q : DB → Exc A) : M A := λ db, (q db, db).

Declare Scope store_scope.
Delimit Scope store_scope with store.
Notation "'let!' x ':=' m 'in' k" := (bind m (λ x, k))
  (at level 10, x pattern, k at level 200) : store_scope.
Notation "m ';;!' k" := (bind m (λ _, k))
  (at level 100, right associativity) : store_scope.

(** ** JavaScript helpers *)

(** [!s] for [s : string | undefined]: undefined and the empty string are falsy. *)
Definition truthy (s : option string) : bool :=
  match s with
  | None => false
  | Some s => negb (String.eqb s "")
  end.

(** [a === b] where [a] may be [undefined] and [b] is a string. *)
Definition strict_eq (a : option string) (b : string) : bool :=
  match a with
  | None => false
  | Some a => String.eqb a b
  end.

(** [Number.MAX_SAFE_INTEGER] *)
Definition MAX_SAFE_INTEGER : Z := 2 ^ 53 - 1.

(** [a / b] on numbers holding integers. *)
Definition js_div (a b : Z) : Q := (inject_Z a / inject_Z b)%Q.

Definition Math_ceil (x : Q) : Z := Qceiling x.

(** ** The Prisma client, on one table *)

Inductive SortOrder := asc | desc.

Module Prisma.
Section Table.
Context {A : Type} (createdAt : A → Z).

(** [orderBy: { createdAt: o }] *)
Definition before (o : SortOrder) : relation A :=
    λ a b, match o with
           | asc => createdAt a ≤ createdAt b
           | desc => createdAt b ≤ createdAt a
           end.

#[export] Instance before_dec o a b : Decision (before o a b).
Proof. destruct o; simpl; apply _. Defined.

Definition ordered (orderBy : option SortOrder) (rows : list A) : list A :=
    match orderBy with
    | None => rows
    | Some o => merge_sort (before o) rows
    end.

(** The arguments [skip] and [take] are 64-bit signed integers. *)
Definition int64 (n : Z) : Prop := - 2 ^ 63 ≤ n < 2 ^ 63.

#[export] Instance int64_dec n : Decision (int64 n).
Proof. unfold int64. apply _. Defined.

(** An argument that may be omitted. *)
Definition int64_opt (n : option Z) : Prop :=
    match n with
    | Some n => int64 n
    | None => True
    end.

#[export] Instance int64_opt_dec n : Decision (int64_opt n).
Proof. destruct n; simpl; apply _. Defined.

(** [skip] and [take]: a negative [take] counts from the end of the
      ordered rows. *)
Definition window (skip : Z) (take : option Z) (rows : list A) : list A :=
    match take with
    | None => drop (Z.to_nat skip) rows
    | Some n =>
        if decide (0 ≤ n)
        then firstn (Z.to_nat n) (drop (Z.to_nat skip) rows)
        else rev (firstn (Z.to_nat (- n)) (drop (Z.to_nat skip) (rev rows)))
    end.

(** [findMany({ where, skip, take, orderBy })]: the query is refused when
      [skip] or [take] does not fit a 64-bit signed integer, and when
      [skip] is negative.  The class of the error raised is not told apart
      here, no caller looks at it. *)
Definition findMany (where_ : A → Prop) `{∀ x, Decision (where_ x)}
      (orderBy : option SortOrder) (skip : Z) (take : option Z)
      (rows : list A) : Exc (list A) :=
    if decide (int64 skip ∧ int64_opt take ∧ 0 ≤ skip)
    then Ok (window skip take (ordered orderBy (filter where_ rows)))
    else Throw QueryRejected.

(** [findMany] without [skip] and [take]; also a relation field loaded
    through [include]. *)
Definition rowsWhere (where_ : A → Prop) `{∀ x, Decision (where_ x)}
      (orderBy : option SortOrder) (rows : list A) : list A :=
    ordered orderBy (filter where_ rows).

(** [count({ where })] *)
Definition count (where_ : A → Prop) `{∀ x, Decision (where_ x)}
      (rows : list A) : Z :=
    Z.of_nat (length (filter where_ rows)).

(** [findUnique({ where })]: the row with the given unique key, or [null]. *)
Definition findUnique (where_ : A → Prop) `{∀ x, Decision (where_ x)}
      (rows : list A) : option A :=
    head (filter where_ rows).
End Table.
End Prisma.

(** ** Pagination types ([PaginationParams], [PaginatedResponse])

    The optional fields [cursor] and [nextCursor] are never read or written
    by the services and are left out. *)

Module PaginationParams.
Record t := mk { page : option Z; limit : option Z }.
(** The default argument [{}]. *)
Definition empty : t := mk None None.
End PaginationParams.

Module Meta.
Record t := mk
    { total : Z; page : Z; limit : Z; totalPages : Z; hasMore : bool }.
End Meta.

Module PaginatedResponse.
Record t (A : Type) := mk { data : list A; meta : Meta.t }.
Arguments mk {A} data meta.
Arguments data {A} _.
Arguments meta {A} _.
End PaginatedResponse.

(** The object literal every list method returns. *)
Definition paginated {A} (rows : list A) (total page limit : Z)
  : PaginatedResponse.t A :=
  PaginatedResponse.mk rows
    (Meta.mk total page limit
       (Math_ceil (js_div total limit))
       (bool_decide (page * limit < total))).

(** ** Input types ([src/types]) *)

(** [CreateUserInput] as it arrives from [request.json()]: a field that is
    absent from the body is [None]. *)
Module CreateUserInput.
Record t := mk
  { email : option string; username : option string;
    name : option string; avatar : option string; bio : option string }.
End CreateUserInput.

Module CreateLikeInput.
Record t := mk { userId : string; postId : string }.
End CreateLikeInput.

(** [Omit<CreateCommentInput, 'parentId'>], the payload of [createReply]. *)
Module ReplyInput.
Record t := mk { content : string; authorId : string; postId : string }.
End ReplyInput.

Module PostFilters.
Record t := mk
  { authorId : option string; published : option bool; search : option string }.
(** The default argument [{}]. *)
Definition empty : t := mk None None None.
End PostFilters.

Module UpdateUserInput.
Record t := mk
  { email : option string; username : option string;
    name : option string; avatar : option string; bio : option string }.
End UpdateUserInput.

(** [CreatePostInput] as it arrives from [request.json()]. *)
Module CreatePostInput.
Record t := mk
  { title : option string; content : option string;
    imageUrl : option string; published : option bool;
    authorId : option string }.
End CreatePostInput.

Module UpdatePostInput.
Record t := mk
  { title : option string; content : option string;
    imageUrl : option string; published : option bool }.
End UpdatePostInput.

Module CreateCommentInput.
Record t := mk
  { content : string; authorId : string; postId : string;
    parentId : option string }.
End CreateCommentInput.

Module UpdateCommentInput.
Record t := mk { content : string }.
End UpdateCommentInput.

Module PostWithAuthor.
Record t := mk { post : Post.t; author : option User.t }.
End PostWithAuthor.

(** [data.f] when it is given, the stored value otherwise. *)
Definition orElse {A} (given : option A) (stored : option A) : option A :=
  match given with
  | Some a => Some a
  | None => stored
  end.


(** ** Response types with relations *)

Module CommentWithAuthor.
Record t := mk { comment : Comment.t; author : option User.t }.
End CommentWithAuthor.

Module CommentWithReplies.
Record t := mk
  { comment : Comment.t; author : option User.t;
    replies : list CommentWithAuthor.t }.
End CommentWithReplies.

Module LikeWithUser.
Record t := mk { like : Like.t; user : option User.t }.
End LikeWithUser.

(** [Like & { post: { id, title } }] *)
Module LikeWithPost.
Record t := mk { like : Like.t; post : option (string * string) }.
End LikeWithPost.

Module Count.
Record t := mk { likes : Z; comments : Z }.
End Count.

(** [PostWithAuthor & { _count }] *)
Module PostWithCounts.
Record t := mk { post : Post.t; author : option User.t; _count : Count.t }.
End PostWithCounts.

Module PostFull.
Record t := mk
  { post : Post.t; author : option User.t;
    comments : list CommentWithReplies.t; likes : list Like.t;
    _count : Count.t }.
End PostFull.

(** [include: { author: true }] and the like: the row a foreign key points to. *)
Definition userById (db : DB) (id : string) : option User.t :=
  Prisma.findUnique (λ u, User.id u = id) (users db).

Definition withAuthor (db : DB) (c : Comment.t) : CommentWithAuthor.t :=
  CommentWithAuthor.mk c (userById db (Comment.authorId c)).

(** [replies: { include: { author: true }, orderBy }] of one comment. *)
Definition repliesOf (db : DB) (orderBy : option SortOrder) (c : Comment.t)
  : list CommentWithAuthor.t :=
  withAuthor db <$>
    Prisma.rowsWhere Comment.createdAt
      (λ r, Comment.parentId r = Some (Comment.id c)) orderBy (comments db).

Definition withReplies (db : DB) (orderBy : option SortOrder) (c : Comment.t)
  : CommentWithReplies.t :=
  CommentWithReplies.mk c (userById db (Comment.authorId c)) (repliesOf db orderBy c).

(** ** The foreign keys of the schema *)

(** Modelled from the spec: the schema file, which declares the foreign
    keys, is missing.  The specification has a post belong to a user
    ("authorId references existing User"), a comment belong to a user and a
    post, with an optional parent comment, and a like belong to a user and
    a post.  An insert whose foreign key names no row is rejected with the
    code P2003; these are the tests of the three kinds of key. *)
Definition userExists (db : DB) (id : string) : Prop := id ∈ User.id <$> users db.
Definition postExists (db : DB) (id : string) : Prop := id ∈ Post.id <$> posts db.
Definition commentExists (db : DB) (id : string) : Prop :=
  id ∈ Comment.id <$> comments db.

#[export] Instance userExists_dec db id : Decision (userExists db id).
Proof. unfold userExists. apply _. Defined.
#[export] Instance postExists_dec db id : Decision (postExists db id).
Proof. unfold postExists. apply _. Defined.
#[export] Instance commentExists_dec db id : Decision (commentExists db id).
Proof. unfold commentExists. apply _. Defined.

(** The parent of a comment, when it has one, exists. *)
Definition parentExists (db : DB) (parentId : option string) : Prop :=
  match parentId with
  | Some id => commentExists db id
  | None => True
  end.

#[export] Instance parentExists_dec db parentId : Decision (parentExists db parentId).
Proof. destruct parentId; simpl; apply _. Defined.

(** ** UserService ([src/services/user.service.ts]) *)

Module UserService.

Definition newUser (data : CreateUserInput.t) (e u : string) (g : Gen) : User.t :=
  User.mk (gen_id g) e u (CreateUserInput.name data)
    (CreateUserInput.avatar data) (CreateUserInput.bio data) (gen_now g) (gen_now g).

(** [prisma.user.create({ data })]: [email] and [username] are required
    and unique columns. *)
Definition create (data : CreateUserInput.t) (g : Gen) : M User.t :=
  λ db,
    match CreateUserInput.email data, CreateUserInput.username data with
    | Some e, Some u =>
        if decide (Exists (λ x, User.email x = e ∨ User.username x = u) (users db))
        then (Throw (PrismaError "P2002"), db)
        else
          let row := newUser data e u g in
          (Ok row, mkDB (users db ++ [row]) (posts db) (comments db) (likes db))
    | _, _ => (Throw QueryRejected, db)
    end.

Definition getAll (params : option PaginationParams.t) (db : DB)
  : Exc (PaginatedResponse.t User.t) :=
  let params := default PaginationParams.empty params in
  let page := default 1 (PaginationParams.page params) in
  let limit := default 10 (PaginationParams.limit params) in
  let skip := (page - 1) * limit in
  match Prisma.findMany User.createdAt (λ _, True) (Some desc) skip (Some limit) (users db) with
  | Throw e => Throw e
  | Ok us =>
      let total := Prisma.count (λ _, True) (users db) in
      Ok (paginated us total page limit)
  end.

Definition emailExists (email : string) (db : DB) : bool :=
  bool_decide (is_Some (Prisma.findUnique (λ u, User.email u = email) (users db))).

Definition usernameExists (username : string) (db : DB) : bool :=
  bool_decide (is_Some (Prisma.findUnique (λ u, User.username u = username) (users db))).

Definition getById (id : string) (db : DB) : option User.t :=
  Prisma.findUnique (λ u, User.id u = id) (users db).

Definition getByEmail (email : string) (db : DB) : option User.t :=
  Prisma.findUnique (λ u, User.email u = email) (users db).

Definition getByUsername (username : string) (db : DB) : option User.t :=
  Prisma.findUnique (λ u, User.username u = username) (users db).

(** The row after [data] is applied at time [now]: a field that is
    [undefined] is kept, and [updatedAt] is set. *)
Definition updated (data : UpdateUserInput.t) (now : Z) (u : User.t) : User.t :=
  User.mk (User.id u)
    (default (User.email u) (UpdateUserInput.email data))
    (default (User.username u) (UpdateUserInput.username data))
    (orElse (UpdateUserInput.name data) (User.name u))
    (orElse (UpdateUserInput.avatar data) (User.avatar u))
    (orElse (UpdateUserInput.bio data) (User.bio u))
    (User.createdAt u) now.

(** [prisma.user.update({ where: { id }, data })] at time [now]: rejected
    when no row has the id, and when the new email or username is that of
    another row.  The new version of the row is stored last. *)
Definition update (id : string) (data : UpdateUserInput.t) (now : Z) : M User.t :=
  λ db,
    match list_find (λ u, User.id u = id) (users db) with
    | None => (Throw (PrismaError "P2025"), db)
    | Some (i, u) =>
        let u' := updated data now u in
        if decide (Exists (λ x, User.email x = User.email u'
                                ∨ User.username x = User.username u')
                     (base.delete i (users db)))
        then (Throw (PrismaError "P2002"), db)
        else (Ok u',
              mkDB (base.delete i (users db) ++ [u']) (posts db) (comments db) (likes db))
    end.

End UserService.

(** ** PostService ([src/services/user.service.ts], second part) *)

(** [{ contains: s, mode: 'insensitive' }] is the database's
    [field ILIKE '%s%'].  The client does not escape [s]: a [%] in it
    matches any run of characters, a [_] any one character, and a backslash
    makes the character after it literal.  Letter case is ignored by
    folding the pattern and the field.  Strings are sequences of bytes and
    only the ASCII letters are folded here; what the database folds beyond
    them depends on its locale. *)
Definition lower (c : Ascii.ascii) : Ascii.ascii :=
  let n := Ascii.N_of_ascii c in
  if ((65 <=? n) && (n <=? 90))%N then Ascii.ascii_of_N (n + 32) else c.

Fixpoint lowercase (s : string) : string :=
  match s with
  | EmptyString => EmptyString
  | String c s => String (lower c) (lowercase s)
  end.

(** [text LIKE pattern].  A pattern that ends in an unescaped backslash is
    an error in the database; the patterns built below end in [%], so it
    does not arise, and matches nothing here. *)
Fixpoint like (pattern text : string) {struct pattern} : bool :=
  match pattern with
  | EmptyString =>
      match text with
      | EmptyString => true
      | String _ _ => false
      end
  | String c pattern' =>
      if Ascii.eqb c "%"%char then
        (fix any (text : string) : bool :=
           like pattern' text ||
           match text with
           | EmptyString => false
           | String _ text' => any text'
           end) text
      else if Ascii.eqb c "_"%char then
        match text with
        | EmptyString => false
        | String _ text' => like pattern' text'
        end
      else if Ascii.eqb c "\"%char then
        match pattern' with
        | EmptyString => false
        | String d pattern'' =>
            match text with
            | EmptyString => false
            | String e text' => Ascii.eqb d e && like pattern'' text'
            end
        end
      else
        match text with
        | EmptyString => false
        | String e text' => Ascii.eqb c e && like pattern' text'
        end
  end.

Definition contains_insensitive (field needle : string) : bool :=
  like (lowercase (String "%"%char (needle ++ "%")%string)) (lowercase field).

Module PostService.

(** The [where] object built by [getAll]. *)
Definition where_ (filters : PostFilters.t) (p : Post.t) : bool :=
  (if truthy (PostFilters.authorId filters)
   then bool_decide (Some (Post.authorId p) = PostFilters.authorId filters)
   else true)
  && match PostFilters.published filters with
     | Some b => bool_decide (Post.published p = b)
     | None => true
     end
  && match PostFilters.search filters with
     | Some s =>
         if truthy (Some s)
         then contains_insensitive (Post.title p) s
              || contains_insensitive (Post.content p) s
         else true
     | None => true
     end.

Definition counts (db : DB) (p : Post.t) : Count.t :=
  Count.mk
    (Prisma.count (λ l, Like.postId l = Post.id p) (likes db))
    (Prisma.count (λ c, Comment.postId c = Post.id p) (comments db)).

Definition withCounts (db : DB) (p : Post.t) : PostWithCounts.t :=
  PostWithCounts.mk p (userById db (Post.authorId p)) (counts db p).

(** The [replies] of the included comments carry no [orderBy] here. *)
Definition getById (id : string) (db : DB) : option PostFull.t :=
  match Prisma.findUnique (λ p, Post.id p = id) (posts db) with
  | None => None
  | Some p =>
      Some (PostFull.mk p
        (userById db (Post.authorId p))
        (withReplies db None <$>
           Prisma.rowsWhere Comment.createdAt
             (λ c, Comment.postId c = Post.id p ∧ Comment.parentId c = None)
             (Some desc) (comments db))
        (Prisma.rowsWhere Like.createdAt (λ l, Like.postId l = Post.id p) None (likes db))
        (counts db p))
  end.

Definition getAll (params : option PaginationParams.t) (filters : option PostFilters.t)
    (db : DB) : Exc (PaginatedResponse.t PostWithCounts.t) :=
  let params := default PaginationParams.empty params in
  let filters := default PostFilters.empty filters in
  let page := default 1 (PaginationParams.page params) in
  let limit := default 10 (PaginationParams.limit params) in
  let skip := (page - 1) * limit in
  match Prisma.findMany Post.createdAt (λ p, where_ filters p) (Some desc) skip (Some limit) (posts db) with
  | Throw e => Throw e
  | Ok ps =>
      let total := Prisma.count (λ p, where_ filters p) (posts db) in
      Ok (paginated (withCounts db <$> ps) total page limit)
  end.

Definition getByAuthor (authorId : string) (params : option PaginationParams.t)
  : DB → Exc (PaginatedResponse.t PostWithCounts.t) :=
  getAll (Some (default PaginationParams.empty params))
         (Some (PostFilters.mk (Some authorId) None None)).

Definition getFeed (params : option PaginationParams.t)
  : DB → Exc (PaginatedResponse.t PostWithCounts.t) :=
  getAll (Some (default PaginationParams.empty params))
         (Some (PostFilters.mk None (Some true) None)).

(** [post?.authorId === userId] *)
Definition isAuthor (postId userId : string) (db : DB) : bool :=
  let post := Prisma.findUnique (λ p, Post.id p = postId) (posts db) in
  strict_eq (Post.authorId <$> post) userId.

(** The row that [create] inserts. *)
Definition newPost (publishedDefault : bool) (data : CreatePostInput.t)
    (title content authorId : string) (g : Gen) : Post.t :=
  Post.mk (gen_id g) title content (CreatePostInput.imageUrl data)
    (default publishedDefault (CreatePostInput.published data))
    authorId (gen_now g) (gen_now g).

(** [prisma.post.create({ data, include: { author: true } })].  The column
    default of [published] is declared in the schema file, which is not
    among the sources: it is the parameter [publishedDefault].  The author
    is a foreign key. *)
Definition create (publishedDefault : bool) (data : CreatePostInput.t) (g : Gen)
  : M PostWithAuthor.t :=
  λ db,
    match CreatePostInput.title data, CreatePostInput.content data,
          CreatePostInput.authorId data with
    | Some title, Some content, Some authorId =>
        if decide (userExists db authorId)
        then
          let row := newPost publishedDefault data title content authorId g in
          (Ok (PostWithAuthor.mk row (userById db authorId)),
           mkDB (users db) (posts db ++ [row]) (comments db) (likes db))
        else (Throw (PrismaError "P2003"), db)
    | _, _, _ => (Throw QueryRejected, db)
    end.

(** The row after [data] is applied at time [now]: a field that is
    [undefined] is kept, and [updatedAt] is set. *)
Definition updated (data : UpdatePostInput.t) (now : Z) (p : Post.t) : Post.t :=
  Post.mk (Post.id p)
    (default (Post.title p) (UpdatePostInput.title data))
    (default (Post.content p) (UpdatePostInput.content data))
    (orElse (UpdatePostInput.imageUrl data) (Post.imageUrl p))
    (default (Post.published p) (UpdatePostInput.published data))
    (Post.authorId p) (Post.createdAt p) now.

(** [prisma.post.update({ where: { id }, data })] at time [now]: rejected
    when no row has the id.  The new version of the row is stored last. *)
Definition updateRow (id : string) (data : UpdatePostInput.t) (now : Z) : M Post.t :=
  λ db,
    match list_find (λ p, Post.id p = id) (posts db) with
    | None => (Throw (PrismaError "P2025"), db)
    | Some (i, p) =>
        let p' := updated data now p in
        (Ok p',
         mkDB (users db) (base.delete i (posts db) ++ [p']) (comments db) (likes db))
    end.

Definition update (id : string) (data : UpdatePostInput.t) (now : Z)
  : M PostWithAuthor.t :=
  (let! p := updateRow id data now in
   let! author := read (λ db, userById db (Post.authorId p)) in
   ret (PostWithAuthor.mk p author))%store.

Definition setPublished (id : string) (published : bool) (now : Z) : M Post.t :=
  updateRow id (UpdatePostInput.mk None None None (Some published)) now.

Definition countByAuthor (authorId : string) (db : DB) : Z :=
  Prisma.count (λ p, Post.authorId p = authorId) (posts db).

End PostService.

(** ** CommentService ([src/services/comment.service.ts]) *)

Module CommentService.

(** [prisma.comment.create({ data, include: { author: true } })]: the
    author, the post and the parent, when there is one, are foreign keys. *)
Definition insert (content authorId postId : string) (parentId : option string)
    (g : Gen) : M CommentWithAuthor.t :=
  λ db,
    if decide (userExists db authorId ∧ postExists db postId
               ∧ parentExists db parentId)
    then
      let row := Comment.mk (gen_id g) content authorId postId parentId
                   (gen_now g) (gen_now g) in
      let db' := mkDB (users db) (posts db) (comments db ++ [row]) (likes db) in
      (Ok (withAuthor db' row), db')
    else (Throw (PrismaError "P2003"), db).

Definition createReply (parentId : string) (data : ReplyInput.t) (g : Gen)
  : M CommentWithAuthor.t :=
  (let! parentComment :=
     read (λ db, Comment.postId <$>
                   Prisma.findUnique (λ c, Comment.id c = parentId) (comments db)) in
   match parentComment with
   | None => throw (JsError "Parent comment not found")
   | Some parentPostId =>
       insert (ReplyInput.content data) (ReplyInput.authorId data)
              parentPostId (Some parentId) g
   end)%store.

Definition getById (id : string) (db : DB) : option CommentWithReplies.t :=
  withReplies db (Some asc) <$>
    Prisma.findUnique (λ c, Comment.id c = id) (comments db).

Definition getByPost (postId : string) (params : option PaginationParams.t) (db : DB)
  : Exc (PaginatedResponse.t CommentWithReplies.t) :=
  let params := default PaginationParams.empty params in
  let page := default 1 (PaginationParams.page params) in
  let limit := default 20 (PaginationParams.limit params) in
  let skip := (page - 1) * limit in
  let where_ := λ c, Comment.postId c = postId ∧ Comment.parentId c = None in
  match Prisma.findMany Comment.createdAt where_ (Some desc) skip (Some limit) (comments db) with
  | Throw e => Throw e
  | Ok cs =>
      let total := Prisma.count where_ (comments db) in
      Ok (paginated (withReplies db (Some asc) <$> cs) total page limit)
  end.

Definition getByAuthor (authorId : string) (params : option PaginationParams.t) (db : DB)
  : Exc (PaginatedResponse.t CommentWithAuthor.t) :=
  let params := default PaginationParams.empty params in
  let page := default 1 (PaginationParams.page params) in
  let limit := default 20 (PaginationParams.limit params) in
  let skip := (page - 1) * limit in
  let where_ := λ c, Comment.authorId c = authorId in
  match Prisma.findMany Comment.createdAt where_ (Some desc) skip (Some limit) (comments db) with
  | Throw e => Throw e
  | Ok cs =>
      let total := Prisma.count where_ (comments db) in
      Ok (paginated (withAuthor db <$> cs) total page limit)
  end.

(** [comment?.authorId === userId] *)
Definition isAuthor (commentId userId : string) (db : DB) : bool :=
  let comment := Prisma.findUnique (λ c, Comment.id c = commentId) (comments db) in
  strict_eq (Comment.authorId <$> comment) userId.

Definition create (data : CreateCommentInput.t) (g : Gen) : M CommentWithAuthor.t :=
  insert (CreateCommentInput.content data) (CreateCommentInput.authorId data)
         (CreateCommentInput.postId data) (CreateCommentInput.parentId data) g.

(** The row after its content is replaced at time [now]. *)
Definition updated (data : UpdateCommentInput.t) (now : Z) (c : Comment.t)
  : Comment.t :=
  Comment.mk (Comment.id c) (UpdateCommentInput.content data)
    (Comment.authorId c) (Comment.postId c) (Comment.parentId c)
    (Comment.createdAt c) now.

(** [prisma.comment.update({ where: { id }, data, include: { author: true } })]
    at time [now]: rejected when no row has the id.  The new version of the
    row is stored last. *)
Definition update (id : string) (data : UpdateCommentInput.t) (now : Z)
  : M CommentWithAuthor.t :=
  λ db,
    match list_find (λ c, Comment.id c = id) (comments db) with
    | None => (Throw (PrismaError "P2025"), db)
    | Some (i, c) =>
        let c' := updated data now c in
        let db' :=
          mkDB (users db) (posts db) (base.delete i (comments db) ++ [c']) (likes db) in
        (Ok (withAuthor db' c'), db')
    end.

(** [c] is a reply to one of the comments [dead]. *)
Definition repliesTo (dead : list string) (c : Comment.t) : Prop :=
  match Comment.parentId c with
  | Some p => p ∈ dead
  | None => False
  end.

#[global] Instance repliesTo_dec dead c : Decision (repliesTo dead c).
Proof. unfold repliesTo. destruct (Comment.parentId c); apply _. Defined.

(** The cascade of the store: the replies to deleted comments are deleted,
    then the replies to those, until none is left.  Each round that
    continues removes a row, so [length rows] rounds are enough. *)
Fixpoint cascade (rounds : nat) (dead : list string) (rows : list Comment.t)
  : list Comment.t :=
  match rounds with
  | O => rows
  | S rounds =>
      match filter (repliesTo dead) rows with
      | [] => rows
      | r :: rs =>
          cascade rounds (Comment.id <$> r :: rs)
            (filter (λ c, ¬ repliesTo dead c) rows)
      end
  end.

(** [prisma.comment.delete({ where: { id } })], "and all replies due to
    cascade": rejected when no row has the id. *)
Definition delete (id : string) : M Comment.t :=
  λ db,
    match list_find (λ c, Comment.id c = id) (comments db) with
    | None => (Throw (PrismaError "P2025"), db)
    | Some (i, row) =>
        let rest := base.delete i (comments db) in
        (Ok row,
         mkDB (users db) (posts db) (cascade (length rest) [id] rest) (likes db))
    end.

Definition countByPost (postId : string) (db : DB) : Z :=
  Prisma.count (λ c, Comment.postId c = postId) (comments db).

Definition countReplies (commentId : string) (db : DB) : Z :=
  Prisma.count (λ c, Comment.parentId c = Some commentId) (comments db).

End CommentService.

(** ** LikeService ([src/services/like.service.ts]) *)

Module ToggleResult.
Record t := mk { liked : bool; like : option Like.t }.
End ToggleResult.

Module LikeService.

(** The compound unique key [userId_postId]. *)
Definition userId_postId (userId postId : string) (l : Like.t) : Prop :=
  Like.userId l = userId ∧ Like.postId l = postId.

#[export] Instance userId_postId_dec userId postId l :
  Decision (userId_postId userId postId l).
Proof. unfold userId_postId. apply _. Defined.

(** [prisma.like.create({ data })]: the pair (userId, postId) is unique,
    and the user and the post are foreign keys. *)
Definition create (data : CreateLikeInput.t) (g : Gen) : M Like.t :=
  λ db,
    let userId := CreateLikeInput.userId data in
    let postId := CreateLikeInput.postId data in
    if decide (Exists (userId_postId userId postId) (likes db))
    then (Throw (PrismaError "P2002"), db)
    else if decide (userExists db userId ∧ postExists db postId)
    then
      let row := Like.mk (gen_id g) userId postId (gen_now g) in
      (Ok row, mkDB (users db) (posts db) (comments db) (likes db ++ [row]))
    else (Throw (PrismaError "P2003"), db).

(** [prisma.like.delete({ where: { userId_postId } })]: rejected when no
    row has the key. *)
Definition delete (userId postId : string) : M Like.t :=
  λ db,
    match list_find (userId_postId userId postId) (likes db) with
    | None => (Throw (PrismaError "P2025"), db)
    | Some (i, row) =>
        (Ok row, mkDB (users db) (posts db) (comments db) (base.delete i (likes db)))
    end.

Definition getByUserAndPost (userId postId : string) (db : DB) : option Like.t :=
  Prisma.findUnique (userId_postId userId postId) (likes db).

Definition toggle (userId postId : string) (g : Gen) : M ToggleResult.t :=
  (let! existingLike := read (getByUserAndPost userId postId) in
   match existingLike with
   | Some _ =>
       delete userId postId ;;!
       ret (ToggleResult.mk false None)
   | None =>
       let! like := create (CreateLikeInput.mk userId postId) g in
       ret (ToggleResult.mk true (Some like))
   end)%store.

Definition hasLiked (userId postId : string) (db : DB) : bool :=
  bool_decide (is_Some (Prisma.findUnique (userId_postId userId postId) (likes db))).

Definition getByPost (postId : string) (params : option PaginationParams.t) (db : DB)
  : Exc (PaginatedResponse.t LikeWithUser.t) :=
  let params := default PaginationParams.empty params in
  let page := default 1 (PaginationParams.page params) in
  let limit := default 50 (PaginationParams.limit params) in
  let skip := (page - 1) * limit in
  let where_ := λ l, Like.postId l = postId in
  match Prisma.findMany Like.createdAt where_ (Some desc) skip (Some limit) (likes db) with
  | Throw e => Throw e
  | Ok ls =>
      let total := Prisma.count where_ (likes db) in
      Ok (paginated ((λ l, LikeWithUser.mk l (userById db (Like.userId l))) <$> ls)
            total page limit)
  end.

Definition postSummary (db : DB) (id : string) : option (string * string) :=
  (λ p, (Post.id p, Post.title p)) <$>
    Prisma.findUnique (λ p, Post.id p = id) (posts db).

Definition getByUser (userId : string) (params : option PaginationParams.t) (db : DB)
  : Exc (PaginatedResponse.t LikeWithPost.t) :=
  let params := default PaginationParams.empty params in
  let page := default 1 (PaginationParams.page params) in
  let limit := default 20 (PaginationParams.limit params) in
  let skip := (page - 1) * limit in
  let where_ := λ l, Like.userId l = userId in
  match Prisma.findMany Like.createdAt where_ (Some desc) skip (Some limit) (likes db) with
  | Throw e => Throw e
  | Ok ls =>
      let total := Prisma.count where_ (likes db) in
      Ok (paginated ((λ l, LikeWithPost.mk l (postSummary db (Like.postId l))) <$> ls)
            total page limit)
  end.

Definition countByPost (postId : string) (db : DB) : Z :=
  Prisma.count (λ l, Like.postId l = postId) (likes db).

(** [prisma.like.groupBy({ by: ['postId'], where, _count: { postId: true } })]:
    one group per distinct [postId] among the selected rows. *)
Definition groupByPostId (where_ : Like.t → Prop) `{∀ x, Decision (where_ x)}
    (rows : list Like.t) : list (string * Z) :=
  let selected := filter where_ rows in
  (λ k, (k, Prisma.count (λ l, Like.postId l = k) selected)) <$>
    remove_dups (Like.postId <$> selected).

(** The [Map] is a finite map from post ids. *)
Definition countByPosts (postIds : list string) (db : DB) : gmap string Z :=
  let counts := groupByPostId (λ l, Like.postId l ∈ postIds) (likes db) in
  let countMap : gmap string Z := ∅ in
  let countMap := foldl (λ m id, <[id := 0]> m) countMap postIds in
  let countMap := foldl (λ m c, <[c.1 := c.2]> m) countMap counts in
  countMap.

Definition hasLikedPosts (userId : string) (postIds : list string) (db : DB)
  : gmap string bool :=
  let likes :=
    Like.postId <$>
      Prisma.rowsWhere Like.createdAt
        (λ l, Like.userId l = userId ∧ Like.postId l ∈ postIds) None (likes db) in
  let likeMap : gmap string bool := ∅ in
  let likeMap := foldl (λ m id, <[id := false]> m) likeMap postIds in
  let likeMap := foldl (λ m l, <[l := true]> m) likeMap likes in
  likeMap.

End LikeService.

(** ** Handlers *)

Inductive Body (A : Type) :=
| Failure (error : string)         (* [{ success: false, error }] *)
| Success (data : A)               (* [{ success: true, data }] *)
| SuccessMessage (message : string).
Arguments Failure {A} error.
Arguments Success {A} data.
Arguments SuccessMessage {A} message.

Module Response.
Record t (A : Type) := mk { body : Body A; status : Z }.
Arguments mk {A} body status.
Arguments body {A} _.
Arguments status {A} _.
End Response.

(** [jsonResponse(data, status = 200)] *)
Definition jsonResponse {A} (data : Body A) (status : option Z) : Response.t A :=
  Response.mk data (default 200 status).

(** [try { ... } catch (error) { return fallback }] around a handler body. *)
Definition try_catch {A} (m : M (Response.t A)) (fallback : Response.t A)
  : DB → Response.t A * DB :=
  λ db, match m db with
        | (Ok r, db') => (r, db')
        | (Throw _, db') => (fallback, db')
        end.

(** A request is its body: [request.json()] either yields the parsed
    object or rejects. *)
Module Request.
Record t (B : Type) := mk { json : Exc B }.
Arguments mk {B} json.
Arguments json {B} _.
End Request.

(** [userHandlers] ([src/api/users.ts]) *)
Module userHandlers.

Definition create (request : Request.t CreateUserInput.t) (g : Gen)
  : DB → Response.t User.t * DB :=
  try_catch
    (let! body := readE (λ _, Request.json request) in
     if negb (truthy (CreateUserInput.email body))
        || negb (truthy (CreateUserInput.username body))
     then ret (jsonResponse (Failure "Email and username are required") (Some 400))
     else
       let! emailExists :=
         read (UserService.emailExists (default "" (CreateUserInput.email body))) in
       let! usernameExists :=
         read (UserService.usernameExists (default "" (CreateUserInput.username body))) in
       if emailExists
       then ret (jsonResponse (Failure "Email already in use") (Some 409))
       else if usernameExists
       then ret (jsonResponse (Failure "Username already taken") (Some 409))
       else
         let! user := UserService.create body g in
         ret (jsonResponse (Success user) (Some 201)))%store
    (jsonResponse (Failure "Failed to create user") (Some 500)).

Definition getById (id : string) : DB → Response.t User.t * DB :=
  try_catch
    (let! user := read (UserService.getById id) in
     match user with
     | None => ret (jsonResponse (Failure "User not found") (Some 404))
     | Some user => ret (jsonResponse (Success user) None)
     end)%store
    (jsonResponse (Failure "Failed to fetch user") (Some 500)).

Definition getByUsername (username : string) : DB → Response.t User.t * DB :=
  try_catch
    (let! user := read (UserService.getByUsername username) in
     match user with
     | None => ret (jsonResponse (Failure "User not found") (Some 404))
     | Some user => ret (jsonResponse (Success user) None)
     end)%store
    (jsonResponse (Failure "Failed to fetch user") (Some 500)).

(** [existing && existing.id !== id] *)
Definition ownedByOther (existing : option User.t) (id : string) : bool :=
  match existing with
  | Some existing => negb (String.eqb (User.id existing) id)
  | None => false
  end.

Definition update (id : string) (request : Request.t UpdateUserInput.t) (now : Z)
  : DB → Response.t User.t * DB :=
  try_catch
    (let! body := readE (λ _, Request.json request) in
     let! emailTaken :=
       read (λ db,
         if truthy (UpdateUserInput.email body)
         then ownedByOther
                (UserService.getByEmail (default "" (UpdateUserInput.email body)) db) id
         else false) in
     if emailTaken
     then ret (jsonResponse (Failure "Email already in use") (Some 409))
     else
       let! usernameTaken :=
         read (λ db,
           if truthy (UpdateUserInput.username body)
           then ownedByOther
                  (UserService.getByUsername
                     (default "" (UpdateUserInput.username body)) db) id
           else false) in
       if usernameTaken
       then ret (jsonResponse (Failure "Username already taken") (Some 409))
       else
         let! user := UserService.update id body now in
         ret (jsonResponse (Success user) None))%store
    (jsonResponse (Failure "Failed to update user") (Some 500)).

End userHandlers.

(** [likeHandlers] *)
Module likeHandlers.

(** The body [{ userId: string }]. *)
Module LikeBody.
Record t := mk { userId : option string }.
End LikeBody.

Definition like (postId : string) (request : Request.t LikeBody.t) (g : Gen)
  : DB → Response.t Like.t * DB :=
  try_catch
    (let! body := readE (λ _, Request.json request) in
     if negb (truthy (LikeBody.userId body))
     then ret (jsonResponse (Failure "userId is required") (Some 400))
     else
       let userId := default "" (LikeBody.userId body) in
       let! alreadyLiked := read (LikeService.hasLiked userId postId) in
       if alreadyLiked
       then ret (jsonResponse (Failure "Post already liked") (Some 409))
       else
         let! like := LikeService.create (CreateLikeInput.mk userId postId) g in
         ret (jsonResponse (Success like) (Some 201)))%store
    (jsonResponse (Failure "Failed to like post") (Some 500)).

(** The [data] of the toggle response. *)
Module ToggleData.
Record t := mk { liked : bool; message : string }.
End ToggleData.

Definition toggle (postId : string) (request : Request.t LikeBody.t) (g : Gen)
  : DB → Response.t ToggleData.t * DB :=
  try_catch
    (let! body := readE (λ _, Request.json request) in
     if negb (truthy (LikeBody.userId body))
     then ret (jsonResponse (Failure "userId is required") (Some 400))
     else
       let! result :=
         LikeService.toggle (default "" (LikeBody.userId body)) postId g in
       ret (jsonResponse
              (Success (ToggleData.mk (ToggleResult.liked result)
                          (if ToggleResult.liked result
                           then "Post liked" else "Post unliked")))
              None))%store
    (jsonResponse (Failure "Failed to toggle like") (Some 500)).

Definition unlike (postId : string) (request : Request.t LikeBody.t)
  : DB → Response.t unit * DB :=
  try_catch
    (let! body := readE (λ _, Request.json request) in
     if negb (truthy (LikeBody.userId body))
     then ret (jsonResponse (Failure "userId is required") (Some 400))
     else
       LikeService.delete (default "" (LikeBody.userId body)) postId ;;!
       ret (jsonResponse (SuccessMessage "Post unliked") None))%store
    (jsonResponse (Failure "Failed to unlike post") (Some 500)).

Definition getCount (postId : string) : DB → Response.t Z * DB :=
  try_catch
    (let! count := read (LikeService.countByPost postId) in
     ret (jsonResponse (Success count) None))%store
    (jsonResponse (Failure "Failed to fetch like count") (Some 500)).

End likeHandlers.

(** [commentHandlers] *)
Module commentHandlers.

(** [Omit<CreateCommentInput, 'postId'>] as it arrives from [request.json()]. *)
Module CommentBody.
Record t := mk
  { content : option string; authorId : option string;
    parentId : option string }.
End CommentBody.

(** The body [{ content: string; authorId: string }] of a reply. *)
Module ReplyBody.
Record t := mk { content : option string; authorId : option string }.
End ReplyBody.

(** [UpdateCommentInput] as it arrives from [request.json()]. *)
Module ContentBody.
Record t := mk { content : option string }.
End ContentBody.

Definition getById (id : string) : DB → Response.t CommentWithReplies.t * DB :=
  try_catch
    (let! comment := read (CommentService.getById id) in
     match comment with
     | None => ret (jsonResponse (Failure "Comment not found") (Some 404))
     | Some comment => ret (jsonResponse (Success comment) None)
     end)%store
    (jsonResponse (Failure "Failed to fetch comment") (Some 500)).

(** [{ ...body, postId }]: the body with the [postId] of the path. *)
Definition create (postId : string) (request : Request.t CommentBody.t) (g : Gen)
  : DB → Response.t CommentWithAuthor.t * DB :=
  try_catch
    (let! body := readE (λ _, Request.json request) in
     if negb (truthy (CommentBody.content body))
        || negb (truthy (CommentBody.authorId body))
     then ret (jsonResponse (Failure "Content and authorId are required") (Some 400))
     else
       let! comment :=
         CommentService.create
           (CreateCommentInput.mk
              (default "" (CommentBody.content body))
              (default "" (CommentBody.authorId body))
              postId
              (CommentBody.parentId body)) g in
       ret (jsonResponse (Success comment) (Some 201)))%store
    (jsonResponse (Failure "Failed to create comment") (Some 500)).

Definition createReply (parentId : string) (request : Request.t ReplyBody.t) (g : Gen)
  : DB → Response.t CommentWithAuthor.t * DB :=
  try_catch
    (let! body := readE (λ _, Request.json request) in
     if negb (truthy (ReplyBody.content body))
        || negb (truthy (ReplyBody.authorId body))
     then ret (jsonResponse (Failure "Content and authorId are required") (Some 400))
     else
       let! parentComment := read (CommentService.getById parentId) in
       match parentComment with
       | None => ret (jsonResponse (Failure "Parent comment not found") (Some 404))
       | Some parentComment =>
           let! reply :=
             CommentService.createReply parentId
               (ReplyInput.mk
                  (default "" (ReplyBody.content body))
                  (default "" (ReplyBody.authorId body))
                  (Comment.postId (CommentWithReplies.comment parentComment))) g in
           ret (jsonResponse (Success reply) (Some 201))
       end)%store
    (jsonResponse (Failure "Failed to create reply") (Some 500)).

Definition update (id : string) (request : Request.t ContentBody.t) (now : Z)
  : DB → Response.t CommentWithAuthor.t * DB :=
  try_catch
    (let! body := readE (λ _, Request.json request) in
     if negb (truthy (ContentBody.content body))
     then ret (jsonResponse (Failure "Content is required") (Some 400))
     else
       let! comment :=
         CommentService.update id
           (UpdateCommentInput.mk (default "" (ContentBody.content body))) now in
       ret (jsonResponse (Success comment) None))%store
    (jsonResponse (Failure "Failed to update comment") (Some 500)).

Definition delete (id : string) : DB → Response.t unit * DB :=
  try_catch
    (CommentService.delete id ;;!
     ret (jsonResponse (SuccessMessage "Comment deleted") None))%store
    (jsonResponse (Failure "Failed to delete comment") (Some 500)).

End commentHandlers.

(** [postHandlers] *)
Module postHandlers.

Definition getById (id : string) : DB → Response.t PostFull.t * DB :=
  try_catch
    (let! post := read (PostService.getById id) in
     match post with
     | None => ret (jsonResponse (Failure "Post not found") (Some 404))
     | Some post => ret (jsonResponse (Success post) None)
     end)%store
    (jsonResponse (Failure "Failed to fetch post") (Some 500)).

Definition create (publishedDefault : bool) (request : Request.t CreatePostInput.t)
    (g : Gen) : DB → Response.t PostWithAuthor.t * DB :=
  try_catch
    (let! body := readE (λ _, Request.json request) in
     if negb (truthy (CreatePostInput.title body))
        || negb (truthy (CreatePostInput.content body))
        || negb (truthy (CreatePostInput.authorId body))
     then ret (jsonResponse
                 (Failure "Title, content, and authorId are required") (Some 400))
     else
       let! post := PostService.create publishedDefault body g in
       ret (jsonResponse (Success post) (Some 201)))%store
    (jsonResponse (Failure "Failed to create post") (Some 500)).

Definition update (id : string) (request : Request.t UpdatePostInput.t) (now : Z)
  : DB → Response.t PostWithAuthor.t * DB :=
  try_catch
    (let! body := readE (λ _, Request.json request) in
     let! post := PostService.update id body now in
     ret (jsonResponse (Success post) None))%store
    (jsonResponse (Failure "Failed to update post") (Some 500)).

Definition setPublished (id : string) (published : bool) (now : Z)
  : DB → Response.t Post.t * DB :=
  try_catch
    (let! post := PostService.setPublished id published now in
     ret (jsonResponse (Success post) None))%store
    (jsonResponse (Failure "Failed to update post") (Some 500)).

End postHandlers.


(** * Specification *)

(** ** Vocabulary of the statements *)

(** [r] is page number [page], of size [limit], of the list [all]. *)
Definition is_page {A} (all : list A) (page limit : Z)
    (r : PaginatedResponse.t A) : Prop :=
  let m := PaginatedResponse.meta r in
  Meta.total m = Z.of_nat (length all) ∧
  Meta.page m = page ∧
  Meta.limit m = limit ∧
  (Meta.totalPages m - 1) * limit < Meta.total m ≤ Meta.totalPages m * limit ∧
  (Meta.hasMore m = true ↔ page * limit < Meta.total m) ∧
  (length (PaginatedResponse.data r) ≤ Z.to_nat limit)%nat ∧
  ∀ i : nat, Z.of_nat i < limit →
    PaginatedResponse.data r !! i = all !! (Z.to_nat ((page - 1) * limit) + i)%nat.

Definition newest_first {A} (createdAt : A → Z) (l : list A) : Prop :=
  Sorted (λ a b, createdAt b ≤ createdAt a) l.


Definition oldest_first {A} (createdAt : A → Z) (l : list A) : Prop :=
  Sorted (λ a b, createdAt a ≤ createdAt b) l.

(** The uniqueness index on (userId, postId). *)
Definition unique_likes (db : DB) : Prop :=
  NoDup ((λ l, (Like.userId l, Like.postId l)) <$> likes db).

(** The primary key of the comments table. *)
Definition unique_comment_ids (db : DB) : Prop :=
  NoDup (Comment.id <$> comments db).

(** No two rows of a table were created at the same time. *)
Definition distinct_times (db : DB) : Prop :=
  NoDup (User.createdAt <$> users db) ∧
  NoDup (Post.createdAt <$> posts db) ∧
  NoDup (Comment.createdAt <$> comments db) ∧
  NoDup (Like.createdAt <$> likes db).

(** The foreign keys hold throughout the store. *)
Definition references_ok (db : DB) : Prop :=
  (∀ p, p ∈ posts db → userExists db (Post.authorId p)) ∧
  (∀ c, c ∈ comments db →
     userExists db (Comment.authorId c) ∧ postExists db (Comment.postId c)
     ∧ parentExists db (Comment.parentId c)) ∧
  (∀ l, l ∈ likes db →
     userExists db (Like.userId l) ∧ postExists db (Like.postId l)).

Definition explicit (page limit : Z) : option PaginationParams.t :=
  Some (PaginationParams.mk (Some page) (Some limit)).

(** ** A small store, used to instantiate the statements *)

Definition alice : User.t := User.mk "u1" "a@x.com" "a" None None None 1 1.
Definition bob : User.t := User.mk "u2" "b@x.com" "b" None None None 2 2.
Definition carol : User.t := User.mk "u3" "c@x.com" "c" None None None 3 3.

Definition post1 : Post.t := Post.mk "p1" "Hello" "First post" None true "u1" 10 10.
Definition post2 : Post.t := Post.mk "p2" "Draft" "Not yet" None false "u1" 11 11.

Definition comment1 : Comment.t := Comment.mk "c1" "Nice" "u2" "p1" None 20 20.
Definition reply_late : Comment.t :=
  Comment.mk "c3" "Later" "u1" "p1" (Some "c1") 40 40.
Definition reply_early : Comment.t :=
  Comment.mk "c2" "Sooner" "u3" "p1" (Some "c1") 30 30.

Definition like1 : Like.t := Like.mk "l1" "u1" "p1" 50.
Definition like2 : Like.t := Like.mk "l2" "u2" "p1" 51.
Definition like3 : Like.t := Like.mk "l3" "u2" "p2" 52.

(** The later reply is stored before the earlier one. *)
Definition sampleDB : DB :=
  mkDB [alice; carol; bob] [post1; post2]
       [comment1; reply_late; reply_early] [like1; like2; like3].

Definition sampleGen : Gen := mkGen "new" 100.

(** Request bodies used in the counterexamples. *)
Definition taken_email_no_username : CreateUserInput.t :=
  CreateUserInput.mk (Some "a@x.com") None None None None.

Definition taken_email_and_username : CreateUserInput.t :=
  CreateUserInput.mk (Some "a@x.com") (Some "b") None None None.

Definition empty_userId : likeHandlers.LikeBody.t :=
  likeHandlers.LikeBody.mk (Some "").

(** The creation times of the replies attached to a comment, in the order
    they are returned. *)
Definition replyTimes (c : CommentWithReplies.t) : list Z :=
  (λ r, Comment.createdAt (CommentWithAuthor.comment r)) <$>
    CommentWithReplies.replies c.

(** ** Vocabulary of the further properties *)

(** The unique columns of the users table. *)
Definition unique_users (db : DB) : Prop :=
  NoDup (User.email <$> users db) ∧ NoDup (User.username <$> users db).

Definition unique_user_ids (db : DB) : Prop :=
  NoDup (User.id <$> users db).

Definition unique_post_ids (db : DB) : Prop :=
  NoDup (Post.id <$> posts db).

(** The comments form a forest within each post: ids are unique, and the
    parent of every reply exists and is on the same post. *)
Definition comment_tree_ok (db : DB) : Prop :=
  unique_comment_ids db ∧
  ∀ c pid, c ∈ comments db → Comment.parentId c = Some pid →
    ∃ p, p ∈ comments db ∧ Comment.id p = pid ∧ Comment.postId p = Comment.postId c.

(** [c] is, in [rows], a reply to one of the comments [dead], or a reply to
    such a reply, and so on. *)
Inductive below (rows : list Comment.t) (dead : list string) : Comment.t → Prop :=
| below_reply c :
    c ∈ rows → CommentService.repliesTo dead c → below rows dead c
| below_nested c p :
    c ∈ rows → below rows dead p →
    Comment.parentId c = Some (Comment.id p) → below rows dead c.

#[export] Instance comment_eq_dec : EqDecision Comment.t.
Proof. solve_decision. Defined.

(** The rows of a list result, none when the call throws. *)
Definition rowsOf {A} (r : Exc (PaginatedResponse.t A)) : list A :=
  match r with
  | Ok r => PaginatedResponse.data r
  | Throw _ => []
  end.

(** Pages 1 to [n], one after the other. *)
Definition firstPages {A} (op : Z → Exc (PaginatedResponse.t A)) (n : nat) : list A :=
  mjoin ((λ k : nat, rowsOf (op (Z.of_nat (S k)))) <$> seq 0 n).

(** What a page tells about its place in the whole. *)
Definition page_position {A} (page limit : Z) (r : PaginatedResponse.t A) : Prop :=
  let m := PaginatedResponse.meta r in
  let n := Z.of_nat (length (PaginatedResponse.data r)) in
  0 ≤ Meta.totalPages m ∧
  (Meta.totalPages m = 0 ↔ Meta.total m = 0) ∧
  (Meta.hasMore m = true ↔ page < Meta.totalPages m) ∧
  (page < Meta.totalPages m → n = limit) ∧
  (page = Meta.totalPages m → 0 < n ≤ limit ∧ n = Meta.total m - (page - 1) * limit) ∧
  (Meta.totalPages m < page → PaginatedResponse.data r = []).

(** The un-paginated, newest-first results of the list operations. *)
Definition usersAll (db : DB) : list User.t :=
  Prisma.rowsWhere User.createdAt (λ _, True) (Some desc) (users db).

Definition postsAll (filters : option PostFilters.t) (db : DB)
  : list PostWithCounts.t :=
  PostService.withCounts db <$>
    Prisma.rowsWhere Post.createdAt
      (λ p, PostService.where_ (default PostFilters.empty filters) p)
      (Some desc) (posts db).

Definition commentsOfPost (postId : string) (db : DB) : list CommentWithReplies.t :=
  withReplies db (Some asc) <$>
    Prisma.rowsWhere Comment.createdAt
      (λ c, Comment.postId c = postId ∧ Comment.parentId c = None)
      (Some desc) (comments db).

Definition commentsOfAuthor (authorId : string) (db : DB) : list CommentWithAuthor.t :=
  withAuthor db <$>
    Prisma.rowsWhere Comment.createdAt
      (λ c, Comment.authorId c = authorId) (Some desc) (comments db).

Definition likesOfPost (postId : string) (db : DB) : list LikeWithUser.t :=
  (λ l, LikeWithUser.mk l (userById db (Like.userId l))) <$>
    Prisma.rowsWhere Like.createdAt
      (λ l, Like.postId l = postId) (Some desc) (likes db).

Definition likesOfUser (userId : string) (db : DB) : list LikeWithPost.t :=
  (λ l, LikeWithPost.mk l (LikeService.postSummary db (Like.postId l))) <$>
    Prisma.rowsWhere Like.createdAt
      (λ l, Like.userId l = userId) (Some desc) (likes db).

(** The list operations of the services, each with its un-paginated result. *)
Inductive list_operation (db : DB)
  : ∀ A : Type, (option PaginationParams.t → Exc (PaginatedResponse.t A)) → list A → Prop :=
| users_getAll :
    list_operation db User.t (λ ps, UserService.getAll ps db) (usersAll db)
| posts_getAll filters :
    list_operation db PostWithCounts.t
      (λ ps, PostService.getAll ps filters db) (postsAll filters db)
| posts_getByAuthor authorId :
    list_operation db PostWithCounts.t
      (λ ps, PostService.getByAuthor authorId ps db)
      (postsAll (Some (PostFilters.mk (Some authorId) None None)) db)
| posts_getFeed :
    list_operation db PostWithCounts.t
      (λ ps, PostService.getFeed ps db)
      (postsAll (Some (PostFilters.mk None (Some true) None)) db)
| comments_getByPost postId :
    list_operation db CommentWithReplies.t
      (λ ps, CommentService.getByPost postId ps db) (commentsOfPost postId db)
| comments_getByAuthor authorId :
    list_operation db CommentWithAuthor.t
      (λ ps, CommentService.getByAuthor authorId ps db) (commentsOfAuthor authorId db)
| likes_getByPost postId :
    list_operation db LikeWithUser.t
      (λ ps, LikeService.getByPost postId ps db) (likesOfPost postId db)
| likes_getByUser userId :
    list_operation db LikeWithPost.t
      (λ ps, LikeService.getByUser userId ps db) (likesOfUser userId db).

(** [c] stands for itself in a LIKE pattern. *)
Definition literal (c : Ascii.ascii) : bool :=
  negb (Ascii.eqb c "%"%char) && negb (Ascii.eqb c "_"%char)
  && negb (Ascii.eqb c "\"%char).

(** No character of [s] has a special meaning in a LIKE pattern. *)
Fixpoint plain (s : string) : bool :=
  match s with
  | EmptyString => true
  | String c s => literal c && plain s
  end.

(** Every character of [s] is an ASCII character. *)
Fixpoint ascii_only (s : string) : bool :=
  match s with
  | EmptyString => true
  | String c s => (Ascii.N_of_ascii c <? 128)%N && ascii_only s
  end.

(** [needle] occurs in [field], letter case ignored. *)
Definition occurs_in (needle field : string) : Prop :=
  ∃ pre post, lowercase field = (pre ++ lowercase needle ++ post)%string.

(** [findMany] accepts the arguments [skip] and [take]. *)
Definition accepted (skip take : Z) : Prop :=
  Prisma.int64 skip ∧ Prisma.int64_opt (Some take) ∧ 0 ≤ skip.

#[export] Instance accepted_dec skip take : Decision (accepted skip take).
Proof. unfold accepted. apply _. Defined.

(** The number of pages that hold [n] rows, [limit] to a page. *)
Definition pagesFor (n : nat) (limit : Z) : nat :=
  Z.to_nat (Math_ceil (js_div (Z.of_nat n) limit)).

(** The limit of [params] is not negative (an omitted limit is the default
    of the method, which is positive). *)
Definition limit_not_negative (params : option PaginationParams.t) : Prop :=
  ∀ n, PaginationParams.limit (default PaginationParams.empty params) = Some n → 0 ≤ n.


(** * Proofs *)

(** A decidable fact about a concrete store, by evaluation. *)
Ltac by_computation := apply (bool_decide_unpack _); by vm_compute.

(** ** Pagination arithmetic *)

Lemma Math_ceil_bounds (total limit : Z) :
  0 < limit →
  (Math_ceil (js_div total limit) - 1) * limit < total
  ∧ total ≤ Math_ceil (js_div total limit) * limit.
Proof.
  intros Hl. destruct limit as [|p|p]; try lia.
  unfold Math_ceil, js_div, Qceiling, Qfloor, Qdiv, Qinv, Qmult, Qopp, inject_Z.
  cbn [Qnum Qden].
  rewrite Z.mul_1_r, Pos.mul_1_l.
  pose proof (Z.div_mod (- total) (Z.pos p) ltac:(lia)) as Hdm.
  pose proof (Z.mod_pos_bound (- total) (Z.pos p) ltac:(lia)) as Hb.
  nia.
Qed.

(** ** Unique lookups and deletions *)

Section Unique.
Context {A : Type} (P : A → Prop) `{∀ x, Decision (P x)}.

Lemma filter_none (l : list A) : (∀ x, x ∈ l → ¬ P x) → filter P l = [].
Proof.
  induction l as [|a l IH]; intros Hl; [done|].
  rewrite filter_cons_False by (apply Hl; left).
  apply IH. intros x Hx. apply Hl. by right.
Qed.

Lemma filter_all (l : list A) : (∀ x, x ∈ l → P x) → filter P l = l.
Proof.
  induction l as [|a l IH]; intros Hl; [done|].
  rewrite filter_cons_True by (apply Hl; left).
  f_equal. apply IH. intros x Hx. apply Hl. by right.
Qed.

Lemma findUnique_Some (l : list A) (x : A) :
  Prisma.findUnique P l = Some x → x ∈ l ∧ P x.
Proof.
  unfold Prisma.findUnique. intros Hx.
  apply head_Some_elem_of, list_elem_of_filter in Hx. tauto.
Qed.

Lemma findUnique_None (l : list A) :
  Prisma.findUnique P l = None ↔ ∀ x, x ∈ l → ¬ P x.
Proof.
  unfold Prisma.findUnique. rewrite head_None. split.
  - intros Hnil x Hx HP. by eapply filter_nil_not_elem_of.
  - apply filter_none.
Qed.

Lemma findUnique_is_Some (l : list A) :
  is_Some (Prisma.findUnique P l) ↔ ∃ x, x ∈ l ∧ P x.
Proof.
  split.
  - intros [x Hx]. exists x. by apply findUnique_Some.
  - intros (x & Hx & HP). apply not_eq_None_Some. intros Hn.
    by apply (proj1 (findUnique_None l) Hn x).
Qed.

Lemma list_find_findUnique (l : list A) :
  snd <$> list_find P l = Prisma.findUnique P l.
Proof.
  unfold Prisma.findUnique. induction l as [|a l IH]; [done|].
  rewrite filter_cons. unfold list_find; fold (list_find P l).
  destruct (decide (P a)); [done|].
  rewrite <- IH. by destruct (list_find P l) as [[? ?]|].
Qed.

End Unique.

Lemma NoDup_fmap_eq {A K} (f : A → K) (l : list A) (x y : A) :
  NoDup (f <$> l) → x ∈ l → y ∈ l → f x = f y → x = y.
Proof.
  induction l as [|a l IH]; intros Hnd Hx Hy Heq; [by apply elem_of_nil in Hx|].
  rewrite fmap_cons in Hnd. apply NoDup_cons in Hnd as [Ha Hnd].
  apply elem_of_cons in Hx as [->|Hx]; apply elem_of_cons in Hy as [->|Hy].
  - done.
  - exfalso. apply Ha. rewrite Heq. by apply list_elem_of_fmap_2.
  - exfalso. apply Ha. rewrite <- Heq. by apply list_elem_of_fmap_2.
  - by apply IH.
Qed.

Lemma NoDup_fmap_filter {A K} (f : A → K) (P : A → Prop)
    `{∀ x, Decision (P x)} (l : list A) :
  NoDup (f <$> l) → NoDup (f <$> filter P l).
Proof.
  induction l as [|a l IH]; intros Hnd; [done|].
  rewrite fmap_cons in Hnd. apply NoDup_cons in Hnd as [Ha Hnd].
  rewrite filter_cons. destruct (decide (P a)); [|by apply IH].
  rewrite fmap_cons. apply NoDup_cons. split; [|by apply IH].
  intros Hin. apply Ha. apply list_elem_of_fmap in Hin as (x & -> & Hx).
  apply list_elem_of_filter in Hx as [_ Hx]. by apply list_elem_of_fmap_2.
Qed.

Lemma delete_unique_key {A K} (f : A → K) (l : list A) (i : nat) (x : A)
    `{∀ y, Decision (f y ≠ f x)} :
  NoDup (f <$> l) → l !! i = Some x →
  base.delete i l = filter (λ y, f y ≠ f x) l.
Proof.
  revert i. induction l as [|a l IH]; intros i Hnd Hi; [done|].
  rewrite fmap_cons in Hnd. apply NoDup_cons in Hnd as [Ha Hnd].
  destruct i as [|i]; simplify_eq/=.
  - rewrite filter_cons_False by (intros Hne; by apply Hne).
    symmetry. apply filter_all. intros y Hy Heq. apply Ha.
    rewrite <- Heq. by apply list_elem_of_fmap_2.
  - rewrite filter_cons_True.
    + f_equal. by apply IH.
    + intros Heq. apply Ha. rewrite Heq.
      apply list_elem_of_fmap_2. by eapply list_elem_of_lookup_2.
Qed.

(** ** Windows of a query *)

(** Safe integers fit the 64-bit arguments of a query. *)
Lemma int64_safe (page limit : Z) :
  0 < page → 0 < limit → page * limit ≤ MAX_SAFE_INTEGER →
  0 ≤ (page - 1) * limit < 2 ^ 63 ∧ 0 ≤ limit < 2 ^ 63.
Proof.
  unfold MAX_SAFE_INTEGER. intros Hp Hl Hb.
  assert (limit ≤ page * limit) by nia.
  assert ((page - 1) * limit < page * limit) by nia.
  assert (0 ≤ (page - 1) * limit) by nia.
  change (2 ^ 53) with 9007199254740992 in Hb.
  change (2 ^ 63) with 9223372036854775808.
  lia.
Qed.

Section Window.
Context {A : Type} (createdAt : A → Z).
Context (where_ : A → Prop) `{∀ x, Decision (where_ x)}.


(** What a query with a non-negative [take] returns, when it returns. *)
Lemma findMany_Ok (o : option SortOrder) (skip n : Z) (rows l : list A) :
  0 ≤ n →
  Prisma.findMany createdAt where_ o skip (Some n) rows = Ok l →
  0 ≤ skip ∧
  l = take (Z.to_nat n)
        (drop (Z.to_nat skip) (Prisma.rowsWhere createdAt where_ o rows)).
Proof.
  intros Hn. unfold Prisma.findMany, Prisma.window, Prisma.rowsWhere.
  destruct (decide _) as [(_ & _ & Hs)|]; [|done].
  rewrite decide_True by lia. by intros [= <-].
Qed.

Lemma rowsWhere_Permutation (o : option SortOrder) (rows : list A) :
  Prisma.rowsWhere createdAt where_ o rows ≡ₚ filter where_ rows.
Proof.
  unfold Prisma.rowsWhere, Prisma.ordered. destruct o; [|done].
  apply merge_sort_Permutation.
Qed.

Lemma count_rowsWhere (o : option SortOrder) (rows : list A) :
  Prisma.count where_ rows
  = Z.of_nat (length (Prisma.rowsWhere createdAt where_ o rows)).
Proof. unfold Prisma.count. by rewrite rowsWhere_Permutation. Qed.

Lemma elem_of_rowsWhere (o : option SortOrder) (rows : list A) (x : A) :
  x ∈ Prisma.rowsWhere createdAt where_ o rows ↔ where_ x ∧ x ∈ rows.
Proof. by rewrite rowsWhere_Permutation, list_elem_of_filter. Qed.

Lemma before_total (o : SortOrder) : Total (Prisma.before createdAt o).
Proof. intros a b. destruct o; unfold Prisma.before; lia. Qed.

Lemma rowsWhere_desc (rows : list A) :
  newest_first createdAt (Prisma.rowsWhere createdAt where_ (Some desc) rows).
Proof.
  unfold newest_first, Prisma.rowsWhere, Prisma.ordered.
  apply (@Sorted_merge_sort _ (Prisma.before createdAt desc) _ (before_total desc)).
Qed.

Lemma rowsWhere_asc (rows : list A) :
  oldest_first createdAt (Prisma.rowsWhere createdAt where_ (Some asc) rows).
Proof.
  unfold oldest_first, Prisma.rowsWhere, Prisma.ordered.
  apply (@Sorted_merge_sort _ (Prisma.before createdAt asc) _ (before_total asc)).
Qed.

End Window.

(** ** Rows created at the same time

    With pairwise distinct creation times a table has one arrangement in
    the order of [orderBy], so the database has no choice to make. *)

Section Arrangements.
Context {A : Type} (createdAt : A → Z).

Lemma sorted_head_least (o : SortOrder) (a : A) (l : list A) :
  Sorted (Prisma.before createdAt o) (a :: l) →
  ∀ x, x ∈ l → Prisma.before createdAt o a x.
Proof.
  intros Hs. apply Sorted_StronglySorted in Hs.
  - apply StronglySorted_inv in Hs as [_ Hall].
    intros x Hx. by eapply Forall_forall in Hall.
  - intros x y z. destruct o; unfold Prisma.before; lia.
Qed.

Lemma sorted_arrangement_unique (o : SortOrder) (l1 l2 : list A) :
  NoDup (createdAt <$> l1) →
  l1 ≡ₚ l2 →
  Sorted (Prisma.before createdAt o) l1 →
  Sorted (Prisma.before createdAt o) l2 →
  l1 = l2.
Proof.
  revert l2. induction l1 as [|a l1 IH]; intros l2 Hnd Hp Hs1 Hs2.
  - by apply Permutation_nil_l in Hp.
  - destruct l2 as [|b l2]; [by apply Permutation_nil_r in Hp|].
    assert (createdAt a = createdAt b) as Hab.
    { assert (b ∈ a :: l1) as Hb by (rewrite Hp; left).
      assert (a ∈ b :: l2) as Ha by (rewrite <- Hp; left).
      apply elem_of_cons in Hb as [->|Hb]; [done|].
      apply elem_of_cons in Ha as [->|Ha]; [done|].
      pose proof (sorted_head_least o a l1 Hs1 b Hb) as H1.
      pose proof (sorted_head_least o b l2 Hs2 a Ha) as H2.
      destruct o; unfold Prisma.before in *; lia. }
    assert (a = b) as <-.
    { apply (NoDup_fmap_eq createdAt (a :: l1)); [done|left| |done].
      rewrite Hp. left. }
    f_equal. apply IH.
    + rewrite fmap_cons in Hnd. by apply NoDup_cons in Hnd as [_ ?].
    + by apply Permutation_cons_inv in Hp.
    + by apply Sorted_inv in Hs1 as [? _].
    + by apply Sorted_inv in Hs2 as [? _].
Qed.

(** The rows the model returns are the only answer the database can give. *)
Lemma ordered_unique (where_ : A → Prop) `{∀ x, Decision (where_ x)}
    (o : SortOrder) (rows answer : list A) :
  NoDup (createdAt <$> rows) →
  answer ≡ₚ filter where_ rows →
  Sorted (Prisma.before createdAt o) answer →
  answer = Prisma.rowsWhere createdAt where_ (Some o) rows.
Proof.
  intros Hnd Hp Hs. apply (sorted_arrangement_unique o).
  - rewrite Hp. by apply NoDup_fmap_filter.
  - by rewrite Hp, rowsWhere_Permutation.
  - done.
  - destruct o; [apply (rowsWhere_asc createdAt)|apply (rowsWhere_desc createdAt)].
Qed.

End Arrangements.

Lemma paginated_is_page {A B} (f : A → B) (all : list A) (page limit : Z) :
  0 < page → 0 < limit →
  is_page (f <$> all) page limit
    (paginated (f <$> take (Z.to_nat limit)
                        (drop (Z.to_nat ((page - 1) * limit)) all))
       (Z.of_nat (length all)) page limit).
Proof.
  intros Hp Hl. unfold is_page, paginated. cbn.
  rewrite length_fmap.
  split_and!; try done.
  - apply Math_ceil_bounds; lia.
  - apply Math_ceil_bounds; lia.
  - apply bool_decide_eq_true.
  - rewrite length_fmap, length_take. lia.
  - intros i Hi.
    rewrite !list_lookup_fmap, lookup_take_lt by lia.
    by rewrite lookup_drop.
Qed.

Lemma paginated_rows_is_page {A} (all : list A) (page limit : Z) :
  0 < page → 0 < limit →
  is_page all page limit
    (paginated (take (Z.to_nat limit) (drop (Z.to_nat ((page - 1) * limit)) all))
       (Z.of_nat (length all)) page limit).
Proof.
  intros Hp Hl. pose proof (paginated_is_page id all page limit Hp Hl) as H.
  by rewrite !list_fmap_id in H.
Qed.

(** ** C1: the pagination contract of the six list operations *)



(** ** LikeService: create, delete, toggle *)

Section Likes.
Context (userId postId : string).

Lemma getByUserAndPost_exists (db : DB) :
  is_Some (LikeService.getByUserAndPost userId postId db)
  ↔ ∃ l, l ∈ likes db ∧ Like.userId l = userId ∧ Like.postId l = postId.
Proof. unfold LikeService.getByUserAndPost. by rewrite findUnique_is_Some. Qed.

Lemma hasLiked_getByUserAndPost (db : DB) :
  LikeService.hasLiked userId postId db
  = bool_decide (is_Some (LikeService.getByUserAndPost userId postId db)).
Proof. done. Qed.

Lemma getByUserAndPost_None (db : DB) :
  LikeService.getByUserAndPost userId postId db = None
  ↔ ∀ x, x ∈ likes db → ¬ LikeService.userId_postId userId postId x.
Proof. apply findUnique_None. Qed.

Lemma not_liked_not_Exists (db : DB) :
  LikeService.getByUserAndPost userId postId db = None →
  ¬ Exists (LikeService.userId_postId userId postId) (likes db).
Proof.
  intros Hnone. rewrite Exists_exists. intros (l & Hl & Hkey).
  by apply (proj1 (getByUserAndPost_None db) Hnone l).
Qed.

Lemma create_absent (g : Gen) (db : DB) :
  LikeService.getByUserAndPost userId postId db = None →
  userExists db userId → postExists db postId →
  LikeService.create (CreateLikeInput.mk userId postId) g db
  = (Ok (Like.mk (gen_id g) userId postId (gen_now g)),
     mkDB (users db) (posts db) (comments db)
          (likes db ++ [Like.mk (gen_id g) userId postId (gen_now g)])).
Proof.
  intros Hnone Hu Hp. unfold LikeService.create; cbn.
  rewrite decide_False by by apply not_liked_not_Exists.
  by rewrite decide_True.
Qed.

(** A like of a user or of a post that does not exist is rejected. *)
Lemma create_dangling (g : Gen) (db : DB) :
  LikeService.getByUserAndPost userId postId db = None →
  ¬ (userExists db userId ∧ postExists db postId) →
  LikeService.create (CreateLikeInput.mk userId postId) g db
  = (Throw (PrismaError "P2003"), db).
Proof.
  intros Hnone Hmissing. unfold LikeService.create; cbn.
  rewrite decide_False by by apply not_liked_not_Exists.
  by rewrite decide_False.
Qed.

Lemma create_present (g : Gen) (db : DB) (l : Like.t) :
  LikeService.getByUserAndPost userId postId db = Some l →
  LikeService.create (CreateLikeInput.mk userId postId) g db
  = (Throw (PrismaError "P2002"), db).
Proof.
  intros Hsome. unfold LikeService.create; cbn.
  rewrite decide_True; [done|].
  rewrite Exists_exists. exists l. by apply findUnique_Some in Hsome.
Qed.

Lemma delete_present (db : DB) (l : Like.t) :
  unique_likes db →
  LikeService.getByUserAndPost userId postId db = Some l →
  LikeService.delete userId postId db
  = (Ok l,
     mkDB (users db) (posts db) (comments db)
          (filter (λ x, ¬ LikeService.userId_postId userId postId x) (likes db))).
Proof.
  intros Huniq Hsome. unfold LikeService.delete.
  unfold LikeService.getByUserAndPost in Hsome.
  rewrite <- list_find_findUnique in Hsome.
  destruct (list_find _ (likes db)) as [[i l']|] eqn:Hfind; simplify_eq/=.
  apply list_find_Some in Hfind as (Hi & [Hu Hp] & _).
  do 2 f_equal.
  rewrite (delete_unique_key (λ x, (Like.userId x, Like.postId x)) _ i l)
    by done.
  apply list_filter_iff. intros x. unfold LikeService.userId_postId.
  split.
  - intros Hne [? ?]. apply Hne. congruence.
  - intros Hne Heq. apply Hne. by simplify_eq.
Qed.

Lemma not_key_filtered (ls : list Like.t) (x : Like.t) :
  x ∈ filter (λ x, ¬ LikeService.userId_postId userId postId x) ls →
  ¬ LikeService.userId_postId userId postId x.
Proof. intros Hx. by apply list_elem_of_filter in Hx as [? _]. Qed.

Lemma getByUserAndPost_deleted (db' : DB) (ls : list Like.t) :
  likes db' = filter (λ x, ¬ LikeService.userId_postId userId postId x) ls →
  LikeService.getByUserAndPost userId postId db' = None.
Proof.
  intros Hl. unfold LikeService.getByUserAndPost. apply findUnique_None.
  rewrite Hl. intros x Hx. by apply list_elem_of_filter in Hx as [? _].
Qed.

Lemma getByUserAndPost_created (g : Gen) (ls : list Like.t) (db' : DB) :
  (∀ x, x ∈ ls → ¬ LikeService.userId_postId userId postId x) →
  likes db' = ls ++ [Like.mk (gen_id g) userId postId (gen_now g)] →
  LikeService.getByUserAndPost userId postId db'
  = Some (Like.mk (gen_id g) userId postId (gen_now g)).
Proof.
  unfold LikeService.getByUserAndPost, Prisma.findUnique.
  intros Hnone ->.
  rewrite filter_app, (filter_none _ ls Hnone), app_nil_l.
  by rewrite filter_cons_True.
Qed.

Lemma unique_likes_created (g : Gen) (db db' : DB) :
  unique_likes db →
  LikeService.getByUserAndPost userId postId db = None →
  likes db' = likes db ++ [Like.mk (gen_id g) userId postId (gen_now g)] →
  unique_likes db'.
Proof.
  unfold unique_likes. intros Hnd Hnone ->.
  rewrite fmap_app. apply NoDup_app. split_and!; [done| |apply NoDup_singleton].
  intros k Hk Hk'. apply list_elem_of_fmap in Hk as (l & -> & Hl).
  apply list_elem_of_singleton in Hk'. simplify_eq.
  by apply (proj1 (getByUserAndPost_None db) Hnone l).
Qed.

Lemma toggle_present (g : Gen) (db : DB) (l : Like.t) :
  unique_likes db →
  LikeService.getByUserAndPost userId postId db = Some l →
  LikeService.toggle userId postId g db
  = (Ok (ToggleResult.mk false None),
     mkDB (users db) (posts db) (comments db)
          (filter (λ x, ¬ LikeService.userId_postId userId postId x) (likes db))).
Proof.
  intros Huniq Hsome. unfold LikeService.toggle, bind, read, ret.
  rewrite Hsome. by rewrite (delete_present db l).
Qed.

Lemma toggle_absent (g : Gen) (db : DB) :
  LikeService.getByUserAndPost userId postId db = None →
  userExists db userId → postExists db postId →
  LikeService.toggle userId postId g db
  = (Ok (ToggleResult.mk true (Some (Like.mk (gen_id g) userId postId (gen_now g)))),
     mkDB (users db) (posts db) (comments db)
          (likes db ++ [Like.mk (gen_id g) userId postId (gen_now g)])).
Proof.
  intros Hnone Hu Hp. unfold LikeService.toggle, bind, read, ret.
  rewrite Hnone. by rewrite create_absent.
Qed.

Lemma toggle_dangling (g : Gen) (db : DB) :
  LikeService.getByUserAndPost userId postId db = None →
  ¬ (userExists db userId ∧ postExists db postId) →
  LikeService.toggle userId postId g db = (Throw (PrismaError "P2003"), db).
Proof.
  intros Hnone Hmissing. unfold LikeService.toggle, bind, read, ret.
  rewrite Hnone. by rewrite create_dangling.
Qed.

(** The three ways a [toggle] can go. *)
Lemma toggle_cases (g : Gen) (db : DB) :
  unique_likes db →
  (∃ l, LikeService.getByUserAndPost userId postId db = Some l ∧
        LikeService.toggle userId postId g db
        = (Ok (ToggleResult.mk false None),
           mkDB (users db) (posts db) (comments db)
             (filter (λ x, ¬ LikeService.userId_postId userId postId x) (likes db))))
  ∨ (LikeService.getByUserAndPost userId postId db = None ∧
     userExists db userId ∧ postExists db postId ∧
     LikeService.toggle userId postId g db
     = (Ok (ToggleResult.mk true
              (Some (Like.mk (gen_id g) userId postId (gen_now g)))),
        mkDB (users db) (posts db) (comments db)
          (likes db ++ [Like.mk (gen_id g) userId postId (gen_now g)])))
  ∨ (LikeService.getByUserAndPost userId postId db = None ∧
     ¬ (userExists db userId ∧ postExists db postId) ∧
     LikeService.toggle userId postId g db = (Throw (PrismaError "P2003"), db)).
Proof.
  intros Huniq.
  destruct (LikeService.getByUserAndPost userId postId db) as [l|] eqn:Hread.
  - left. exists l. split; [done|]. by apply (toggle_present g db l).
  - right. destruct (decide (userExists db userId ∧ postExists db postId))
      as [[Hu Hp]|Hmissing].
    + left. split_and!; try done. by apply toggle_absent.
    + right. split_and!; try done. by apply toggle_dangling.
Qed.

End Likes.

(** The uniqueness index is an invariant of [toggle]. *)
Lemma toggle_keeps_unique_likes (userId postId : string) (g : Gen) (db : DB) :
  unique_likes db → unique_likes (LikeService.toggle userId postId g db).2.
Proof.
  intros Huniq.
  destruct (toggle_cases userId postId g db Huniq)
    as [(l & Hread & ->)|[(Hread & _ & _ & ->)|(_ & _ & ->)]]; cbn.
  - unfold unique_likes in *; cbn. by apply NoDup_fmap_filter.
  - by eapply (unique_likes_created userId postId g db).
  - done.
Qed.

Lemma sampleDB_unique_likes : unique_likes sampleDB.
Proof. unfold unique_likes. by_computation. Defined.

Lemma sampleDB_references_ok : references_ok sampleDB.
Proof.
  split_and!.
  - intros p Hp. apply list_elem_of_In in Hp.
    destruct Hp as [<-|[<-|[]]]; by_computation.
  - intros c Hc. apply list_elem_of_In in Hc.
    destruct Hc as [<-|[<-|[<-|[]]]]; by_computation.
  - intros l Hl. apply list_elem_of_In in Hl.
    destruct Hl as [<-|[<-|[<-|[]]]]; by_computation.
Defined.

(** A like stands for an existing user and an existing post. *)
Lemma liked_refers (userId postId : string) (db : DB) (l : Like.t) :
  references_ok db →
  LikeService.getByUserAndPost userId postId db = Some l →
  userExists db userId ∧ postExists db postId.
Proof.
  intros (_ & _ & Hlikes) Hread.
  apply findUnique_Some in Hread as [Hl [<- <-]]. by apply Hlikes.
Qed.

(** ** C2: toggle reads, then deletes or creates *)

(** C2. For every [userId] and [postId], [toggle] branches on what
    [getByUserAndPost] reads.  If a like exists, the call returns
    [{ liked: false }] and the store afterwards holds every like but the one
    for this pair, so that like is deleted.  If none exists, [toggle]
    creates one: whenever it returns, it returns [{ liked: true, like }],
    where [like] is a new row for ([userId], [postId]) appended to the likes
    table; and it does return when the user and the post exist, which the
    foreign keys of a like require. *)
Theorem toggle_reads_then_flips (userId postId : string) (g : Gen) (db : DB) :
  unique_likes db →
  match LikeService.getByUserAndPost userId postId db with
  | Some existing =>
      ∃ db',
        LikeService.toggle userId postId g db
        = (Ok (ToggleResult.mk false None), db') ∧
        users db' = users db ∧ posts db' = posts db ∧
        comments db' = comments db ∧
        likes db'
        = filter (λ l, ¬ LikeService.userId_postId userId postId l) (likes db) ∧
        existing ∈ likes db ∧ (existing ∉ likes db') ∧
        LikeService.getByUserAndPost userId postId db' = None
  | None =>
      (userExists db userId → postExists db postId →
       ∃ r db', LikeService.toggle userId postId g db = (Ok r, db')) ∧
      (∀ r db',
         LikeService.toggle userId postId g db = (Ok r, db') →
         ∃ like,
           r = ToggleResult.mk true (Some like) ∧
           Like.userId like = userId ∧ Like.postId like = postId ∧
           users db' = users db ∧ posts db' = posts db ∧
           comments db' = comments db ∧
           likes db' = likes db ++ [like] ∧
           LikeService.getByUserAndPost userId postId db' = Some like)
  end.
Proof.
  intros Huniq.
  destruct (LikeService.getByUserAndPost userId postId db) as [l|] eqn:Hread.
  - eexists. split; [by apply (toggle_present _ _ g db l)|].
    cbn. split_and!; try done.
    + by apply findUnique_Some in Hread as [? _].
    + intros Hin. apply list_elem_of_filter in Hin as [Hnot _].
      apply Hnot. by apply findUnique_Some in Hread as [_ ?].
    + by eapply getByUserAndPost_deleted.
  - split.
    + intros Hu Hp. do 2 eexists. by apply toggle_absent.
    + intros r db' Hrun.
      destruct (toggle_cases userId postId g db Huniq)
        as [(l & Hl & _)|[(_ & _ & _ & Ht)|(_ & _ & Ht)]];
        [congruence| |congruence].
      rewrite Ht in Hrun. injection Hrun as <- <-.
      eexists. split; [done|]. cbn. split_and!; try done.
      eapply getByUserAndPost_created; [|done].
      by apply getByUserAndPost_None.
Qed.

Lemma toggle_reads_then_flips_witness :
  unique_likes sampleDB ∧
  ∃ db',
    LikeService.toggle "u1" "p1" sampleGen sampleDB
    = (Ok (ToggleResult.mk false None), db') ∧
    likes db' = [like2; like3].
Proof.
  split; [exact sampleDB_unique_likes|].
  pose proof (toggle_reads_then_flips "u1" "p1" sampleGen sampleDB
                sampleDB_unique_likes) as H.
  change (LikeService.getByUserAndPost "u1" "p1" sampleDB) with (Some like1) in H.
  destruct H as (db' & Ht & _ & _ & _ & Hl & _).
  exists db'. split; [exact Ht|]. rewrite Hl. reflexivity.
Defined.

(** ** C3: two toggles in a row *)

(** C3. For every [userId], [postId] and store in which the uniqueness
    index and the foreign keys hold, two consecutive calls of [toggle]
    leave the existence of a like for ([userId], [postId]) as it was at the
    start.  When the user and the post exist, both calls return and report
    opposite values of [liked]. *)
Theorem toggle_twice_restores_existence
    (userId postId : string) (g1 g2 : Gen) (db : DB) :
  unique_likes db → references_ok db →
  let db1 := (LikeService.toggle userId postId g1 db).2 in
  let db2 := (LikeService.toggle userId postId g2 db1).2 in
  LikeService.hasLiked userId postId db2 = LikeService.hasLiked userId postId db ∧
  (userExists db userId → postExists db postId →
   ∃ r1 r2,
     LikeService.toggle userId postId g1 db = (Ok r1, db1) ∧
     LikeService.toggle userId postId g2 db1 = (Ok r2, db2) ∧
     ToggleResult.liked r2 = negb (ToggleResult.liked r1)).
Proof.
  intros Huniq Hrefs.
  destruct (toggle_cases userId postId g1 db Huniq)
    as [(l & Hread & Ht1)|[(Hread & Hu & Hp & Ht1)|(Hread & Hmissing & Ht1)]];
    cbv zeta; rewrite Ht1; cbn [snd].
  - (* liked: deleted, then created again *)
    destruct (liked_refers userId postId db l Hrefs Hread) as [Hu Hp].
    rewrite toggle_absent; [|by eapply getByUserAndPost_deleted|done..].
    cbn [snd]. split.
    + rewrite !hasLiked_getByUserAndPost, Hread.
      erewrite getByUserAndPost_created; [|apply not_key_filtered|done].
      by rewrite !bool_decide_eq_true_2 by eauto.
    + intros _ _. by do 2 eexists.
  - (* not liked: created, then deleted *)
    erewrite (toggle_present userId postId g2).
    2:{ by eapply (unique_likes_created userId postId g1 db). }
    2:{ eapply getByUserAndPost_created; [|done]. by apply getByUserAndPost_None. }
    cbn [snd]. split.
    + rewrite !hasLiked_getByUserAndPost, Hread.
      by erewrite getByUserAndPost_deleted.
    + intros _ _. by do 2 eexists.
  - (* not liked, and the like is rejected both times *)
    rewrite (toggle_dangling userId postId g2 db) by done.
    cbn [snd]. split; [done|]. intros Hu Hp. by destruct Hmissing.
Qed.

Lemma toggle_twice_restores_existence_witness :
  unique_likes sampleDB ∧ references_ok sampleDB ∧
  LikeService.hasLiked "u3" "p1"
    (LikeService.toggle "u3" "p1" sampleGen
       (LikeService.toggle "u3" "p1" sampleGen sampleDB).2).2
  = LikeService.hasLiked "u3" "p1" sampleDB.
Proof.
  split; [exact sampleDB_unique_likes|]. split; [exact sampleDB_references_ok|].
  exact (proj1 (toggle_twice_restores_existence "u3" "p1" sampleGen sampleGen sampleDB
                  sampleDB_unique_likes sampleDB_references_ok)).
Defined.

(** Beyond the safe integers a call need not return: here the skip does
    not fit 64 bits, and the query is refused. *)
Example huge_page_is_refused :
  UserService.getAll (explicit 3000000000 4000000000) sampleDB = Throw QueryRejected.
Proof. by vm_compute. Qed.


(** ** C4: replies inherit the post of their parent *)

Lemma userById_exists (db : DB) (id : string) :
  userExists db id → ∃ a, userById db id = Some a ∧ User.id a = id.
Proof.
  intros Hex. apply list_elem_of_fmap in Hex as (u & -> & Hu).
  destruct (userById db (User.id u)) as [a|] eqn:Hfind.
  - exists a. split; [done|]. by apply findUnique_Some in Hfind as [_ ?].
  - exfalso. by apply (proj1 (findUnique_None _ _) Hfind u).
Qed.

(** In a store whose foreign keys hold, an included author is never
    missing. *)
Lemma included_author_exists (db : DB) (c : Comment.t) :
  references_ok db → c ∈ comments db →
  is_Some (CommentWithAuthor.author (withAuthor db c)).
Proof.
  intros (_ & Hcomments & _) Hc. destruct (Hcomments c Hc) as (Hu & _).
  destruct (userById_exists db (Comment.authorId c) Hu) as (a & Ha & _).
  unfold withAuthor. cbn. by rewrite Ha.
Qed.

(** What [insert] does: the row is appended when its foreign keys hold,
    and the insert is rejected otherwise. *)
Lemma insert_cases (content authorId postId : string) (parentId : option string)
    (g : Gen) (db : DB) :
  let row := Comment.mk (gen_id g) content authorId postId parentId
               (gen_now g) (gen_now g) in
  (userExists db authorId ∧ postExists db postId ∧ parentExists db parentId ∧
   CommentService.insert content authorId postId parentId g db
   = (Ok (CommentWithAuthor.mk row (userById db authorId)),
      mkDB (users db) (posts db) (comments db ++ [row]) (likes db)))
  ∨ (¬ (userExists db authorId ∧ postExists db postId ∧ parentExists db parentId) ∧
     CommentService.insert content authorId postId parentId g db
     = (Throw (PrismaError "P2003"), db)).
Proof.
  intros row. unfold CommentService.insert.
  destruct (decide _) as [(Hu & Hp & Hc)|Hmissing]; [left|right; done].
  split_and!; done.
Qed.

(** C4. For every [parentId] and payload: when no comment has id
    [parentId], [createReply] throws "Parent comment not found" and leaves
    the store as it was.  When a comment [parent] has that id, whatever
    reply the call stores is one appended comment whose [parentId] is the
    given one, whose [postId] is that of [parent] whatever [postId] the
    payload carries, and whose content and author are the payload's; and
    the call does store it when the author and the post of [parent] exist,
    which the foreign keys of a comment require. *)
Theorem createReply_inherits_post
    (parentId : string) (data : ReplyInput.t) (g : Gen) (db : DB) :
  ((∀ c, c ∈ comments db → Comment.id c ≠ parentId) →
   CommentService.createReply parentId data g db
   = (Throw (JsError "Parent comment not found"), db))
  ∧
  (∀ parent,
     unique_comment_ids db →
     parent ∈ comments db → Comment.id parent = parentId →
     (userExists db (ReplyInput.authorId data) →
      postExists db (Comment.postId parent) →
      ∃ reply db', CommentService.createReply parentId data g db = (Ok reply, db'))
     ∧
     (∀ reply db',
        CommentService.createReply parentId data g db = (Ok reply, db') →
        users db' = users db ∧ posts db' = posts db ∧ likes db' = likes db ∧
        comments db' = comments db ++ [CommentWithAuthor.comment reply] ∧
        Comment.parentId (CommentWithAuthor.comment reply) = Some parentId ∧
        Comment.postId (CommentWithAuthor.comment reply) = Comment.postId parent ∧
        Comment.content (CommentWithAuthor.comment reply) = ReplyInput.content data ∧
        Comment.authorId (CommentWithAuthor.comment reply) = ReplyInput.authorId data ∧
        ∃ author, CommentWithAuthor.author reply = Some author ∧
                  User.id author = ReplyInput.authorId data)).
Proof.
  unfold CommentService.createReply, bind, read, throw.
  split.
  - intros Hnone.
    assert (Prisma.findUnique (λ c, Comment.id c = parentId) (comments db) = None)
      as -> by by apply findUnique_None.
    done.
  - intros parent Huniq Hin Hid.
    destruct (Prisma.findUnique (λ c, Comment.id c = parentId) (comments db))
      as [found|] eqn:Hfind.
    2:{ exfalso. by apply (proj1 (findUnique_None _ _) Hfind parent). }
    apply findUnique_Some in Hfind as [Hfin Hfid].
    assert (found = parent) as ->.
    { apply (NoDup_fmap_eq Comment.id (comments db)); [done..|congruence]. }
    cbn.
    destruct (insert_cases (ReplyInput.content data) (ReplyInput.authorId data)
                (Comment.postId parent) (Some parentId) g db)
      as [(Hu & Hp & Hc & ->)|(Hmissing & ->)].
    + split; [by do 2 eexists|].
      intros reply db' [= <- <-]. cbn. split_and!; try done.
      by apply userById_exists.
    + split; [|done]. intros Hu Hp. exfalso. apply Hmissing. split_and!; try done.
      cbn. unfold commentExists. rewrite <- Hid. by apply list_elem_of_fmap_2.
Qed.

Lemma sampleDB_unique_comment_ids : unique_comment_ids sampleDB.
Proof. unfold unique_comment_ids. by_computation. Defined.

Lemma createReply_inherits_post_witness :
  unique_comment_ids sampleDB ∧ comment1 ∈ comments sampleDB ∧
  userExists sampleDB "u1" ∧ postExists sampleDB "p1" ∧
  ∃ reply db',
    CommentService.createReply "c1"
      (ReplyInput.mk "Thanks" "u1" "p2") sampleGen sampleDB = (Ok reply, db') ∧
    Comment.postId (CommentWithAuthor.comment reply) = "p1".
Proof.
  assert (comment1 ∈ comments sampleDB) as Hin by left.
  assert (userExists sampleDB "u1") as Hu by by_computation.
  assert (postExists sampleDB "p1") as Hp by by_computation.
  split; [exact sampleDB_unique_comment_ids|]. split; [exact Hin|].
  split; [exact Hu|]. split; [exact Hp|].
  destruct (proj2 (createReply_inherits_post "c1"
                     (ReplyInput.mk "Thanks" "u1" "p2") sampleGen sampleDB)
              comment1 sampleDB_unique_comment_ids Hin eq_refl)
    as [Hruns Hstored].
  destruct (Hruns Hu Hp) as (reply & db' & Hrun).
  exists reply, db'. split; [exact Hrun|].
  exact (proj1 (proj2 (proj2 (proj2 (proj2 (proj2 (Hstored reply db' Hrun))))))).
Defined.

(** ** C5: the batch queries answer for every requested id *)

Section FoldInsert.
Context {V : Type}.

Lemma foldl_insert_const (v : V) (ids : list string) (m : gmap string V) (k : string) :
  foldl (λ m id, <[id := v]> m) m ids !! k
  = if decide (k ∈ ids) then Some v else m !! k.
Proof.
  revert m. induction ids as [|a ids IH]; intros m; cbn.
  - rewrite decide_False; [done|]. apply not_elem_of_nil.
  - rewrite IH. destruct (decide (k ∈ ids)) as [Hin|Hnin].
    + rewrite decide_True; [done|]. by right.
    + destruct (decide (k = a)) as [->|Hne].
      * rewrite decide_True by left. apply lookup_insert_eq.
      * rewrite decide_False by (rewrite elem_of_cons; tauto).
        by apply lookup_insert_ne.
Qed.

Lemma foldl_insert_pairs_notin (kvs : list (string * V)) (m : gmap string V) (k : string) :
  k ∉ kvs.*1 →
  foldl (λ m c, <[c.1 := c.2]> m) m kvs !! k = m !! k.
Proof.
  revert m. induction kvs as [|[a v] kvs IH]; intros m Hk; cbn; [done|].
  rewrite fmap_cons, not_elem_of_cons in Hk. destruct Hk as [Hne Hk].
  rewrite IH by done. cbn in Hne. by apply lookup_insert_ne.
Qed.

Lemma foldl_insert_pairs_in (kvs : list (string * V)) (m : gmap string V)
    (k : string) (v : V) :
  NoDup kvs.*1 → (k, v) ∈ kvs →
  foldl (λ m c, <[c.1 := c.2]> m) m kvs !! k = Some v.
Proof.
  revert m. induction kvs as [|[a w] kvs IH]; intros m Hnd Hin; cbn.
  - by apply elem_of_nil in Hin.
  - rewrite fmap_cons in Hnd. apply NoDup_cons in Hnd as [Ha Hnd].
    apply elem_of_cons in Hin as [Heq|Hin].
    + simplify_eq. rewrite foldl_insert_pairs_notin by done.
      apply lookup_insert_eq.
    + by apply IH.
Qed.

End FoldInsert.

Lemma groupByPostId_keys (where_ : Like.t → Prop) `{∀ x, Decision (where_ x)}
    (rows : list Like.t) :
  (LikeService.groupByPostId where_ rows).*1
  = remove_dups (Like.postId <$> filter where_ rows).
Proof.
  unfold LikeService.groupByPostId.
  rewrite <- list_fmap_compose. apply list_fmap_id.
Qed.

Lemma countByPosts_lookup (postIds : list string) (db : DB) (id : string) :
  LikeService.countByPosts postIds db !! id
  = if decide (id ∈ postIds)
    then Some (Prisma.count (λ l, Like.postId l = id) (likes db))
    else None.
Proof.
  unfold LikeService.countByPosts.
  set (selected := filter (λ l, Like.postId l ∈ postIds) (likes db)).
  destruct (decide (id ∈ Like.postId <$> selected)) as [Hkey|Hkey].
  - (* some selected row carries this id *)
    assert (id ∈ postIds) as Hreq.
    { apply list_elem_of_fmap in Hkey as (l & -> & Hl).
      by apply list_elem_of_filter in Hl as [? _]. }
    rewrite decide_True by done.
    rewrite (foldl_insert_pairs_in _ _ id
               (Prisma.count (λ l, Like.postId l = id) selected)).
    + unfold Prisma.count. do 3 f_equal.
      subst selected. rewrite list_filter_filter.
      apply list_filter_iff. intros l. split; [tauto|].
      intros ->. done.
    + rewrite groupByPostId_keys. apply NoDup_remove_dups.
    + unfold LikeService.groupByPostId. fold selected.
      apply list_elem_of_fmap. exists id. split; [done|].
      by apply elem_of_remove_dups.
  - (* no selected row carries this id *)
    rewrite foldl_insert_pairs_notin.
    2:{ rewrite groupByPostId_keys. fold selected.
        by rewrite elem_of_remove_dups. }
    rewrite foldl_insert_const, lookup_empty.
    destruct (decide (id ∈ postIds)) as [Hreq|Hreq]; [|done].
    f_equal. unfold Prisma.count.
    rewrite filter_none; [done|].
    intros l Hl Hid. apply Hkey. subst selected.
    apply list_elem_of_fmap. exists l. split; [done|].
    apply list_elem_of_filter. by rewrite Hid.
Qed.

Lemma hasLikedPosts_lookup (userId : string) (postIds : list string) (db : DB)
    (id : string) :
  LikeService.hasLikedPosts userId postIds db !! id
  = if decide (id ∈ postIds)
    then Some (bool_decide
                 (Exists (LikeService.userId_postId userId id) (likes db)))
    else None.
Proof.
  unfold LikeService.hasLikedPosts, Prisma.rowsWhere, Prisma.ordered.
  rewrite !foldl_insert_const, lookup_empty.
  set (liked := Like.postId <$> filter _ (likes db)).
  assert (id ∈ liked ↔
          id ∈ postIds ∧ Exists (LikeService.userId_postId userId id) (likes db))
    as Hliked.
  { subst liked. rewrite list_elem_of_fmap, Exists_exists. split.
    - intros (l & -> & Hl). apply list_elem_of_filter in Hl as [[Hu Hp] Hl].
      split; [done|]. by exists l.
    - intros (Hreq & l & Hl & Hu & Hp). exists l. split; [done|].
      apply list_elem_of_filter. rewrite Hp. done. }
  destruct (decide (id ∈ liked)) as [Hin|Hnin].
  - apply Hliked in Hin as [Hreq Hex].
    rewrite decide_True by done. by rewrite bool_decide_eq_true_2.
  - destruct (decide (id ∈ postIds)) as [Hreq|Hreq]; [|done].
    rewrite bool_decide_eq_false_2; [done|]. intros Hex. apply Hnin.
    by apply Hliked.
Qed.

(** C5. For every [userId], list [postIds] and store, the maps returned by
    [countByPosts] and [hasLikedPosts] have an entry exactly for the
    requested ids.  A requested id maps to the number of likes of that post,
    respectively to whether [userId] likes it; so an id without matching
    rows maps to 0, respectively to [false]. *)
Theorem batch_queries_cover_requested_ids
    (userId : string) (postIds : list string) (db : DB) (id : string) :
  (id ∈ postIds →
     LikeService.countByPosts postIds db !! id
     = Some (Z.of_nat (length (filter (λ l, Like.postId l = id) (likes db)))) ∧
     LikeService.hasLikedPosts userId postIds db !! id
     = Some (bool_decide
               (Exists (λ l, Like.userId l = userId ∧ Like.postId l = id) (likes db))) ∧
     ((∀ l, l ∈ likes db → Like.postId l ≠ id) →
        LikeService.countByPosts postIds db !! id = Some 0) ∧
     ((∀ l, l ∈ likes db → ¬ (Like.userId l = userId ∧ Like.postId l = id)) →
        LikeService.hasLikedPosts userId postIds db !! id = Some false))
  ∧
  (id ∉ postIds →
     LikeService.countByPosts postIds db !! id = None ∧
     LikeService.hasLikedPosts userId postIds db !! id = None).
Proof.
  rewrite countByPosts_lookup, hasLikedPosts_lookup.
  split; intros Hreq.
  - rewrite !decide_True by done. split_and!; try done.
    + intros Hnone. unfold Prisma.count. by rewrite filter_none.
    + intros Hnone. rewrite bool_decide_eq_false_2; [done|].
      rewrite Exists_exists. intros (l & Hl & Hkey). by apply (Hnone l).
  - by rewrite !decide_False by done.
Qed.

Lemma batch_queries_cover_requested_ids_witness :
  "p3" ∈ ["p1"; "p3"] ∧
  LikeService.countByPosts ["p1"; "p3"] sampleDB !! "p3" = Some 0 ∧
  LikeService.countByPosts ["p1"; "p3"] sampleDB !! "p1" = Some 2.
Proof.
  assert ("p3" ∈ ["p1"; "p3"]) as H3 by (right; left).
  assert ("p1" ∈ ["p1"; "p3"]) as H1 by left.
  split; [exact H3|]. split.
  - exact (proj1 (proj1 (batch_queries_cover_requested_ids
                           "u1" ["p1"; "p3"] sampleDB "p3") H3)).
  - exact (proj1 (proj1 (batch_queries_cover_requested_ids
                           "u1" ["p1"; "p3"] sampleDB "p1") H1)).
Defined.

(** ** C6: conflicts when a user is created *)

Lemma truthy_Some (s : string) : s ≠ "" → truthy (Some s) = true.
Proof. intros Hs. unfold truthy. by apply negb_true_iff, String.eqb_neq. Qed.

Lemma emailExists_true (e : string) (db : DB) :
  UserService.emailExists e db = true ↔ ∃ x, x ∈ users db ∧ User.email x = e.
Proof.
  unfold UserService.emailExists.
  by rewrite bool_decide_eq_true, findUnique_is_Some.
Qed.

Lemma usernameExists_true (u : string) (db : DB) :
  UserService.usernameExists u db = true
  ↔ ∃ x, x ∈ users db ∧ User.username x = u.
Proof.
  unfold UserService.usernameExists.
  by rewrite bool_decide_eq_true, findUnique_is_Some.
Qed.

(** The handler on a body that passes validation. *)
Lemma create_validated (body : CreateUserInput.t) (e u : string) (g : Gen) (db : DB) :
  CreateUserInput.email body = Some e →
  CreateUserInput.username body = Some u →
  e ≠ "" → u ≠ "" →
  userHandlers.create (Request.mk (Ok body)) g db
  = if UserService.emailExists e db
    then (jsonResponse (Failure "Email already in use") (Some 409), db)
    else if UserService.usernameExists u db
    then (jsonResponse (Failure "Username already taken") (Some 409), db)
    else
      (jsonResponse (Success (UserService.newUser body e u g)) (Some 201),
       mkDB (users db ++ [UserService.newUser body e u g])
            (posts db) (comments db) (likes db)).
Proof.
  intros He Hu Hene Hune.
  unfold userHandlers.create, try_catch, bind, readE, read, ret. cbn.
  rewrite He, Hu, !truthy_Some by done. cbn.
  destruct (UserService.emailExists e db) eqn:Hemail; [done|].
  destruct (UserService.usernameExists u db) eqn:Huser; [done|].
  unfold UserService.create. rewrite He, Hu.
  rewrite decide_False; [done|].
  rewrite Exists_exists. intros (x & Hx & [Hxe|Hxu]).
  - apply not_true_iff_false in Hemail. apply Hemail, emailExists_true. eauto.
  - apply not_true_iff_false in Huser. apply Huser, usernameExists_true. eauto.
Qed.

(** The handler on a body that lacks a field. *)
Lemma create_unvalidated (body : CreateUserInput.t) (g : Gen) (db : DB) :
  truthy (CreateUserInput.email body) = false
  ∨ truthy (CreateUserInput.username body) = false →
  userHandlers.create (Request.mk (Ok body)) g db
  = (jsonResponse (Failure "Email and username are required") (Some 400), db).
Proof.
  intros Hmissing.
  unfold userHandlers.create, try_catch, bind, readE, read, ret. cbn -[truthy].
  by destruct Hmissing as [-> | ->]; rewrite ?orb_true_r.
Qed.

(** C6, as the code has it.  A request whose email or username is missing
    or empty is answered 400 before any lookup.  For every request whose
    body carries a non-empty email and a non-empty username: if the email
    belongs to an existing user the response is 409 "Email already in use";
    if the email is free and the username belongs to an existing user the
    response is 409 "Username already taken"; in both cases the store is
    unchanged, the service [create] not being reached.  If both are free
    the user is inserted and the response is 201. *)
Theorem create_user_conflicts (body : CreateUserInput.t) (g : Gen) (db : DB) :
  let request := Request.mk (Ok body) in
  (truthy (CreateUserInput.email body) = false
   ∨ truthy (CreateUserInput.username body) = false →
   userHandlers.create request g db
   = (jsonResponse (Failure "Email and username are required") (Some 400), db))
  ∧
  (∀ e u,
     CreateUserInput.email body = Some e →
     CreateUserInput.username body = Some u →
     e ≠ "" → u ≠ "" →
     ((∃ x, x ∈ users db ∧ User.email x = e) →
      userHandlers.create request g db
      = (jsonResponse (Failure "Email already in use") (Some 409), db))
     ∧
     ((∀ x, x ∈ users db → User.email x ≠ e) →
      (∃ x, x ∈ users db ∧ User.username x = u) →
      userHandlers.create request g db
      = (jsonResponse (Failure "Username already taken") (Some 409), db))
     ∧
     ((∀ x, x ∈ users db → User.email x ≠ e) →
      (∀ x, x ∈ users db → User.username x ≠ u) →
      ∃ user,
        userHandlers.create request g db
        = (jsonResponse (Success user) (Some 201),
           mkDB (users db ++ [user]) (posts db) (comments db) (likes db)) ∧
        User.email user = e ∧ User.username user = u)).
Proof.
  intros request. split; [apply create_unvalidated|].
  intros e u He Hu Hene Hune. subst request.
  rewrite (create_validated body e u) by done.
  assert (∀ v, (∀ x, x ∈ users db → User.email x ≠ v) →
               UserService.emailExists v db = false) as Hfree_e.
  { intros v Hv. apply not_true_iff_false. rewrite emailExists_true.
    intros (x & Hx & Hxe). by apply (Hv x). }
  assert (∀ v, (∀ x, x ∈ users db → User.username x ≠ v) →
               UserService.usernameExists v db = false) as Hfree_u.
  { intros v Hv. apply not_true_iff_false. rewrite usernameExists_true.
    intros (x & Hx & Hxu). by apply (Hv x). }
  split_and!.
  - intros Hex. apply emailExists_true in Hex. by rewrite Hex.
  - intros Hfree Hex. apply usernameExists_true in Hex.
    by rewrite Hfree_e, Hex.
  - intros Hfe Hfu. rewrite Hfree_e, Hfree_u by done.
    by eexists.
Qed.

Lemma create_user_conflicts_witness :
  (∃ x, x ∈ users sampleDB ∧ User.email x = "a@x.com") ∧
  userHandlers.create (Request.mk (Ok taken_email_and_username)) sampleGen sampleDB
  = (jsonResponse (Failure "Email already in use") (Some 409), sampleDB) ∧
  userHandlers.create (Request.mk (Ok taken_email_no_username)) sampleGen sampleDB
  = (jsonResponse (Failure "Email and username are required") (Some 400), sampleDB).
Proof.
  assert (∃ x, x ∈ users sampleDB ∧ User.email x = "a@x.com") as Hex.
  { exists alice. split; [left|reflexivity]. }
  split; [exact Hex|]. split.
  - apply (proj2 (create_user_conflicts taken_email_and_username sampleGen sampleDB)
             "a@x.com" "b"); [reflexivity|reflexivity|discriminate|discriminate|exact Hex].
  - apply (proj1 (create_user_conflicts taken_email_no_username sampleGen sampleDB)).
    right. reflexivity.
Defined.

(** C6 as stated fails.  The email of the first request belongs to an
    existing user, yet the response is 400, because the username is
    missing.  The username of the second request belongs to an existing
    user, yet the error is "Email already in use", because the email is
    checked first. *)
Lemma create_user_conflict_is_not_always_reported :
  UserService.emailExists "a@x.com" sampleDB = true ∧
  userHandlers.create (Request.mk (Ok taken_email_no_username)) sampleGen sampleDB
  = (jsonResponse (Failure "Email and username are required") (Some 400), sampleDB) ∧
  UserService.usernameExists "b" sampleDB = true ∧
  userHandlers.create (Request.mk (Ok taken_email_and_username)) sampleGen sampleDB
  ≠ (jsonResponse (Failure "Username already taken") (Some 409), sampleDB).
Proof. split_and!; [by vm_compute..|]. vm_compute. discriminate. Qed.

(** ** C8: the like handler *)

Lemma hasLiked_true (userId postId : string) (db : DB) :
  LikeService.hasLiked userId postId db = true
  ↔ ∃ l, l ∈ likes db ∧ Like.userId l = userId ∧ Like.postId l = postId.
Proof.
  rewrite hasLiked_getByUserAndPost, bool_decide_eq_true.
  apply getByUserAndPost_exists.
Qed.

Lemma hasLiked_false (userId postId : string) (db : DB) :
  LikeService.hasLiked userId postId db = false
  ↔ LikeService.getByUserAndPost userId postId db = None.
Proof.
  rewrite hasLiked_getByUserAndPost, bool_decide_eq_false.
  by rewrite eq_None_not_Some.
Qed.

(** C8, as the code has it.  A request whose [userId] is missing or empty
    is answered 400 and creates nothing.  For every non-empty [userId] and
    every [postId]: if a like for the pair exists the response is 409 "Post
    already liked" and the store is unchanged; if none exists and the user
    and the post exist, a like for the pair is appended to the likes table
    and the response is 201 with that like; if none exists and the user or
    the post does not exist, the store rejects the like, the response is
    500 and nothing is created. *)
Theorem like_conflicts_when_already_liked
    (userId : option string) (postId : string) (g : Gen) (db : DB) :
  let request := Request.mk (Ok (likeHandlers.LikeBody.mk userId)) in
  (truthy userId = false →
   likeHandlers.like postId request g db
   = (jsonResponse (Failure "userId is required") (Some 400), db))
  ∧
  (∀ u, userId = Some u → u ≠ "" →
     ((∃ l, l ∈ likes db ∧ Like.userId l = u ∧ Like.postId l = postId) →
      likeHandlers.like postId request g db
      = (jsonResponse (Failure "Post already liked") (Some 409), db))
     ∧
     ((∀ l, l ∈ likes db → ¬ (Like.userId l = u ∧ Like.postId l = postId)) →
      userExists db u → postExists db postId →
      ∃ like,
        likeHandlers.like postId request g db
        = (jsonResponse (Success like) (Some 201),
           mkDB (users db) (posts db) (comments db) (likes db ++ [like])) ∧
        Like.userId like = u ∧ Like.postId like = postId)
     ∧
     ((∀ l, l ∈ likes db → ¬ (Like.userId l = u ∧ Like.postId l = postId)) →
      ¬ (userExists db u ∧ postExists db postId) →
      likeHandlers.like postId request g db
      = (jsonResponse (Failure "Failed to like post") (Some 500), db))).
Proof.
  intros request. subst request.
  unfold likeHandlers.like, try_catch, bind, readE, read, ret. cbn -[truthy].
  split.
  - by intros ->.
  - intros u -> Hne. rewrite truthy_Some by done. cbn.
    split_and!.
    + intros Hex. apply hasLiked_true in Hex. by rewrite Hex.
    + intros Hnone Hu Hp.
      assert (LikeService.getByUserAndPost u postId db = None) as Hread
        by by apply getByUserAndPost_None.
      rewrite (proj2 (hasLiked_false u postId db) Hread).
      rewrite create_absent by done. by eexists.
    + intros Hnone Hmissing.
      assert (LikeService.getByUserAndPost u postId db = None) as Hread
        by by apply getByUserAndPost_None.
      rewrite (proj2 (hasLiked_false u postId db) Hread).
      by rewrite create_dangling.
Qed.

Lemma like_conflicts_when_already_liked_witness :
  "u1" ≠ "" ∧
  likeHandlers.like "p1"
    (Request.mk (Ok (likeHandlers.LikeBody.mk (Some "u1")))) sampleGen sampleDB
  = (jsonResponse (Failure "Post already liked") (Some 409), sampleDB) ∧
  likeHandlers.like "p1" (Request.mk (Ok empty_userId)) sampleGen sampleDB
  = (jsonResponse (Failure "userId is required") (Some 400), sampleDB).
Proof.
  assert ("u1" ≠ "") as Hne by discriminate.
  split; [exact Hne|]. split.
  - apply (proj2 (like_conflicts_when_already_liked (Some "u1") "p1" sampleGen sampleDB)
             "u1" eq_refl Hne).
    exists like1. split; [left|split; reflexivity].
  - apply (proj1 (like_conflicts_when_already_liked (Some "") "p1" sampleGen sampleDB)).
    reflexivity.
Defined.

(** C8 as stated fails.  At the empty [userId] no like exists, yet the
    handler answers 400 and creates nothing.  For a [userId] that no user
    has, no like exists either, yet the store rejects the like: the handler
    answers 500 and creates nothing. *)
Lemma like_with_empty_userId_is_rejected :
  LikeService.hasLiked "" "p1" sampleDB = false ∧
  likeHandlers.like "p1" (Request.mk (Ok empty_userId)) sampleGen sampleDB
  = (jsonResponse (Failure "userId is required") (Some 400), sampleDB) ∧
  LikeService.hasLiked "nobody" "p1" sampleDB = false ∧
  likeHandlers.like "p1"
    (Request.mk (Ok (likeHandlers.LikeBody.mk (Some "nobody")))) sampleGen sampleDB
  = (jsonResponse (Failure "Failed to like post") (Some 500), sampleDB).
Proof. split_and!; by vm_compute. Qed.

(** ** C9: the feed *)

(** C9. For every pagination argument [params], given or omitted, and
    every store, [getFeed(params)] returns what
    [getAll(params, { published: true })] returns. *)
Theorem getFeed_is_getAll_published (params : option PaginationParams.t) (db : DB) :
  PostService.getFeed params db
  = PostService.getAll params (Some (PostFilters.mk None (Some true) None)) db.
Proof. unfold PostService.getFeed. by destruct params. Qed.

(** ** C10: authorship of a missing post or comment *)

(** C10. For every [userId]: if no post has id [postId], the post
    [isAuthor] returns [false]; if no comment has id [commentId], the
    comment [isAuthor] returns [false].  Neither raises. *)
Theorem isAuthor_of_missing_is_false (id userId : string) (db : DB) :
  ((∀ p, p ∈ posts db → Post.id p ≠ id) →
   PostService.isAuthor id userId db = false)
  ∧
  ((∀ c, c ∈ comments db → Comment.id c ≠ id) →
   CommentService.isAuthor id userId db = false).
Proof.
  split; intros Hmissing.
  - unfold PostService.isAuthor.
    assert (Prisma.findUnique (λ p, Post.id p = id) (posts db) = None) as ->
      by by apply findUnique_None.
    done.
  - unfold CommentService.isAuthor.
    assert (Prisma.findUnique (λ c, Comment.id c = id) (comments db) = None) as ->
      by by apply findUnique_None.
    done.
Qed.

Lemma isAuthor_of_missing_is_false_witness :
  (∀ p, p ∈ posts sampleDB → Post.id p ≠ "nope") ∧
  PostService.isAuthor "nope" "u1" sampleDB = false.
Proof.
  assert (∀ p, p ∈ posts sampleDB → Post.id p ≠ "nope") as Hmissing.
  { intros p Hp. apply list_elem_of_In in Hp.
    destruct Hp as [<-|[<-|[]]]; discriminate. }
  split; [exact Hmissing|].
  exact (proj1 (isAuthor_of_missing_is_false "nope" "u1" sampleDB) Hmissing).
Defined.

(** ** C7: orderings *)

Section Orderings.
Context {A : Type} (createdAt : A → Z).

Lemma Sorted_take_drop (R : relation A) `{!Transitive R} (l : list A) (s n : nat) :
  Sorted R l → Sorted R (take n (drop s l)).
Proof.
  intros Hl. apply Sorted_StronglySorted in Hl; [|done].
  apply StronglySorted_Sorted.
  rewrite <- (take_drop s l) in Hl. apply StronglySorted_app_1_r in Hl.
  rewrite <- (take_drop n (drop s l)) in Hl.
  by apply StronglySorted_app_1_l in Hl.
Qed.

Lemma desc_transitive : Transitive (λ a b : A, createdAt b ≤ createdAt a).
Proof. intros a b c. lia. Qed.

(** A page of a newest-first query is newest first. *)
Lemma findMany_desc_newest_first (where_ : A → Prop) `{∀ x, Decision (where_ x)}
    (skip n : Z) (rows l : list A) :
  0 ≤ n →
  Prisma.findMany createdAt where_ (Some desc) skip (Some n) rows = Ok l →
  newest_first createdAt l.
Proof.
  intros Hn Hfind. apply findMany_Ok in Hfind as [_ ->]; [|done].
  unfold newest_first.
  apply (Sorted_take_drop _ (Transitive0 := desc_transitive)).
  apply (rowsWhere_desc createdAt where_ rows).
Qed.

End Orderings.

Lemma replyTimes_withReplies (db : DB) (o : option SortOrder) (c : Comment.t) :
  replyTimes (withReplies db o c)
  = Comment.createdAt <$>
      Prisma.rowsWhere Comment.createdAt
        (λ r, Comment.parentId r = Some (Comment.id c)) o (comments db).
Proof.
  unfold replyTimes, withReplies, repliesOf; cbn.
  rewrite <- list_fmap_compose. done.
Qed.

Lemma replies_asc_sorted (db : DB) (c : Comment.t) :
  Sorted Z.le (replyTimes (withReplies db (Some asc) c)).
Proof.
  rewrite replyTimes_withReplies.
  apply (Sorted_fmap _ (λ a b, Comment.createdAt a ≤ Comment.createdAt b) Z.le);
    [done|].
  apply (rowsWhere_asc Comment.createdAt).
Qed.

(** The part of C7 that the comment service meets: the replies returned by
    the comment [getById] and by [getByPost] are oldest first. *)
Lemma comment_replies_oldest_first (db : DB) :
  (∀ id c, CommentService.getById id db = Some c → Sorted Z.le (replyTimes c))
  ∧
  (∀ postId params r c,
     CommentService.getByPost postId params db = Ok r →
     c ∈ PaginatedResponse.data r → Sorted Z.le (replyTimes c)).
Proof.
  split.
  - intros id c. unfold CommentService.getById.
    destruct (Prisma.findUnique _ _) as [row|]; [|done].
    intros [= <-]. apply replies_asc_sorted.
  - intros postId params r c. unfold CommentService.getByPost.
    destruct (Prisma.findMany _ _ _ _ _ _) as [cs|]; [|done].
    intros [= <-]. cbn. intros Hc.
    apply list_elem_of_fmap in Hc as (row & -> & _).
    apply replies_asc_sorted.
Qed.

(** C7 at the hydrated post view.  In [sampleDB] the later reply to
    comment "c1" is stored before the earlier one.  The post [getById]
    returns the replies in that storage order, newest first, where the
    comment [getById] returns them oldest first. *)
Theorem post_getById_replies_in_storage_order :
  (λ p, replyTimes <$> PostFull.comments p) <$> PostService.getById "p1" sampleDB
  = Some [[40; 30]]
  ∧ replyTimes <$> CommentService.getById "c1" sampleDB = Some [30; 40].
Proof. split; by vm_compute. Qed.

Lemma storage_order_not_oldest_first : ¬ Sorted Z.le [40; 30].
Proof.
  intros Hs. apply Sorted_inv in Hs as [_ Hhd].
  apply HdRel_inv in Hhd. lia.
Qed.

(** * Further properties *)

(** ** Pages of the list operations *)

(** The query of a page is accepted when its arguments are safe integers. *)
Lemma accepted_safe (page limit : Z) :
  0 < page → 0 < limit → page * limit ≤ MAX_SAFE_INTEGER →
  accepted ((page - 1) * limit) limit.
Proof.
  intros Hp Hl Hsafe. destruct (int64_safe page limit) as [Hs Hn]; [done..|].
  unfold accepted, Prisma.int64_opt, Prisma.int64. lia.
Qed.

Lemma list_operation_paged (db : DB) (A : Type)
    (op : option PaginationParams.t → Exc (PaginatedResponse.t A)) (all : list A)
    (page limit : Z) :
  list_operation db A op all →
  0 ≤ limit →
  op (explicit page limit)
  = if decide (accepted ((page - 1) * limit) limit)
    then Ok (paginated
               (take (Z.to_nat limit) (drop (Z.to_nat ((page - 1) * limit)) all))
               (Z.of_nat (length all)) page limit)
    else Throw QueryRejected.
Proof.
  intros Hop Hl.
  assert (∀ (B : Type) (createdAt : B → Z) (where_ : B → Prop)
            `{∀ x, Decision (where_ x)} (rows : list B),
            Prisma.findMany createdAt where_ (Some desc) ((page - 1) * limit)
              (Some limit) rows
            = if decide (accepted ((page - 1) * limit) limit)
              then Ok (take (Z.to_nat limit)
                         (drop (Z.to_nat ((page - 1) * limit))
                            (Prisma.rowsWhere createdAt where_ (Some desc) rows)))
              else Throw QueryRejected)
    as Hfind.
  { intros B createdAt where_ ? rows.
    unfold Prisma.findMany, Prisma.window, Prisma.rowsWhere, accepted.
    destruct (decide _); [|done].
    by rewrite decide_True by done. }
  destruct Hop;
    unfold UserService.getAll, PostService.getByAuthor, PostService.getFeed,
      PostService.getAll, CommentService.getByPost, CommentService.getByAuthor,
      LikeService.getByPost, LikeService.getByUser, explicit,
      usersAll, postsAll, commentsOfPost, commentsOfAuthor, likesOfPost, likesOfUser;
    cbn -[Prisma.rowsWhere Prisma.count Prisma.findMany]; rewrite Hfind;
    destruct (decide _); try done;
    rewrite ?(count_rowsWhere User.createdAt _ (Some desc)),
      ?(count_rowsWhere Post.createdAt _ (Some desc)),
      ?(count_rowsWhere Comment.createdAt _ (Some desc)),
      ?(count_rowsWhere Like.createdAt _ (Some desc)),
      ?length_fmap, ?fmap_take, ?fmap_drop;
    done.
Qed.

Lemma is_page_length {A} (all : list A) (page limit : Z) (r : PaginatedResponse.t A) :
  0 < page → 0 < limit → is_page all page limit r →
  Z.of_nat (length (PaginatedResponse.data r))
  = Z.min limit (Z.max 0 (Z.of_nat (length all) - (page - 1) * limit)).
Proof.
  intros Hp Hl (_ & _ & _ & _ & _ & Hlen & Hdata).
  set (off := (page - 1) * limit) in *.
  assert (0 ≤ off) as Hoff by (subst off; nia).
  set (data := PaginatedResponse.data r) in *.
  set (n := Z.of_nat (length all)) in *.
  destruct (decide (n ≤ off)) as [Hpast|Hin].
  - (* past the last row *)
    assert (data !! 0%nat = None) as Hnone.
    { rewrite Hdata by lia. apply lookup_ge_None. lia. }
    apply lookup_ge_None in Hnone. lia.
  - destruct (decide (off + limit ≤ n)) as [Hfull|Hpart].
    + assert (is_Some (data !! Z.to_nat (limit - 1))) as Hsome.
      { rewrite Hdata by lia. apply lookup_lt_is_Some. lia. }
      apply lookup_lt_is_Some in Hsome. lia.
    + assert (is_Some (data !! Z.to_nat (n - off - 1))) as Hsome.
      { rewrite Hdata by lia. apply lookup_lt_is_Some. lia. }
      apply lookup_lt_is_Some in Hsome.
      assert (data !! Z.to_nat (n - off) = None) as Hnone.
      { rewrite Hdata by lia. apply lookup_ge_None. lia. }
      apply lookup_ge_None in Hnone. lia.
Qed.

Lemma is_page_position {A} (all : list A) (page limit : Z) (r : PaginatedResponse.t A) :
  0 < page → 0 < limit → is_page all page limit r → page_position page limit r.
Proof.
  intros Hp Hl Hpage. pose proof (is_page_length all page limit r Hp Hl Hpage) as Hlen.
  destruct Hpage as (Htot & _ & _ & Hceil & Hmore & _ & _).
  unfold page_position. cbn zeta.
  set (tp := Meta.totalPages (PaginatedResponse.meta r)) in *.
  set (total := Meta.total (PaginatedResponse.meta r)) in *.
  rewrite <- Htot in Hlen.
  assert (0 ≤ total) as Htotal by lia.
  split_and!.
  - nia.
  - split; intros; nia.
  - rewrite Hmore. split; intros; nia.
  - intros Hlt. nia.
  - intros ->. nia.
  - intros Hlt. apply length_zero_iff_nil. nia.
Qed.

(** X1. For every list operation and positive [page] and [limit] with
    [page * limit] a safe integer, the call succeeds and its meta places
    the page in the whole: [totalPages] is 0 exactly when nothing matches;
    [hasMore] holds exactly on the pages before page [totalPages]; each of
    those pages is full; page [totalPages] holds the remaining rows, at
    least one; a later page is empty, not an error. *)
Theorem pages_know_their_position (db : DB) (A : Type)
    (op : option PaginationParams.t → Exc (PaginatedResponse.t A)) (all : list A)
    (page limit : Z) :
  list_operation db A op all →
  0 < page → 0 < limit → page * limit ≤ MAX_SAFE_INTEGER →
  ∃ r, op (explicit page limit) = Ok r ∧ page_position page limit r.
Proof.
  intros Hop Hp Hl Hsafe.
  rewrite (list_operation_paged db A op all) by (done || lia).
  rewrite decide_True by by apply accepted_safe.
  eexists. split; [done|].
  apply (is_page_position all); [done..|].
  by apply paginated_rows_is_page.
Qed.

Lemma pages_know_their_position_witness :
  list_operation sampleDB User.t (λ ps, UserService.getAll ps sampleDB)
    (usersAll sampleDB) ∧ 0 < 2 ∧ 0 < 2 ∧ 2 * 2 ≤ MAX_SAFE_INTEGER ∧
  ∃ r, UserService.getAll (explicit 2 2) sampleDB = Ok r ∧ page_position 2 2 r.
Proof.
  split; [constructor|]. split; [lia|]. split; [lia|]. split; [by vm_compute|].
  exact (pages_know_their_position sampleDB User.t
           (λ ps, UserService.getAll ps sampleDB) (usersAll sampleDB) 2 2
           (users_getAll sampleDB) ltac:(lia) ltac:(lia) ltac:(by vm_compute)).
Defined.

Lemma chunks_join {A} (l : list A) (limit n : nat) :
  (length l ≤ n * limit)%nat →
  mjoin ((λ k : nat, take limit (drop (k * limit) l)) <$> seq 0 n) = l.
Proof.
  revert l. induction n as [|n IH]; intros l Hlen.
  - cbn. symmetry. apply length_zero_iff_nil. lia.
  - cbn [seq]. rewrite fmap_cons, <- fmap_S_seq, <- list_fmap_compose.
    cbn.
    rewrite (list_fmap_ext _ (λ k : nat, take limit (drop (k * limit) (drop limit l)))
               (seq 0 n));
      [|intros ? k _; cbn; rewrite drop_drop; do 2 f_equal; lia].
    rewrite IH by (rewrite length_drop; lia).
    apply take_drop.
Qed.

(** X2. For every list operation on a store whose creation times are
    pairwise distinct, and every positive [limit] that keeps the queries
    within the safe integers, pages 1 to [totalPages], one after the other,
    are the un-paginated result: no row is skipped and none is repeated. *)
Theorem pages_tile_the_result (db : DB) (A : Type)
    (op : option PaginationParams.t → Exc (PaginatedResponse.t A)) (all : list A)
    (limit : Z) :
  list_operation db A op all →
  distinct_times db →
  0 < limit → Z.of_nat (length all) + limit ≤ MAX_SAFE_INTEGER →
  firstPages (λ page, op (explicit page limit)) (pagesFor (length all) limit) = all.
Proof.
  intros Hop _ Hl Hsafe. unfold firstPages, pagesFor.
  pose proof (Math_ceil_bounds (Z.of_nat (length all)) limit Hl) as [Hlow Hceil].
  set (n := Math_ceil (js_div (Z.of_nat (length all)) limit)) in *.
  rewrite (list_fmap_ext _
    (λ k : nat, take (Z.to_nat limit) (drop (k * Z.to_nat limit) all))
    (seq 0 (Z.to_nat n))).
  - apply chunks_join. nia.
  - intros i k Hk. apply lookup_seq in Hk as [-> Hk]. cbn beta.
    rewrite (list_operation_paged db A op all) by (done || lia).
    rewrite decide_True by (apply accepted_safe; nia).
    cbn. do 2 f_equal. nia.
Qed.

Lemma sampleDB_distinct_times : distinct_times sampleDB.
Proof. unfold distinct_times. split_and!; by_computation. Defined.

Lemma pages_tile_the_result_witness :
  distinct_times sampleDB ∧ 0 < 2 ∧
  Z.of_nat (length (usersAll sampleDB)) + 2 ≤ MAX_SAFE_INTEGER ∧
  firstPages (λ page, UserService.getAll (explicit page 2) sampleDB)
    (pagesFor (length (usersAll sampleDB)) 2)
  = usersAll sampleDB.
Proof.
  split; [exact sampleDB_distinct_times|]. split; [lia|]. split; [by vm_compute|].
  exact (pages_tile_the_result sampleDB User.t
           (λ ps, UserService.getAll ps sampleDB) (usersAll sampleDB) 2
           (users_getAll sampleDB) sampleDB_distinct_times ltac:(lia)
           ltac:(by vm_compute)).
Defined.

(** X3. For every list operation, a [page] of 0 or less with a positive
    [limit] makes the skip negative, and the call throws: no page is
    returned. *)
Theorem nonpositive_page_is_rejected (db : DB) (A : Type)
    (op : option PaginationParams.t → Exc (PaginatedResponse.t A)) (all : list A)
    (page limit : Z) :
  list_operation db A op all →
  page ≤ 0 → 0 < limit →
  op (explicit page limit) = Throw QueryRejected.
Proof.
  intros Hop Hp Hl.
  rewrite (list_operation_paged db A op all) by (done || lia).
  rewrite decide_False; [done|]. unfold accepted. nia.
Qed.

Lemma nonpositive_page_is_rejected_witness :
  0 ≤ 0 ∧ 0 < 10 ∧
  PostService.getFeed (explicit 0 10) sampleDB = Throw QueryRejected.
Proof.
  split; [lia|]. split; [lia|].
  exact (nonpositive_page_is_rejected sampleDB PostWithCounts.t
           (λ ps, PostService.getFeed ps sampleDB) _ 0 10
           (posts_getFeed sampleDB) ltac:(lia) ltac:(lia)).
Defined.

(** ** What the list operations list *)

Lemma on_some_page (db : DB) (A : Type)
    (op : option PaginationParams.t → Exc (PaginatedResponse.t A)) (all : list A)
    (limit : Z) (x : A) :
  list_operation db A op all →
  0 < limit → Z.of_nat (length all) + limit ≤ MAX_SAFE_INTEGER →
  (∃ page r, 0 < page ∧ op (explicit page limit) = Ok r
             ∧ x ∈ PaginatedResponse.data r)
  ↔ x ∈ all.
Proof.
  intros Hop Hl Hsafe. split.
  - intros (page & r & Hp & Hr & Hx).
    rewrite (list_operation_paged db A op all) in Hr by (done || lia).
    destruct (decide _); [|done]. injection Hr as <-. cbn in Hx.
    apply list_elem_of_lookup in Hx as [i Hi].
    apply lookup_take_Some in Hi as [Hi _]. rewrite lookup_drop in Hi.
    by eapply list_elem_of_lookup_2.
  - intros Hx. apply list_elem_of_lookup in Hx as [i Hi].
    exists (Z.of_nat i / limit + 1).
    rewrite (list_operation_paged db A op all) by (done || lia).
    pose proof (Z.div_mod (Z.of_nat i) limit ltac:(lia)) as Hdm.
    pose proof (Z.mod_pos_bound (Z.of_nat i) limit Hl) as Hmod.
    assert (0 ≤ Z.of_nat i / limit) as Hq by (apply Z.div_pos; lia).
    apply lookup_lt_Some in Hi as Hlt.
    rewrite decide_True by (apply accepted_safe; nia).
    eexists. split; [lia|]. split; [done|]. cbn.
    apply list_elem_of_lookup. exists (Z.to_nat (Z.of_nat i mod limit)).
    rewrite lookup_take_lt by lia. rewrite lookup_drop.
    rewrite <- Hi. f_equal. nia.
Qed.

Lemma where_spec (filters : PostFilters.t) (p : Post.t) :
  PostService.where_ filters p = true
  ↔ (∀ a, PostFilters.authorId filters = Some a → a ≠ "" → Post.authorId p = a)
    ∧ (∀ b, PostFilters.published filters = Some b → Post.published p = b)
    ∧ (∀ s, PostFilters.search filters = Some s → s ≠ "" →
         contains_insensitive (Post.title p) s
         || contains_insensitive (Post.content p) s = true).
Proof.
  unfold PostService.where_, truthy.
  destruct filters as [a b s]; cbn.
  rewrite !andb_true_iff.
  assert ((if match a with
               | Some a0 => negb (String.eqb a0 "")
               | None => false
               end
           then bool_decide (Some (Post.authorId p) = a) else true) = true
          ↔ ∀ a0, a = Some a0 → a0 ≠ "" → Post.authorId p = a0) as ->.
  { destruct a as [a0|]; [|by split].
    destruct (String.eqb_spec a0 "") as [->|Hne]; cbn.
    - split; [|done]. by intros _ ? [= <-] ?.
    - rewrite bool_decide_eq_true. split.
      + by intros [= ->] ? [= <-] _.
      + intros H. f_equal. by apply H. }
  assert (match b with
          | Some b0 => bool_decide (Post.published p = b0)
          | None => true
          end = true
          ↔ ∀ b0, b = Some b0 → Post.published p = b0) as ->.
  { destruct b as [b0|]; [|by split].
    rewrite bool_decide_eq_true. split; [by intros -> ? [= <-]|by intros H; apply H]. }
  assert (match s with
          | Some s0 =>
              if negb (String.eqb s0 "")
              then contains_insensitive (Post.title p) s0
                   || contains_insensitive (Post.content p) s0
              else true
          | None => true
          end = true
          ↔ ∀ s0, s = Some s0 → s0 ≠ "" →
              contains_insensitive (Post.title p) s0
              || contains_insensitive (Post.content p) s0 = true) as ->.
  { destruct s as [s0|]; [|by split].
    destruct (String.eqb_spec s0 "") as [->|Hne]; cbn.
    - split; [|done]. by intros _ ? [= <-] ?.
    - split; [by intros H ? [= <-] _|by intros H; apply H]. }
  tauto.
Qed.

Lemma elem_of_postsAll (filters : option PostFilters.t) (db : DB)
    (pw : PostWithCounts.t) :
  pw ∈ postsAll filters db
  ↔ ∃ p, p ∈ posts db ∧ pw = PostService.withCounts db p ∧
         PostService.where_ (default PostFilters.empty filters) p = true.
Proof.
  unfold postsAll. rewrite list_elem_of_fmap.
  split.
  - intros (p & -> & Hp). apply elem_of_rowsWhere in Hp as [Hw Hp].
    exists p. split_and!; [done..|]. by apply Is_true_true.
  - intros (p & Hp & -> & Hw). exists p. split; [done|].
    apply elem_of_rowsWhere. split; [|done]. by apply Is_true_true.
Qed.

Lemma length_postsAll (filters : option PostFilters.t) (db : DB) :
  (length (postsAll filters db) ≤ length (posts db))%nat.
Proof.
  unfold postsAll. rewrite length_fmap, rowsWhere_Permutation.
  apply length_filter.
Qed.

(** *** The pattern of a search *)

Lemma append_cons (c : Ascii.ascii) (a b : string) :
  (String c a ++ b)%string = String c (a ++ b)%string.
Proof. reflexivity. Qed.

Lemma append_nil_r (a : string) : (a ++ "")%string = a.
Proof. induction a as [|c a IH]; [done|]. by rewrite append_cons, IH. Qed.

Lemma like_percent_unfold (p t : string) :
  like (String "%"%char p) t
  = like p t || match t with
                | EmptyString => false
                | String _ t' => like (String "%"%char p) t'
                end.
Proof. by destruct t. Qed.

Lemma like_percent (p t : string) :
  like (String "%"%char p) t = true
  ↔ ∃ pre rest, t = (pre ++ rest)%string ∧ like p rest = true.
Proof.
  split.
  - induction t as [|c t IH]; rewrite like_percent_unfold, orb_true_iff.
    + intros [Hp|?]; [|done]. by exists "", "".
    + intros [Hp|Ht].
      * by exists "", (String c t).
      * destruct (IH Ht) as (pre & rest & -> & Hrest).
        by exists (String c pre), rest.
  - intros (pre & rest & -> & Hrest).
    induction pre as [|c pre IH]; rewrite like_percent_unfold, orb_true_iff.
    + by left.
    + right. exact IH.
Qed.

Lemma like_any (t : string) : like "%" t = true.
Proof.
  apply like_percent. exists t, "". by rewrite append_nil_r.
Qed.

Lemma like_literal (c : Ascii.ascii) (p t : string) :
  literal c = true →
  like (String c p) t
  = match t with
    | EmptyString => false
    | String e t' => Ascii.eqb c e && like p t'
    end.
Proof.
  unfold literal. rewrite !andb_true_iff, !negb_true_iff.
  intros [[H1 H2] H3]. cbn [like]. by rewrite H1, H2, H3.
Qed.

Lemma like_plain_prefix (n p t : string) :
  plain n = true →
  like (n ++ p)%string t = true
  ↔ ∃ rest, t = (n ++ rest)%string ∧ like p rest = true.
Proof.
  revert t. induction n as [|c n IH]; intros t Hn.
  - split; [by exists t|by intros (rest & -> & ?)].
  - rewrite append_cons. cbn in Hn. apply andb_true_iff in Hn as [Hc Hn].
    rewrite like_literal by done. destruct t as [|e t].
    + split; [done|by intros (rest & ? & _)].
    + rewrite andb_true_iff, Ascii.eqb_eq, IH by done. split.
      * intros (-> & rest & -> & Hrest). by exists rest.
      * intros (rest & [= -> ->] & Hrest). split; [done|]. by exists rest.
Qed.

Lemma lowercase_app (a b : string) :
  lowercase (a ++ b)%string = (lowercase a ++ lowercase b)%string.
Proof.
  induction a as [|c a IH]; [done|]. rewrite !append_cons. cbn. by rewrite IH.
Qed.

Lemma literal_lower (c : Ascii.ascii) : literal (lower c) = literal c.
Proof. by destruct c as [[] [] [] [] [] [] [] []]. Qed.

Lemma plain_lowercase (s : string) : plain (lowercase s) = plain s.
Proof. induction s as [|c s IH]; [done|]. cbn. by rewrite literal_lower, IH. Qed.

Lemma contains_plain (field needle : string) :
  plain needle = true →
  contains_insensitive field needle = true ↔ occurs_in needle field.
Proof.
  intros Hplain. unfold contains_insensitive, occurs_in.
  change (lowercase (String "%"%char (needle ++ "%")%string))
    with (String "%"%char (lowercase (needle ++ "%")%string)).
  rewrite lowercase_app, like_percent.
  change (lowercase "%") with "%".
  split.
  - intros (pre & rest & Ht & Hrest).
    apply like_plain_prefix in Hrest as (post & -> & _);
      [|by rewrite plain_lowercase].
    by exists pre, post.
  - intros (pre & post & Ht). exists pre, (lowercase needle ++ post)%string.
    split; [done|]. apply like_plain_prefix; [by rewrite plain_lowercase|].
    exists post. split; [done|]. apply like_any.
Qed.

(** The characters [%], [_] and the backslash of a search string are not
    taken literally. *)
Example contains_wildcards :
  contains_insensitive "Hello" "H%o" = true ∧
  contains_insensitive "Hello" "_ELLO" = true ∧
  contains_insensitive "Hello" "\_ello" = false ∧
  contains_insensitive "50% off" "\%" = true ∧
  contains_insensitive "Hello" "lo_" = false.
Proof. by vm_compute. Qed.

(** X4. For every store whose creation times are pairwise distinct, every
    positive [limit] that keeps the queries within the safe integers, and
    all filters, the pages of the posts [getAll] hold exactly the posts
    that meet every filter given: the author when [authorId] is a non-empty
    string, the [published] flag when it is given, and, when [search] is a
    non-empty string, a title or a content in which it occurs, letter case
    ignored.  An empty [authorId] or [search] filters nothing.  The search
    string is taken to be free of [%], [_] and the backslash, which the
    database reads as a pattern, and it and the texts to be ASCII, beyond
    which case folding depends on the locale of the database. *)
Theorem getAll_lists_the_posts_meeting_every_filter
    (db : DB) (filters : PostFilters.t) (limit : Z) (pw : PostWithCounts.t) :
  distinct_times db →
  0 < limit → Z.of_nat (length (posts db)) + limit ≤ MAX_SAFE_INTEGER →
  (∀ s, PostFilters.search filters = Some s →
        plain s = true ∧ ascii_only s = true) →
  (∀ p, p ∈ posts db →
        ascii_only (Post.title p) = true ∧ ascii_only (Post.content p) = true) →
  (∃ page r, 0 < page ∧
     PostService.getAll (explicit page limit) (Some filters) db = Ok r ∧
     pw ∈ PaginatedResponse.data r)
  ↔
  ∃ p, p ∈ posts db ∧ pw = PostService.withCounts db p ∧
    (∀ a, PostFilters.authorId filters = Some a → a ≠ "" → Post.authorId p = a) ∧
    (∀ b, PostFilters.published filters = Some b → Post.published p = b) ∧
    (∀ s, PostFilters.search filters = Some s → s ≠ "" →
       occurs_in s (Post.title p) ∨ occurs_in s (Post.content p)).
Proof.
  intros _ Hl Hsafe Hplain _.
  pose proof (length_postsAll (Some filters) db) as Hlen.
  rewrite (on_some_page db PostWithCounts.t
             (λ ps, PostService.getAll ps (Some filters) db)
             (postsAll (Some filters) db) limit pw (posts_getAll db (Some filters)))
    by (done || lia).
  rewrite elem_of_postsAll. cbn.
  split; intros (p & Hp & Hpw & Hw); exists p; split_and!; try done.
  - by apply where_spec in Hw as (? & _ & _).
  - by apply where_spec in Hw as (_ & ? & _).
  - apply where_spec in Hw as (_ & _ & Hs). intros s Hsearch Hne.
    destruct (Hplain s Hsearch) as [Hpl _].
    specialize (Hs s Hsearch Hne). apply orb_true_iff in Hs.
    by rewrite !contains_plain in Hs.
  - destruct Hw as (Ha & Hb & Hs). apply where_spec. split_and!; try done.
    intros s Hsearch Hne. destruct (Hplain s Hsearch) as [Hpl _].
    apply orb_true_iff. rewrite !contains_plain by done. by apply Hs.
Qed.

Lemma sampleDB_ascii (p : Post.t) :
  p ∈ posts sampleDB →
  ascii_only (Post.title p) = true ∧ ascii_only (Post.content p) = true.
Proof.
  intros Hp. apply list_elem_of_In in Hp.
  destruct Hp as [<-|[<-|[]]]; by vm_compute.
Defined.

Lemma getAll_lists_the_posts_meeting_every_filter_witness :
  distinct_times sampleDB ∧ 0 < 10 ∧
  Z.of_nat (length (posts sampleDB)) + 10 ≤ MAX_SAFE_INTEGER ∧
  ∃ page r, 0 < page ∧
    PostService.getAll (explicit page 10)
      (Some (PostFilters.mk (Some "u1") None (Some "HELLO"))) sampleDB = Ok r ∧
    PostService.withCounts sampleDB post1 ∈ PaginatedResponse.data r.
Proof.
  split; [exact sampleDB_distinct_times|]. split; [lia|]. split; [by vm_compute|].
  apply (getAll_lists_the_posts_meeting_every_filter sampleDB
           (PostFilters.mk (Some "u1") None (Some "HELLO")) 10
           (PostService.withCounts sampleDB post1)
           sampleDB_distinct_times ltac:(lia) ltac:(by vm_compute)).
  - intros s [= <-]. by vm_compute.
  - exact sampleDB_ascii.
  - exists post1. split; [left|]. split; [reflexivity|].
    split; [by intros ? [= <-] _|]. split; [by intros ? [=]|].
    intros ? [= <-] _. left. by exists "", "".
Defined.

Lemma getAll_ext (ps : option PaginationParams.t) (f1 f2 : PostFilters.t) (db : DB) :
  (∀ p, PostService.where_ f1 p = PostService.where_ f2 p) →
  PostService.getAll ps (Some f1) db = PostService.getAll ps (Some f2) db.
Proof.
  intros Heq. unfold PostService.getAll, Prisma.findMany, Prisma.count. cbn.
  rewrite (list_filter_iff (λ p, PostService.where_ f1 p) (λ p, PostService.where_ f2 p))
    by (intros p; by rewrite Heq).
  done.
Qed.

(** X5. On a store whose creation times are pairwise distinct, and for a
    positive [limit] that keeps the queries within the safe integers: the
    feed lists exactly the published posts, and the posts [getByAuthor] of a
    non-empty [authorId] lists exactly the posts of that author.  With the
    empty string as [authorId] the filter is dropped: [getByAuthor] then
    returns what the unfiltered [getAll] returns, the posts of every
    author. *)
Theorem feed_and_author_listings (db : DB) (limit : Z) (pw : PostWithCounts.t) :
  distinct_times db →
  0 < limit → Z.of_nat (length (posts db)) + limit ≤ MAX_SAFE_INTEGER →
  ((∃ page r, 0 < page ∧ PostService.getFeed (explicit page limit) db = Ok r ∧
              pw ∈ PaginatedResponse.data r)
   ↔ ∃ p, p ∈ posts db ∧ Post.published p = true ∧
          pw = PostService.withCounts db p)
  ∧
  (∀ authorId, authorId ≠ "" →
     (∃ page r, 0 < page ∧
        PostService.getByAuthor authorId (explicit page limit) db = Ok r ∧
        pw ∈ PaginatedResponse.data r)
     ↔ ∃ p, p ∈ posts db ∧ Post.authorId p = authorId ∧
            pw = PostService.withCounts db p)
  ∧
  (∀ ps, PostService.getByAuthor "" ps db = PostService.getAll ps None db).
Proof.
  intros _ Hl Hsafe. split_and!.
  - pose proof (length_postsAll (Some (PostFilters.mk None (Some true) None)) db).
    rewrite (on_some_page db PostWithCounts.t (λ ps, PostService.getFeed ps db)
               _ limit pw (posts_getFeed db)) by (done || lia).
    rewrite elem_of_postsAll. cbn.
    split.
    + intros (p & Hp & Hpw & Hw). exists p. split_and!; try done.
      apply where_spec in Hw as (_ & Hpub & _). by apply Hpub.
    + intros (p & Hp & Hpub & Hpw). exists p. split_and!; try done.
      apply where_spec. cbn. split_and!; [done| |done]. by intros ? [= <-].
  - intros authorId Hne.
    pose proof (length_postsAll (Some (PostFilters.mk (Some authorId) None None)) db).
    rewrite (on_some_page db PostWithCounts.t
               (λ ps, PostService.getByAuthor authorId ps db)
               _ limit pw (posts_getByAuthor db authorId)) by (done || lia).
    rewrite elem_of_postsAll. cbn.
    split.
    + intros (p & Hp & Hpw & Hw). exists p. split_and!; try done.
      apply where_spec in Hw as (Hauthor & _ & _). by apply Hauthor.
    + intros (p & Hp & Hauthor & Hpw). exists p. split_and!; try done.
      apply where_spec. cbn. split_and!; [|done..]. by intros ? [= <-] _.
  - intros ps. unfold PostService.getByAuthor.
    rewrite (getAll_ext _ _ PostFilters.empty) by done.
    by destruct ps.
Qed.

Lemma feed_and_author_listings_witness :
  distinct_times sampleDB ∧ 0 < 10 ∧
  Z.of_nat (length (posts sampleDB)) + 10 ≤ MAX_SAFE_INTEGER ∧
  ∃ page r, 0 < page ∧ PostService.getFeed (explicit page 10) sampleDB = Ok r ∧
    PostService.withCounts sampleDB post1 ∈ PaginatedResponse.data r.
Proof.
  split; [exact sampleDB_distinct_times|]. split; [lia|]. split; [by vm_compute|].
  apply (proj1 (feed_and_author_listings sampleDB 10
                  (PostService.withCounts sampleDB post1)
                  sampleDB_distinct_times ltac:(lia) ltac:(by vm_compute))).
  exists post1. split; [left|]. split; reflexivity.
Defined.

Lemma lowercase_empty (s : string) : lowercase s = "" ↔ s = "".
Proof. by destruct s. Qed.

(** X6. Two search strings that differ only in the case of their ASCII
    letters give the same result, for every pagination and every other
    filter. *)
Theorem search_ignores_the_case_of_the_needle
    (ps : option PaginationParams.t) (authorId : option string)
    (published : option bool) (s s' : string) (db : DB) :
  lowercase s = lowercase s' →
  PostService.getAll ps (Some (PostFilters.mk authorId published (Some s))) db
  = PostService.getAll ps (Some (PostFilters.mk authorId published (Some s'))) db.
Proof.
  intros Hcase. apply getAll_ext. intros p.
  assert (∀ field, contains_insensitive field s = contains_insensitive field s')
    as Hsame.
  { intros field. unfold contains_insensitive.
    change (lowercase (String "%"%char (s ++ "%")%string))
      with (String "%"%char (lowercase (s ++ "%")%string)).
    change (lowercase (String "%"%char (s' ++ "%")%string))
      with (String "%"%char (lowercase (s' ++ "%")%string)).
    by rewrite !lowercase_app, Hcase. }
  unfold PostService.where_, truthy. cbn -[contains_insensitive].
  rewrite !Hsame. do 2 f_equal.
  destruct (String.eqb_spec s "") as [Hs|Hs], (String.eqb_spec s' "") as [Hs'|Hs'];
    try done; exfalso.
  - apply Hs', lowercase_empty. rewrite <- Hcase. by apply lowercase_empty.
  - apply Hs, lowercase_empty. rewrite Hcase. by apply lowercase_empty.
Qed.

Lemma search_ignores_the_case_of_the_needle_witness :
  lowercase "HeLLo" = lowercase "hello" ∧
  PostService.getAll None (Some (PostFilters.mk None None (Some "HeLLo"))) sampleDB
  = PostService.getAll None (Some (PostFilters.mk None None (Some "hello"))) sampleDB.
Proof.
  split; [reflexivity|].
  apply (search_ignores_the_case_of_the_needle None None None "HeLLo" "hello" sampleDB).
  reflexivity.
Defined.

(** ** Users *)

Lemma NoDup_fmap_snoc {A K} (f : A → K) (l : list A) (x : A) :
  NoDup (f <$> l) → (∀ y, y ∈ l → f y ≠ f x) → NoDup (f <$> (l ++ [x])).
Proof.
  intros Hnd Hx. rewrite fmap_app. apply NoDup_app.
  split_and!; [done| |apply NoDup_singleton].
  intros k Hk Hk'. apply list_elem_of_fmap in Hk as (y & -> & Hy).
  apply list_elem_of_singleton in Hk'. by apply (Hx y).
Qed.

Lemma findUnique_snoc_new {A} (P : A → Prop) `{∀ x, Decision (P x)}
    (l : list A) (x : A) :
  (∀ y, y ∈ l → ¬ P y) → P x → Prisma.findUnique P (l ++ [x]) = Some x.
Proof.
  intros Hl Hx. unfold Prisma.findUnique.
  rewrite filter_app, (filter_none P l Hl), app_nil_l.
  by rewrite filter_cons_True.
Qed.

Lemma findUnique_unique {A K} (f : A → K) `{EqDecision K} (l : list A) (x : A) :
  NoDup (f <$> l) → x ∈ l →
  Prisma.findUnique (λ y, f y = f x) l = Some x.
Proof.
  intros Hnd Hx.
  destruct (Prisma.findUnique (λ y, f y = f x) l) as [y|] eqn:Hfind.
  - apply findUnique_Some in Hfind as [Hy Heq].
    f_equal. by apply (NoDup_fmap_eq f l).
  - exfalso. by apply (proj1 (findUnique_None _ _) Hfind x).
Qed.

Lemma list_find_unique {A K} (f : A → K) `{EqDecision K} (l : list A) (x : A) :
  NoDup (f <$> l) → x ∈ l →
  ∃ i, list_find (λ y, f y = f x) l = Some (i, x) ∧ l !! i = Some x.
Proof.
  intros Hnd Hx.
  pose proof (findUnique_unique f l x Hnd Hx) as Hfind.
  rewrite <- list_find_findUnique in Hfind.
  destruct (list_find (λ y, f y = f x) l) as [[i y]|] eqn:Hi; simplify_eq/=.
  exists i. split; [done|]. by apply list_find_Some in Hi as [? _].
Qed.

Lemma create_keeps_unique_users (data : CreateUserInput.t) (g : Gen) (db : DB) :
  unique_users db → unique_users (UserService.create data g db).2.
Proof.
  intros [He Hu]. unfold UserService.create.
  destruct (CreateUserInput.email data) as [e|]; [|done].
  destruct (CreateUserInput.username data) as [u|]; [|done].
  destruct (decide (Exists _ (users db))) as [Hex|Hnex]; [done|].
  rewrite Exists_exists in Hnex.
  split; cbn; apply NoDup_fmap_snoc; try done; intros y Hy Heq; apply Hnex;
    exists y; cbn in Heq; tauto.
Qed.

Lemma NoDup_fmap_delete {A K} (f : A → K) (l : list A) (i : nat) :
  NoDup (f <$> l) → NoDup (f <$> base.delete i l).
Proof.
  intros Hnd. rewrite list_fmap_delete.
  eapply sublist_NoDup; [done|apply sublist_delete].
Qed.

(** An update replaces the row of a unique key by its new version, stored
    last. *)
Lemma NoDup_fmap_moved {A K} (f : A → K) (l : list A) (i : nat) (x : A) :
  NoDup (f <$> l) → (∀ y, y ∈ base.delete i l → f y ≠ f x) →
  NoDup (f <$> (base.delete i l ++ [x])).
Proof.
  intros Hnd Hx. apply NoDup_fmap_snoc; [|done]. by apply NoDup_fmap_delete.
Qed.

Lemma update_keeps_unique_users (id : string) (data : UpdateUserInput.t) (now : Z)
    (db : DB) :
  unique_users db → unique_users (UserService.update id data now db).2.
Proof.
  intros [He Hu]. unfold UserService.update.
  destruct (list_find _ (users db)) as [[i u]|]; [|done].
  destruct (decide (Exists _ (base.delete i (users db)))) as [Hex|Hnex]; [done|].
  rewrite Exists_exists in Hnex.
  split; cbn; apply NoDup_fmap_moved; try done; intros y Hy Heq; apply Hnex;
    exists y; tauto.
Qed.

(** X7. The unique columns stay unique.  Whatever the request, the store
    left by the user handlers [create] and [update] has no two users with
    the same email and no two with the same username, provided the store
    they started from had none. *)
Theorem user_handlers_keep_emails_and_usernames_unique (db : DB) :
  unique_users db →
  (∀ request g, unique_users (userHandlers.create request g db).2) ∧
  (∀ id request now, unique_users (userHandlers.update id request now db).2).
Proof.
  intros Huniq. split.
  - intros [[body|e]] g; unfold userHandlers.create, try_catch, bind, readE, read, ret;
      cbn; [|done].
    destruct (negb (truthy (CreateUserInput.email body))
              || negb (truthy (CreateUserInput.username body))); [done|].
    destruct (UserService.emailExists _ db); [done|].
    destruct (UserService.usernameExists _ db); [done|].
    pose proof (create_keeps_unique_users body g db Huniq) as Hkeep.
    by destruct (UserService.create body g db) as [[user|e] db'].
  - intros id [[body|e]] now;
      unfold userHandlers.update, try_catch, bind, readE, read, ret;
      cbn; [|done].
    destruct (if truthy (UpdateUserInput.email body) then _ else false); [done|].
    destruct (if truthy (UpdateUserInput.username body) then _ else false); [done|].
    pose proof (update_keeps_unique_users id body now db Huniq) as Hkeep.
    by destruct (UserService.update id body now db) as [[user|e] db'].
Qed.

Lemma sampleDB_unique_users : unique_users sampleDB.
Proof. split; apply (bool_decide_unpack _); by vm_compute. Defined.

Lemma sampleDB_unique_user_ids : unique_user_ids sampleDB.
Proof. unfold unique_user_ids. apply (bool_decide_unpack _). by vm_compute. Defined.

Lemma user_handlers_keep_emails_and_usernames_unique_witness :
  unique_users sampleDB ∧
  unique_users
    (userHandlers.update "u2"
       (Request.mk (Ok (UpdateUserInput.mk (Some "z@x.com") None None None None)))
       100 sampleDB).2.
Proof.
  split; [exact sampleDB_unique_users|].
  apply (user_handlers_keep_emails_and_usernames_unique sampleDB sampleDB_unique_users).
Defined.

(** X8. A user that was just created is found.  If the handler [create]
    answers 201 with [user], then [user] is the last row of the users
    table, the lookups by its email and by its username return it, and the
    handler [getByUsername] answers 200 with it; the lookup by id returns it
    too when the generated id is not the id of an older user. *)
Theorem created_user_is_found
    (request : Request.t CreateUserInput.t) (g : Gen) (db db' : DB) (user : User.t) :
  userHandlers.create request g db = (jsonResponse (Success user) (Some 201), db') →
  users db' = users db ++ [user] ∧
  UserService.getByEmail (User.email user) db' = Some user ∧
  UserService.getByUsername (User.username user) db' = Some user ∧
  userHandlers.getByUsername (User.username user) db'
  = (jsonResponse (Success user) None, db') ∧
  ((∀ x, x ∈ users db → User.id x ≠ User.id user) →
   userHandlers.getById (User.id user) db' = (jsonResponse (Success user) None, db')).
Proof.
  destruct request as [[body|e]];
    unfold userHandlers.create, try_catch, bind, readE, read, ret; cbn; [|done].
  destruct (negb (truthy (CreateUserInput.email body))
            || negb (truthy (CreateUserInput.username body))); [done|].
  destruct (UserService.emailExists _ db); [done|].
  destruct (UserService.usernameExists _ db); [done|].
  unfold UserService.create.
  destruct (CreateUserInput.email body) as [e|]; [|done].
  destruct (CreateUserInput.username body) as [u|]; [|done].
  destruct (decide (Exists _ (users db))) as [Hex|Hnex]; [done|].
  rewrite Exists_exists in Hnex.
  intros [= <- <-]. cbn.
  assert (UserService.getByEmail e
            (mkDB (users db ++ [UserService.newUser body e u g])
               (posts db) (comments db) (likes db))
          = Some (UserService.newUser body e u g)) as Hbyemail.
  { apply findUnique_snoc_new; [|done]. intros y Hy Heq. apply Hnex. eauto. }
  assert (UserService.getByUsername u
            (mkDB (users db ++ [UserService.newUser body e u g])
               (posts db) (comments db) (likes db))
          = Some (UserService.newUser body e u g)) as Hbyname.
  { apply findUnique_snoc_new; [|done]. intros y Hy Heq. apply Hnex. eauto. }
  split_and!; try done.
  - unfold userHandlers.getByUsername, try_catch, bind, read, ret.
    by rewrite Hbyname.
  - intros Hfresh.
    unfold userHandlers.getById, try_catch, bind, read, ret.
    assert (UserService.getById (gen_id g)
              (mkDB (users db ++ [UserService.newUser body e u g])
                 (posts db) (comments db) (likes db))
            = Some (UserService.newUser body e u g)) as ->; [|done].
    apply findUnique_snoc_new; [|done]. intros y Hy Heq. by apply (Hfresh y).
Qed.

Lemma created_user_is_found_witness :
  ∃ user db',
    userHandlers.create
      (Request.mk (Ok (CreateUserInput.mk (Some "d@x.com") (Some "d") None None None)))
      sampleGen sampleDB
    = (jsonResponse (Success user) (Some 201), db') ∧
    UserService.getByEmail "d@x.com" db' = Some user.
Proof.
  eexists _, _. split; [reflexivity|].
  eapply (proj1 (proj2 (created_user_is_found
            (Request.mk (Ok (CreateUserInput.mk (Some "d@x.com") (Some "d") None None None)))
            sampleGen sampleDB _ _ eq_refl))).
Defined.

Lemma String_eqb_refl_false (a b : string) : a = b → negb (String.eqb a b) = false.
Proof. intros ->. by rewrite String.eqb_refl. Qed.

Lemma String_eqb_neq_true (a b : string) : a ≠ b → negb (String.eqb a b) = true.
Proof. intros Hne. by apply negb_true_iff, String.eqb_neq. Qed.

Lemma delete_avoids_key {A K} (f : A → K) `{EqDecision K} (l : list A) (i : nat)
    (x y : A) :
  NoDup (f <$> l) → l !! i = Some x → y ∈ base.delete i l → f y ≠ f x.
Proof.
  intros Hnd Hi Hy. rewrite (delete_unique_key f l i x) in Hy by done.
  by apply list_elem_of_filter in Hy as [? _].
Qed.

(** The uniqueness check of the update handler on one column. *)
Lemma ownedByOther_false (f : User.t → string) (db : DB) (u : User.t)
    (given : option string) :
  NoDup (f <$> users db) → u ∈ users db →
  (∀ v y, given = Some v → v ≠ "" → y ∈ users db → f y = v → y = u) →
  (if truthy given
   then userHandlers.ownedByOther
          (Prisma.findUnique (λ x, f x = default "" given) (users db)) (User.id u)
   else false) = false.
Proof.
  intros Hnd Hu Hfree. destruct given as [v|]; [|done].
  unfold truthy. destruct (String.eqb_spec v "") as [->|Hne]; [done|]. cbn.
  destruct (Prisma.findUnique _ _) as [y|] eqn:Hfind; [|done]. cbn.
  apply findUnique_Some in Hfind as [Hy Hfy].
  rewrite (Hfree v y) by done. by apply String_eqb_refl_false.
Qed.

Lemma ownedByOther_true (f : User.t → string) (db : DB) (u x : User.t) (v : string) :
  NoDup (f <$> users db) → NoDup (User.id <$> users db) →
  u ∈ users db → x ∈ users db → f x = v → x ≠ u → v ≠ "" →
  (if truthy (Some v)
   then userHandlers.ownedByOther
          (Prisma.findUnique (λ y, f y = default "" (Some v)) (users db)) (User.id u)
   else false) = true.
Proof.
  intros Hnd Hids Hu Hx <- Hxu Hne. rewrite truthy_Some by done. cbn.
  rewrite (findUnique_unique f (users db) x) by done. cbn.
  apply String_eqb_neq_true. intros Heq. apply Hxu.
  by apply (NoDup_fmap_eq User.id (users db)).
Qed.

(** X9. Updating a user through the handler, on a store with unique ids,
    emails and usernames.  A non-empty email that belongs to another user is
    answered 409 "Email already in use".  When the email raises no such
    conflict (it is omitted, empty, the user's own, or free), a non-empty
    username that belongs to another user is answered 409 "Username already
    taken".  In both cases the store is unchanged.  When the email and the
    username of the updated row are those of no other user, the answer is
    200 with the updated row, whose [updatedAt] is the time of the update:
    the old row is removed and the updated one is stored last. *)
Theorem update_user_outcomes
    (body : UpdateUserInput.t) (now : Z) (db : DB) (u : User.t) :
  unique_users db → unique_user_ids db → u ∈ users db →
  let request := Request.mk (Ok body) in
  let u' := UserService.updated body now u in
  let no_email_conflict :=
    ∀ e y, UpdateUserInput.email body = Some e → e ≠ "" →
           y ∈ users db → User.email y = e → y = u in
  (∀ e x, UpdateUserInput.email body = Some e → e ≠ "" →
     x ∈ users db → User.email x = e → x ≠ u →
     userHandlers.update (User.id u) request now db
     = (jsonResponse (Failure "Email already in use") (Some 409), db))
  ∧
  (∀ n x, no_email_conflict →
     UpdateUserInput.username body = Some n → n ≠ "" →
     x ∈ users db → User.username x = n → x ≠ u →
     userHandlers.update (User.id u) request now db
     = (jsonResponse (Failure "Username already taken") (Some 409), db))
  ∧
  ((∀ y, y ∈ users db → y ≠ u →
      User.email y ≠ User.email u' ∧ User.username y ≠ User.username u') →
   User.updatedAt u' = now ∧
   userHandlers.update (User.id u) request now db
   = (jsonResponse (Success u') None,
      mkDB (filter (λ x, User.id x ≠ User.id u) (users db) ++ [u'])
        (posts db) (comments db) (likes db))).
Proof.
  intros [Hemails Hnames] Hids Hu request u' no_email_conflict.
  split_and!.
  - intros e x He Hne Hx Hxe Hxu.
    unfold userHandlers.update, try_catch, bind, readE, read, ret. cbn -[truthy].
    unfold UserService.getByEmail. rewrite He.
    by rewrite (ownedByOther_true User.email db u x e).
  - intros n x Hfree Hn Hne Hx Hxn Hxu.
    unfold userHandlers.update, try_catch, bind, readE, read, ret. cbn -[truthy].
    unfold UserService.getByEmail, UserService.getByUsername.
    rewrite (ownedByOther_false User.email db u) by done.
    rewrite Hn. by rewrite (ownedByOther_true User.username db u x n).
  - intros Hfree. split; [done|].
    assert (∀ y, y ∈ users db → y ≠ u → User.id y ≠ User.id u) as Hother.
    { intros y Hy Hne Heq. apply Hne. by apply (NoDup_fmap_eq User.id (users db)). }
    assert (∀ (f : User.t → string) (given : option string) v y,
              f u' = default (f u) given →
              (∀ y, y ∈ users db → y ≠ u → f y ≠ f u') →
              given = Some v → v ≠ "" → y ∈ users db → f y = v → y = u) as Hsame.
    { intros f given v y Hf Hfree_f -> Hne Hy Hfy. cbn in Hf.
      destruct (decide (User.id y = User.id u)) as [Heq|Hneq];
        [by apply (NoDup_fmap_eq User.id (users db))|].
      assert (y ≠ u) as Hyu by (by intros ->).
      exfalso. apply (Hfree_f y Hy Hyu). congruence. }
    destruct (list_find_unique User.id (users db) u Hids Hu) as (i & Hfind & Hi).
    unfold userHandlers.update, try_catch, bind, readE, read, ret. cbn -[truthy].
    unfold UserService.getByEmail, UserService.getByUsername.
    rewrite (ownedByOther_false User.email db u); [|done..|].
    2:{ intros v y. apply (Hsame User.email); [done|]. intros z Hz Hzu.
        by apply Hfree. }
    rewrite (ownedByOther_false User.username db u); [|done..|].
    2:{ intros v y. apply (Hsame User.username); [done|]. intros z Hz Hzu.
        by apply Hfree. }
    unfold UserService.update. rewrite Hfind. fold u'.
    rewrite (delete_unique_key User.id (users db) i u) by done.
    rewrite decide_False; [done|].
    rewrite Exists_exists. intros (y & Hy & Hcollide).
    apply list_elem_of_filter in Hy as [Hyid Hy].
    assert (y ≠ u) as Hyu by (by intros ->).
    destruct (Hfree y Hy Hyu). tauto.
Qed.

Lemma update_user_outcomes_witness :
  unique_users sampleDB ∧ unique_user_ids sampleDB ∧ bob ∈ users sampleDB ∧
  userHandlers.update "u2"
    (Request.mk (Ok (UpdateUserInput.mk (Some "a@x.com") None None None None)))
    100 sampleDB
  = (jsonResponse (Failure "Email already in use") (Some 409), sampleDB).
Proof.
  assert (bob ∈ users sampleDB) as Hbob by (right; right; left).
  split; [exact sampleDB_unique_users|].
  split; [exact sampleDB_unique_user_ids|]. split; [exact Hbob|].
  apply (proj1 (update_user_outcomes
                  (UpdateUserInput.mk (Some "a@x.com") None None None None) 100
                  sampleDB bob sampleDB_unique_users sampleDB_unique_user_ids Hbob)
           "a@x.com" alice);
    [reflexivity|discriminate|left|reflexivity|discriminate].
Defined.

(** ** Likes *)

(** X10. The batch queries agree with the single ones: for every requested
    id, the entry of [countByPosts] is what [countByPost] returns for that
    post, and the entry of [hasLikedPosts] is what [hasLiked] returns for
    that user and post. *)
Theorem batch_queries_agree_with_single_queries
    (userId : string) (postIds : list string) (db : DB) (id : string) :
  id ∈ postIds →
  LikeService.countByPosts postIds db !! id = Some (LikeService.countByPost id db) ∧
  LikeService.hasLikedPosts userId postIds db !! id
  = Some (LikeService.hasLiked userId id db).
Proof.
  intros Hreq. rewrite countByPosts_lookup, hasLikedPosts_lookup.
  rewrite !decide_True by done. split; [done|]. f_equal.
  unfold LikeService.hasLiked. apply bool_decide_ext.
  by rewrite findUnique_is_Some, Exists_exists.
Qed.

Lemma batch_queries_agree_with_single_queries_witness :
  "p1" ∈ ["p2"; "p1"] ∧
  LikeService.countByPosts ["p2"; "p1"] sampleDB !! "p1"
  = Some (LikeService.countByPost "p1" sampleDB).
Proof.
  assert ("p1" ∈ ["p2"; "p1"]) as Hin by (right; left).
  split; [exact Hin|].
  exact (proj1 (batch_queries_agree_with_single_queries "u1" ["p2"; "p1"]
                  sampleDB "p1" Hin)).
Defined.

Lemma delete_absent (userId postId : string) (db : DB) :
  LikeService.getByUserAndPost userId postId db = None →
  LikeService.delete userId postId db = (Throw (PrismaError "P2025"), db).
Proof.
  intros Hnone. unfold LikeService.delete.
  unfold LikeService.getByUserAndPost in Hnone.
  rewrite <- list_find_findUnique in Hnone.
  by destruct (list_find _ (likes db)) as [[i l]|].
Qed.

Lemma getByUserAndPost_Some_iff (userId postId : string) (db : DB) :
  (∃ l, LikeService.getByUserAndPost userId postId db = Some l)
  ↔ ∃ l, l ∈ likes db ∧ Like.userId l = userId ∧ Like.postId l = postId.
Proof. apply (getByUserAndPost_exists userId postId db). Qed.

(** X11. Unliking through the handler, with a non-empty [userId].  If a
    like for the pair exists, the answer is 200 "Post unliked" and the likes
    table afterwards is the old one without that row.  If none exists, the
    store rejects the deletion: the answer is 500 "Failed to unlike post"
    and the store is unchanged. *)
Theorem unlike_outcomes (userId postId : string) (db : DB) :
  userId ≠ "" → unique_likes db →
  let request := Request.mk (Ok (likeHandlers.LikeBody.mk (Some userId))) in
  ((∃ l, l ∈ likes db ∧ Like.userId l = userId ∧ Like.postId l = postId) →
   likeHandlers.unlike postId request db
   = (jsonResponse (SuccessMessage "Post unliked") None,
      mkDB (users db) (posts db) (comments db)
        (filter (λ l, ¬ (Like.userId l = userId ∧ Like.postId l = postId))
           (likes db))))
  ∧
  ((∀ l, l ∈ likes db → ¬ (Like.userId l = userId ∧ Like.postId l = postId)) →
   likeHandlers.unlike postId request db
   = (jsonResponse (Failure "Failed to unlike post") (Some 500), db)).
Proof.
  intros Hne Huniq request.
  unfold likeHandlers.unlike, try_catch, bind, readE, read, ret. cbn -[truthy].
  rewrite truthy_Some by done. cbn.
  split.
  - intros Hex. apply getByUserAndPost_Some_iff in Hex as [l Hl].
    by rewrite (delete_present userId postId db l).
  - intros Hnone.
    rewrite delete_absent; [done|]. by apply getByUserAndPost_None.
Qed.

Lemma unlike_outcomes_witness :
  "u3" ≠ "" ∧ unique_likes sampleDB ∧
  likeHandlers.unlike "p1"
    (Request.mk (Ok (likeHandlers.LikeBody.mk (Some "u3")))) sampleDB
  = (jsonResponse (Failure "Failed to unlike post") (Some 500), sampleDB).
Proof.
  assert ("u3" ≠ "") as Hne by discriminate.
  split; [exact Hne|]. split; [exact sampleDB_unique_likes|].
  apply (proj2 (unlike_outcomes "u3" "p1" sampleDB Hne sampleDB_unique_likes)).
  intros l Hl [Hu Hp]. apply list_elem_of_In in Hl.
  destruct Hl as [<-|[<-|[<-|[]]]]; discriminate.
Defined.

(** X12. The toggle handler reports the state it leaves.  With a missing
    or empty [userId] the answer is 400 and the store is unchanged.  With a
    non-empty [userId], when the user likes the post, or the user and the
    post exist, the answer is 200; its [liked] flag is the opposite of what
    [hasLiked] was before the call and is what [hasLiked] is after it, and
    the message is "Post liked" or "Post unliked" accordingly.  When the
    user does not like the post and the user or the post does not exist,
    the store rejects the like: the answer is 500 and the store is
    unchanged. *)
Theorem toggle_handler_reports_the_new_state
    (userId : option string) (postId : string) (g : Gen) (db : DB) :
  unique_likes db →
  let request := Request.mk (Ok (likeHandlers.LikeBody.mk userId)) in
  (truthy userId = false →
   likeHandlers.toggle postId request g db
   = (jsonResponse (Failure "userId is required") (Some 400), db))
  ∧
  (∀ u, userId = Some u → u ≠ "" →
   (LikeService.hasLiked u postId db = true
    ∨ (userExists db u ∧ postExists db postId) →
    ∃ db',
      likeHandlers.toggle postId request g db
      = (jsonResponse
           (Success (likeHandlers.ToggleData.mk
                       (negb (LikeService.hasLiked u postId db))
                       (if LikeService.hasLiked u postId db
                        then "Post unliked" else "Post liked")))
           None, db') ∧
      LikeService.hasLiked u postId db' = negb (LikeService.hasLiked u postId db))
   ∧
   (LikeService.hasLiked u postId db = false →
    ¬ (userExists db u ∧ postExists db postId) →
    likeHandlers.toggle postId request g db
    = (jsonResponse (Failure "Failed to toggle like") (Some 500), db))).
Proof.
  intros Huniq request. split.
  - intros Hfalsy.
    unfold likeHandlers.toggle, try_catch, bind, readE, read, ret. cbn -[truthy].
    by rewrite Hfalsy.
  - intros u -> Hne.
    unfold likeHandlers.toggle, try_catch, bind, readE, read, ret.
    cbn -[truthy LikeService.toggle].
    rewrite truthy_Some by done. cbn -[LikeService.toggle].
    rewrite !hasLiked_getByUserAndPost.
    destruct (toggle_cases u postId g db Huniq)
      as [(l & Hread & ->)|[(Hread & Hu & Hp & ->)|(Hread & Hmissing & ->)]];
      rewrite Hread.
    + rewrite bool_decide_eq_true_2 by eauto. cbn. split; [|done].
      intros _. eexists. split; [done|].
      rewrite hasLiked_getByUserAndPost.
      erewrite getByUserAndPost_deleted by done.
      by rewrite bool_decide_eq_false_2 by by intros [? ?].
    + rewrite bool_decide_eq_false_2 by by intros [? ?]. cbn.
      split; [|by intros _ []].
      intros _. eexists. split; [done|].
      rewrite hasLiked_getByUserAndPost.
      erewrite getByUserAndPost_created;
        [|by apply getByUserAndPost_None|done].
      by rewrite bool_decide_eq_true_2 by eauto.
    + rewrite bool_decide_eq_false_2 by by intros [? ?]. cbn.
      split; [|done]. by intros [?|?].
Qed.

Lemma toggle_handler_reports_the_new_state_witness :
  unique_likes sampleDB ∧
  ∃ db',
    likeHandlers.toggle "p1"
      (Request.mk (Ok (likeHandlers.LikeBody.mk (Some "u1")))) sampleGen sampleDB
    = (jsonResponse (Success (likeHandlers.ToggleData.mk false "Post unliked")) None,
       db') ∧
    LikeService.hasLiked "u1" "p1" db' = false.
Proof.
  split; [exact sampleDB_unique_likes|].
  exact (proj1 (proj2 (toggle_handler_reports_the_new_state (Some "u1") "p1" sampleGen
                         sampleDB sampleDB_unique_likes)
                  "u1" eq_refl ltac:(discriminate))
           (or_introl eq_refl)).
Defined.

Lemma mkDB_eta (db : DB) :
  mkDB (users db) (posts db) (comments db) (likes db) = db.
Proof. by destruct db. Qed.

Lemma filter_not_key_snoc (userId postId : string) (g : Gen) (ls : list Like.t) :
  (∀ l, l ∈ ls → ¬ LikeService.userId_postId userId postId l) →
  filter (λ l, ¬ LikeService.userId_postId userId postId l)
    (ls ++ [Like.mk (gen_id g) userId postId (gen_now g)])
  = ls.
Proof.
  intros Hnone. rewrite filter_app, filter_all by done.
  rewrite filter_cons_False; [by rewrite filter_nil, app_nil_r|].
  intros Hnot. by apply Hnot.
Qed.

(** X13. Liking and then unliking leaves no trace.  On a store where an
    existing user does not like an existing post, the handler [like]
    answers 201, the handler [unlike] then answers 200, and the store
    afterwards is the store before, row for row.  Two calls of [toggle] in
    a row do the same. *)
Theorem like_then_unlike_restores_the_store
    (userId postId : string) (g g' : Gen) (db : DB) :
  userId ≠ "" → unique_likes db →
  userExists db userId → postExists db postId →
  (∀ l, l ∈ likes db → ¬ (Like.userId l = userId ∧ Like.postId l = postId)) →
  let request := Request.mk (Ok (likeHandlers.LikeBody.mk (Some userId))) in
  (∃ like db1,
     likeHandlers.like postId request g db
     = (jsonResponse (Success like) (Some 201), db1) ∧
     likeHandlers.unlike postId request db1
     = (jsonResponse (SuccessMessage "Post unliked") None, db))
  ∧
  (∃ r1 db1 r2,
     LikeService.toggle userId postId g db = (Ok r1, db1) ∧
     LikeService.toggle userId postId g' db1 = (Ok r2, db)).
Proof.
  intros Hne Huniq Huser Hpost Hnone request.
  assert (LikeService.getByUserAndPost userId postId db = None) as Hread
    by by apply getByUserAndPost_None.
  set (row := Like.mk (gen_id g) userId postId (gen_now g)).
  set (db1 := mkDB (users db) (posts db) (comments db) (likes db ++ [row])).
  assert (unique_likes db1) as Huniq1
    by by eapply (unique_likes_created userId postId g db).
  assert (LikeService.getByUserAndPost userId postId db1 = Some row) as Hread1.
  { eapply getByUserAndPost_created; [|done]. by apply getByUserAndPost_None. }
  assert (mkDB (users db1) (posts db1) (comments db1)
            (filter (λ l, ¬ LikeService.userId_postId userId postId l) (likes db1))
          = db) as Hback.
  { subst db1 row. cbn [users posts comments likes].
    rewrite filter_not_key_snoc by done. apply mkDB_eta. }
  split.
  - exists row, db1. split.
    + unfold likeHandlers.like, try_catch, bind, readE, read, ret. cbn -[truthy].
      rewrite truthy_Some by done. cbn.
      rewrite hasLiked_getByUserAndPost, Hread.
      rewrite bool_decide_eq_false_2 by (by intros [? ?]).
      by rewrite create_absent by done.
    + unfold likeHandlers.unlike, try_catch, bind, readE, read, ret. cbn -[truthy].
      rewrite truthy_Some by done. cbn.
      rewrite (delete_present userId postId db1 row) by done.
      by rewrite Hback.
  - exists (ToggleResult.mk true (Some row)), db1, (ToggleResult.mk false None).
    split; [by apply toggle_absent|].
    rewrite (toggle_present userId postId g' db1 row) by done.
    by rewrite Hback.
Qed.

Lemma like_then_unlike_restores_the_store_witness :
  "u3" ≠ "" ∧ unique_likes sampleDB ∧
  userExists sampleDB "u3" ∧ postExists sampleDB "p1" ∧
  ∃ r1 db1 r2,
    LikeService.toggle "u3" "p1" sampleGen sampleDB = (Ok r1, db1) ∧
    LikeService.toggle "u3" "p1" sampleGen db1 = (Ok r2, sampleDB).
Proof.
  assert ("u3" ≠ "") as Hne by discriminate.
  assert (userExists sampleDB "u3") as Hu by by_computation.
  assert (postExists sampleDB "p1") as Hp by by_computation.
  split; [exact Hne|]. split; [exact sampleDB_unique_likes|].
  split; [exact Hu|]. split; [exact Hp|].
  apply (like_then_unlike_restores_the_store "u3" "p1" sampleGen sampleGen sampleDB
           Hne sampleDB_unique_likes Hu Hp).
  intros l Hl [Hlu Hlp]. apply list_elem_of_In in Hl.
  destruct Hl as [<-|[<-|[<-|[]]]]; discriminate.
Defined.

Lemma likes_split (userId postId : string) (db : DB) (l0 : Like.t) :
  unique_likes db →
  LikeService.getByUserAndPost userId postId db = Some l0 →
  likes db ≡ₚ
    l0 :: filter (λ x, ¬ LikeService.userId_postId userId postId x) (likes db).
Proof.
  intros Huniq Hread.
  pose proof (delete_present userId postId db l0 Huniq Hread) as Hdel.
  unfold LikeService.delete in Hdel.
  destruct (list_find _ (likes db)) as [[i l']|] eqn:Hfind; [|done].
  injection Hdel as -> Hrest. rewrite <- Hrest.
  apply delete_Permutation. by apply list_find_Some in Hfind as [? _].
Qed.

Lemma other_pair (userId postId userId' postId' : string) (x : Like.t) :
  (userId', postId') ≠ (userId, postId) →
  LikeService.userId_postId userId' postId' x →
  ¬ LikeService.userId_postId userId postId x.
Proof. intros Hne [Hu Hp] [Hu' Hp']. apply Hne. congruence. Qed.

(** X14. A toggle moves exactly one like.  On a store with the uniqueness
    index, [toggle(userId, postId)] changes the like count of [postId] by
    one when it returns, up when it reports [liked] and down when not, and
    leaves it as it was when it throws; it returns, with the opposite of
    what [hasLiked] was, when the user likes the post or the user and the
    post exist.  In every case it leaves the count of every other post, the
    answer of [hasLiked] for every other pair, and the users, posts and
    comments as they were. *)
Theorem toggle_moves_exactly_one_like
    (userId postId : string) (g : Gen) (db : DB) :
  unique_likes db →
  let result := (LikeService.toggle userId postId g db).1 in
  let db' := (LikeService.toggle userId postId g db).2 in
  LikeService.countByPost postId db'
  = LikeService.countByPost postId db
    + match result with
      | Ok r => if ToggleResult.liked r then 1 else -1
      | Throw _ => 0
      end ∧
  (LikeService.hasLiked userId postId db = true
   ∨ (userExists db userId ∧ postExists db postId) →
   ∃ r, result = Ok r ∧
        ToggleResult.liked r = negb (LikeService.hasLiked userId postId db)) ∧
  (∀ postId', postId' ≠ postId →
     LikeService.countByPost postId' db' = LikeService.countByPost postId' db) ∧
  (∀ userId' postId', (userId', postId') ≠ (userId, postId) →
     LikeService.hasLiked userId' postId' db'
     = LikeService.hasLiked userId' postId' db) ∧
  users db' = users db ∧ posts db' = posts db ∧ comments db' = comments db.
Proof.
  intros Huniq. cbn zeta.
  rewrite hasLiked_getByUserAndPost.
  destruct (toggle_cases userId postId g db Huniq)
    as [(l0 & Hread & ->)|[(Hread & Huser & Hpost & ->)|(Hread & Hmissing & ->)]];
    rewrite Hread; cbn [fst snd ToggleResult.liked].
  - rewrite bool_decide_eq_true_2 by eauto.
    pose proof (likes_split userId postId db l0 Huniq Hread) as Hsplit.
    apply findUnique_Some in Hread as [_ [Hu Hp]].
    unfold LikeService.countByPost, Prisma.count. cbn [users posts comments likes].
    split_and!; try done.
    + rewrite Hsplit at 2. rewrite filter_cons_True by done. cbn. lia.
    + intros _. by eexists.
    + intros postId' Hne. rewrite Hsplit at 2.
      rewrite filter_cons_False by congruence. done.
    + intros userId' postId' Hne. unfold LikeService.hasLiked.
      apply bool_decide_ext. rewrite !findUnique_is_Some. cbn.
      split.
      * intros (x & Hx & Hkey). apply list_elem_of_filter in Hx as [_ Hx]. eauto.
      * intros (x & Hx & Hkey). exists x. split; [|done].
        apply list_elem_of_filter. split; [|done]. by eapply other_pair.
  - rewrite bool_decide_eq_false_2 by (by intros [? ?]).
    unfold LikeService.countByPost, Prisma.count. cbn [users posts comments likes].
    split_and!; try done.
    + rewrite filter_app, length_app, filter_cons_True by done. cbn. lia.
    + intros _. by eexists.
    + intros postId' Hne. rewrite filter_app, length_app.
      rewrite filter_cons_False by (cbn; congruence). cbn. lia.
    + intros userId' postId' Hne. unfold LikeService.hasLiked.
      apply bool_decide_ext. rewrite !findUnique_is_Some. cbn.
      split.
      * intros (x & Hx & Hkey). apply elem_of_app in Hx as [Hx|Hx]; [eauto|].
        apply list_elem_of_singleton in Hx as ->. exfalso.
        by apply (other_pair userId postId userId' postId' _ Hne Hkey).
      * intros (x & Hx & Hkey). exists x. split; [|done].
        apply elem_of_app. by left.
  - rewrite bool_decide_eq_false_2 by (by intros [? ?]).
    split_and!; try done; [lia|]. by intros [?|?].
Qed.

Lemma toggle_moves_exactly_one_like_witness :
  unique_likes sampleDB ∧
  LikeService.countByPost "p1" (LikeService.toggle "u1" "p1" sampleGen sampleDB).2
  = LikeService.countByPost "p1" sampleDB - 1.
Proof.
  split; [exact sampleDB_unique_likes|].
  exact (proj1 (toggle_moves_exactly_one_like "u1" "p1" sampleGen sampleDB
                  sampleDB_unique_likes)).
Defined.

Lemma like_create_keeps_unique (data : CreateLikeInput.t) (g : Gen) (db : DB) :
  unique_likes db → unique_likes (LikeService.create data g db).2.
Proof.
  intros Huniq. destruct data as [userId postId].
  destruct (LikeService.getByUserAndPost userId postId db) as [l|] eqn:Hread.
  - by rewrite (create_present userId postId g db l).
  - destruct (decide (userExists db userId ∧ postExists db postId))
      as [[Hu Hp]|Hmissing].
    + rewrite (create_absent userId postId g db) by done.
      by eapply (unique_likes_created userId postId g db).
    + by rewrite (create_dangling userId postId g db).
Qed.

Lemma like_delete_keeps_unique (userId postId : string) (db : DB) :
  unique_likes db → unique_likes (LikeService.delete userId postId db).2.
Proof.
  intros Huniq. unfold LikeService.delete.
  destruct (list_find _ (likes db)) as [[i l]|]; [|done].
  unfold unique_likes in *. cbn. rewrite list_fmap_delete.
  eapply sublist_NoDup; [done|apply sublist_delete].
Qed.

(** X15. The like handlers keep the uniqueness index.  Whatever the
    request, the store left by the handlers [like], [unlike] and [toggle]
    has no two likes of the same user for the same post, provided the store
    they started from had none. *)
Theorem like_handlers_keep_pairs_unique (db : DB) :
  unique_likes db →
  ∀ postId request g,
    unique_likes (likeHandlers.like postId request g db).2 ∧
    unique_likes (likeHandlers.unlike postId request db).2 ∧
    unique_likes (likeHandlers.toggle postId request g db).2.
Proof.
  intros Huniq postId [[body|e]] g;
    unfold likeHandlers.like, likeHandlers.unlike, likeHandlers.toggle,
      try_catch, bind, readE, read, ret;
    cbn -[LikeService.toggle]; [|done].
  destruct (negb (truthy (likeHandlers.LikeBody.userId body))); [done|].
  split_and!.
  - destruct (LikeService.hasLiked _ postId db); [done|].
    pose proof (like_create_keeps_unique
                  (CreateLikeInput.mk (default "" (likeHandlers.LikeBody.userId body))
                     postId) g db Huniq) as Hkeep.
    by destruct (LikeService.create _ g db) as [[like|e] db'].
  - pose proof (like_delete_keeps_unique
                  (default "" (likeHandlers.LikeBody.userId body)) postId db Huniq)
      as Hkeep.
    by destruct (LikeService.delete _ postId db) as [[like|e] db'].
  - pose proof (toggle_keeps_unique_likes
                  (default "" (likeHandlers.LikeBody.userId body)) postId g db Huniq)
      as Hkeep.
    by destruct (LikeService.toggle _ postId g db) as [[r|e] db'].
Qed.

Lemma like_handlers_keep_pairs_unique_witness :
  unique_likes sampleDB ∧
  unique_likes
    (likeHandlers.like "p2"
       (Request.mk (Ok (likeHandlers.LikeBody.mk (Some "u1")))) sampleGen sampleDB).2.
Proof.
  split; [exact sampleDB_unique_likes|].
  apply (like_handlers_keep_pairs_unique sampleDB sampleDB_unique_likes).
Defined.

(** ** Comments *)

Section Cascade.

Lemma repliesTo_ids (rows : list Comment.t) (c : Comment.t) :
  CommentService.repliesTo (Comment.id <$> rows) c
  ↔ ∃ p, p ∈ rows ∧ Comment.parentId c = Some (Comment.id p).
Proof.
  unfold CommentService.repliesTo. destruct (Comment.parentId c) as [pid|].
  - rewrite list_elem_of_fmap. split.
    + intros (p & -> & Hp). eauto.
    + intros (p & Hp & [= ->]). eauto.
  - split; [done|]. by intros (p & _ & ?).
Qed.

Lemma below_in_rows (rows : list Comment.t) (dead : list string) (c : Comment.t) :
  below rows dead c → c ∈ rows.
Proof. by destruct 1. Qed.

(** A chain that starts below the replies removed in one round starts
    below what that round started from. *)
Lemma below_round (rows : list Comment.t) (dead : list string) (c : Comment.t) :
  below (filter (λ c, ¬ CommentService.repliesTo dead c) rows)
        (Comment.id <$> filter (CommentService.repliesTo dead) rows) c →
  below rows dead c.
Proof.
  induction 1 as [c Hc Hreply|c p Hc _ IH Hparent].
  - apply list_elem_of_filter in Hc as [_ Hc].
    apply repliesTo_ids in Hreply as (o & Ho & Hparent).
    apply list_elem_of_filter in Ho as [Hdead Ho].
    apply (below_nested rows dead c o); [done| |done].
    by apply below_reply.
  - apply list_elem_of_filter in Hc as [_ Hc].
    by apply (below_nested rows dead c p).
Qed.

Lemma cascade_spec (rounds : nat) (dead : list string) (rows : list Comment.t) :
  (length rows ≤ rounds)%nat →
  let out := CommentService.cascade rounds dead rows in
  out `sublist_of` rows ∧
  (∀ c, c ∈ out → ¬ CommentService.repliesTo dead c) ∧
  (∀ c c', c ∈ rows → c ∉ out → c' ∈ out →
     Comment.parentId c' ≠ Some (Comment.id c)) ∧
  (∀ c, c ∈ rows → c ∉ out → below rows dead c).
Proof.
  revert dead rows. induction rounds as [|rounds IH]; intros dead rows Hlen; cbn zeta.
  - assert (rows = []) as -> by (apply length_zero_iff_nil; lia).
    cbn. split_and!; [done|intros c Hc|intros c c' Hc|intros c Hc];
      by apply elem_of_nil in Hc.
  - cbn [CommentService.cascade].
    destruct (filter (CommentService.repliesTo dead) rows) as [|r rs] eqn:Horphans.
    + split_and!; [done| |done..].
      intros c Hc Hreply. by eapply filter_nil_not_elem_of.
    + rewrite <- Horphans.
      set (kept := filter (λ c, ¬ CommentService.repliesTo dead c) rows).
      set (orphans := filter (CommentService.repliesTo dead) rows).
      assert (length kept < length rows)%nat as Hless.
      { assert (r ∈ orphans) as Hr by (subst orphans; rewrite Horphans; left).
        apply list_elem_of_filter in Hr as [Hdead Hr].
        apply (length_filter_lt _ rows r); [done|]. by intros Hnot. }
      destruct (IH (Comment.id <$> orphans) kept ltac:(lia))
        as (Hsub & Hnoreply & Hclosed & Hreason).
      set (out := CommentService.cascade rounds (Comment.id <$> orphans) kept) in *.
      assert (∀ c, c ∈ out → c ∈ kept) as Hout_kept.
      { intros c Hc. by eapply elem_of_sublist. }
      split_and!.
      * etrans; [done|]. apply sublist_filter.
      * intros c Hc. apply Hout_kept in Hc.
        by apply list_elem_of_filter in Hc as [? _].
      * intros c c' Hc Hgone Hc'.
        destruct (decide (CommentService.repliesTo dead c)) as [Hdead|Hlive].
        -- intros Hparent. apply (Hnoreply c' Hc').
           apply repliesTo_ids. exists c. split; [|done].
           by apply list_elem_of_filter.
        -- apply Hclosed; [|done..]. by apply list_elem_of_filter.
      * intros c Hc Hgone.
        destruct (decide (CommentService.repliesTo dead c)) as [Hdead|Hlive].
        -- by apply below_reply.
        -- apply below_round. apply Hreason; [|done].
           by apply list_elem_of_filter.
Qed.

Lemma cascade_survivors (dead : list string) (rows : list Comment.t) (c : Comment.t) :
  c ∈ CommentService.cascade (length rows) dead rows
  ↔ c ∈ rows ∧ ¬ below rows dead c.
Proof.
  destruct (cascade_spec (length rows) dead rows ltac:(lia))
    as (Hsub & Hnoreply & Hclosed & Hreason).
  split.
  - intros Hc. split; [by eapply elem_of_sublist|].
    intros Hbelow. revert Hc.
    induction Hbelow as [c Hc Hreply|c p Hc Hp IH Hparent]; intros Hout.
    + by apply (Hnoreply c).
    + destruct (decide (p ∈ CommentService.cascade (length rows) dead rows))
        as [Hpout|Hpgone]; [by apply IH|].
      by apply (Hclosed p c (below_in_rows _ _ _ Hp) Hpgone Hout).
  - intros [Hc Hnot].
    destruct (decide (c ∈ CommentService.cascade (length rows) dead rows));
      [done|].
    exfalso. by apply Hnot, Hreason.
Qed.

End Cascade.

Lemma delete_is_filter {A K} (f : A → K) `{EqDecision K} (l : list A) (i : nat) (x : A) :
  NoDup (f <$> l) → l !! i = Some x →
  base.delete i l = filter (λ y, f y ≠ f x) l.
Proof. intros. by apply delete_unique_key. Qed.

(** X16. Deleting a comment deletes what is below it, and nothing else.
    On a store with unique comment ids, [delete(id)] of an existing comment
    returns that comment; a comment is left afterwards exactly when it is
    not the deleted one and is neither a reply to it nor, through any chain
    of replies, below it; the comments left keep their order, and the
    users, posts and likes are untouched.  When no comment has the id, the
    call throws and the store is unchanged. *)
Theorem delete_removes_the_whole_subtree (id : string) (db : DB) :
  unique_comment_ids db →
  let others := filter (λ c, Comment.id c ≠ id) (comments db) in
  (∀ row, row ∈ comments db → Comment.id row = id →
     ∃ db',
       CommentService.delete id db = (Ok row, db') ∧
       (∀ c, c ∈ comments db' ↔ c ∈ others ∧ ¬ below others [id] c) ∧
       comments db' `sublist_of` comments db ∧
       users db' = users db ∧ posts db' = posts db ∧ likes db' = likes db)
  ∧
  ((∀ c, c ∈ comments db → Comment.id c ≠ id) →
   CommentService.delete id db = (Throw (PrismaError "P2025"), db)).
Proof.
  intros Huniq others. split.
  - intros row Hrow Hid.
    destruct (list_find_unique Comment.id (comments db) row Huniq Hrow)
      as (i & Hfind & Hi).
    unfold CommentService.delete. rewrite <- Hid, Hfind.
    eexists. split; [done|]. cbn [users posts comments likes].
    assert (base.delete i (comments db) = others) as ->.
    { rewrite (delete_is_filter Comment.id (comments db) i row) by done.
      subst others. by rewrite Hid. }
    split_and!; try done.
    + intros c. rewrite Hid. apply cascade_survivors.
    + transitivity others; [|apply sublist_filter].
      by destruct (cascade_spec (length others) [Comment.id row] others ltac:(lia))
        as (Hsub & _).
  - intros Hmissing. unfold CommentService.delete.
    destruct (list_find _ (comments db)) as [[i c]|] eqn:Hfind; [|done].
    apply list_find_Some in Hfind as (Hi & Hc & _).
    exfalso. apply (Hmissing c); [|done]. by eapply list_elem_of_lookup_2.
Qed.

Lemma delete_removes_the_whole_subtree_witness :
  unique_comment_ids sampleDB ∧ comment1 ∈ comments sampleDB ∧
  ∃ db', CommentService.delete "c1" sampleDB = (Ok comment1, db') ∧
         comments db' `sublist_of` comments sampleDB.
Proof.
  assert (comment1 ∈ comments sampleDB) as Hin by left.
  split; [exact sampleDB_unique_comment_ids|]. split; [exact Hin|].
  destruct (proj1 (delete_removes_the_whole_subtree "c1" sampleDB
                     sampleDB_unique_comment_ids) comment1 Hin eq_refl)
    as (db' & Hdel & _ & Hsub & _).
  exists db'. split; [exact Hdel|exact Hsub].
Defined.

(** The rows left when the row of a unique key is taken out. *)
Lemma elem_of_delete_unique {A K} (f : A → K) `{EqDecision K} (l : list A) (i : nat)
    (x y : A) :
  NoDup (f <$> l) → l !! i = Some x →
  y ∈ base.delete i l ↔ y ∈ l ∧ f y ≠ f x.
Proof.
  intros Hnd Hi. rewrite (delete_unique_key f l i x) by done.
  rewrite list_elem_of_filter. tauto.
Qed.

Lemma createReply_keeps_tree (parentId : string) (data : ReplyInput.t) (g : Gen) (db : DB) :
  comment_tree_ok db →
  (∀ c, c ∈ comments db → Comment.id c ≠ gen_id g) →
  comment_tree_ok (CommentService.createReply parentId data g db).2.
Proof.
  intros [Huniq Hparents] Hfresh.
  unfold CommentService.createReply, bind, read, throw.
  destruct (Prisma.findUnique (λ c, Comment.id c = parentId) (comments db))
    as [found|] eqn:Hfind; [|done].
  apply findUnique_Some in Hfind as [Hfound Hfid]. cbn -[CommentService.insert].
  destruct (insert_cases (ReplyInput.content data) (ReplyInput.authorId data)
              (Comment.postId found) (Some parentId) g db)
    as [(_ & _ & _ & ->)|(_ & ->)]; [|done].
  split.
  - unfold unique_comment_ids. cbn. apply NoDup_fmap_snoc; [done|].
    intros y Hy. cbn. by apply Hfresh.
  - cbn. intros c pid Hc Hpid. apply elem_of_app in Hc as [Hc|Hc].
    + destruct (Hparents c pid Hc Hpid) as (p & Hp & Hpid' & Hpost).
      exists p. split; [|done]. apply elem_of_app. by left.
    + apply list_elem_of_singleton in Hc as ->. cbn in Hpid. injection Hpid as <-.
      exists found. split; [|done]. apply elem_of_app. by left.
Qed.

Lemma update_keeps_tree (id : string) (data : UpdateCommentInput.t) (now : Z)
    (db : DB) :
  comment_tree_ok db → comment_tree_ok (CommentService.update id data now db).2.
Proof.
  intros [Huniq Hparents]. unfold CommentService.update.
  destruct (list_find _ (comments db)) as [[i c]|] eqn:Hfind; [|done].
  apply list_find_Some in Hfind as (Hi & _ & _). cbn.
  set (c' := CommentService.updated data now c).
  assert (c ∈ comments db) as Hc by by eapply list_elem_of_lookup_2.
  split.
  - unfold unique_comment_ids in *. cbn. apply NoDup_fmap_moved; [done|].
    intros y Hy. by apply (delete_avoids_key Comment.id (comments db) i c y).
  - cbn. intros x pid Hx Hpid.
    assert (∃ x0, x0 ∈ comments db ∧ Comment.parentId x0 = Some pid
                  ∧ Comment.postId x0 = Comment.postId x) as (x0 & Hx0 & Hpid0 & Hpost0).
    { apply elem_of_app in Hx as [Hx|Hx].
      - apply (elem_of_delete_unique Comment.id (comments db) i c x Huniq Hi)
          in Hx as [Hx _].
        by exists x.
      - apply list_elem_of_singleton in Hx as ->. by exists c. }
    destruct (Hparents x0 pid Hx0 Hpid0) as (p & Hp & Hpid' & Hpost).
    destruct (decide (Comment.id p = Comment.id c)) as [Heq|Hne].
    + exists c'. split; [apply elem_of_app; right; by left|].
      assert (p = c) as -> by by apply (NoDup_fmap_eq Comment.id (comments db)).
      split; [done|]. cbn. congruence.
    + exists p. split; [|split; [done|congruence]].
      apply elem_of_app. left.
      by apply (elem_of_delete_unique Comment.id (comments db) i c).
Qed.

Lemma delete_keeps_tree (id : string) (db : DB) :
  comment_tree_ok db → comment_tree_ok (CommentService.delete id db).2.
Proof.
  intros [Huniq Hparents]. unfold CommentService.delete.
  destruct (list_find _ (comments db)) as [[i row]|] eqn:Hfind; [|done].
  apply list_find_Some in Hfind as (Hi & Hid & _). cbn.
  set (rest := base.delete i (comments db)).
  destruct (cascade_spec (length rest) [id] rest ltac:(lia))
    as (Hsub & Hnoreply & Hclosed & _).
  set (out := CommentService.cascade (length rest) [id] rest) in *.
  assert (out `sublist_of` comments db) as Hsub'.
  { transitivity rest; [done|]. apply sublist_delete. }
  split.
  - unfold unique_comment_ids in *. cbn.
    eapply sublist_NoDup; [done|]. by apply fmap_sublist.
  - cbn. intros c pid Hc Hpid.
    destruct (Hparents c pid (elem_of_sublist _ _ _ Hc Hsub') Hpid)
      as (p & Hp & Hpid' & Hpost).
    exists p. split; [|done].
    destruct (decide (p ∈ out)) as [|Hgone]; [done|]. exfalso.
    destruct (decide (Comment.id p = id)) as [Hroot|Hother].
    + apply (Hnoreply c Hc). unfold CommentService.repliesTo.
      rewrite Hpid. apply list_elem_of_singleton. congruence.
    + assert (p ∈ rest) as Hprest.
      { subst rest. rewrite (delete_is_filter Comment.id (comments db) i row) by done.
        apply list_elem_of_filter. split; [congruence|done]. }
      apply (Hclosed p c Hprest Hgone Hc). congruence.
Qed.

(** X17. Replies, edits and deletions keep the comments a forest.  On a
    store where comment ids are unique and the parent of every reply exists
    and is on the same post, that is still so after [createReply] (given an
    id that no comment has yet), after [update], and after [delete] with its
    cascade: no reply is left without its parent, and none is on another
    post than its parent. *)
Theorem replies_edits_and_deletions_keep_the_forest (db : DB) :
  comment_tree_ok db →
  (∀ parentId data g,
     (∀ c, c ∈ comments db → Comment.id c ≠ gen_id g) →
     comment_tree_ok (CommentService.createReply parentId data g db).2) ∧
  (∀ id data now, comment_tree_ok (CommentService.update id data now db).2) ∧
  (∀ id, comment_tree_ok (CommentService.delete id db).2).
Proof.
  intros Hok. split_and!.
  - intros parentId data g Hfresh. by apply createReply_keeps_tree.
  - intros id data now. by apply update_keeps_tree.
  - intros id. by apply delete_keeps_tree.
Qed.

Lemma sampleDB_comment_tree_ok : comment_tree_ok sampleDB.
Proof.
  split; [exact sampleDB_unique_comment_ids|].
  intros c pid Hc Hpid. apply list_elem_of_In in Hc.
  destruct Hc as [<-|[<-|[<-|[]]]]; cbn in Hpid; try discriminate;
    injection Hpid as <-; exists comment1; (split; [left|split; reflexivity]).
Defined.

Lemma replies_edits_and_deletions_keep_the_forest_witness :
  comment_tree_ok sampleDB ∧
  comment_tree_ok (CommentService.delete "c1" sampleDB).2.
Proof.
  split; [exact sampleDB_comment_tree_ok|].
  apply (replies_edits_and_deletions_keep_the_forest sampleDB sampleDB_comment_tree_ok).
Defined.

(** X18. The comment handler [create] does not check the post of the
    parent.  A request of an existing author that names as [parentId] a
    comment of another post than the existing one in the path is answered
    201, and the reply is stored on the post of the path: the store then
    holds a reply that is not on the post of its parent. *)
Theorem comment_create_accepts_a_parent_on_another_post
    (postId content authorId : string) (parent : Comment.t) (g : Gen) (db : DB) :
  comment_tree_ok db →
  parent ∈ comments db → Comment.postId parent ≠ postId →
  userExists db authorId → postExists db postId →
  (∀ c, c ∈ comments db → Comment.id c ≠ gen_id g) →
  content ≠ "" → authorId ≠ "" →
  ∃ reply db',
    commentHandlers.create postId
      (Request.mk (Ok (commentHandlers.CommentBody.mk (Some content) (Some authorId)
                         (Some (Comment.id parent))))) g db
    = (jsonResponse (Success reply) (Some 201), db') ∧
    comments db' = comments db ++ [CommentWithAuthor.comment reply] ∧
    Comment.parentId (CommentWithAuthor.comment reply) = Some (Comment.id parent) ∧
    Comment.postId (CommentWithAuthor.comment reply) = postId ∧
    ¬ comment_tree_ok db'.
Proof.
  intros [Huniq Hparents] Hparent Hpost Huser Hpostex Hfresh Hc Ha.
  unfold commentHandlers.create, try_catch, bind, readE, read, ret. cbn -[truthy].
  rewrite !truthy_Some by done. cbn -[CommentService.insert].
  unfold CommentService.create. cbn -[CommentService.insert].
  destruct (insert_cases content authorId postId (Some (Comment.id parent)) g db)
    as [(_ & _ & _ & ->)|(Hmissing & _)].
  2:{ exfalso. apply Hmissing. split_and!; try done.
      cbn. unfold commentExists. by apply list_elem_of_fmap_2. }
  do 2 eexists. split; [done|]. cbn. split_and!; try done.
  intros [Huniq' Hparents'].
  destruct (Hparents' (Comment.mk (gen_id g) content authorId postId
                         (Some (Comment.id parent)) (gen_now g) (gen_now g))
              (Comment.id parent)) as (p & Hp & Hpid & Hppost).
  { cbn. apply elem_of_app. right. by left. }
  { done. }
  cbn in Hp, Hppost. apply Hpost. rewrite <- Hppost. f_equal.
  apply elem_of_app in Hp as [Hp|Hp].
  - symmetry. by apply (NoDup_fmap_eq Comment.id (comments db)).
  - apply list_elem_of_singleton in Hp as ->. cbn in Hpid.
    exfalso. by apply (Hfresh parent).
Qed.

Lemma comment_create_accepts_a_parent_on_another_post_witness :
  comment_tree_ok sampleDB ∧ comment1 ∈ comments sampleDB ∧
  userExists sampleDB "u2" ∧ postExists sampleDB "p2" ∧
  ∃ reply db',
    commentHandlers.create "p2"
      (Request.mk (Ok (commentHandlers.CommentBody.mk (Some "Hi") (Some "u2")
                         (Some "c1")))) sampleGen sampleDB
    = (jsonResponse (Success reply) (Some 201), db') ∧
    ¬ comment_tree_ok db'.
Proof.
  assert (comment1 ∈ comments sampleDB) as Hin by left.
  assert (userExists sampleDB "u2") as Hu by by_computation.
  assert (postExists sampleDB "p2") as Hp by by_computation.
  split; [exact sampleDB_comment_tree_ok|]. split; [exact Hin|].
  split; [exact Hu|]. split; [exact Hp|].
  destruct (comment_create_accepts_a_parent_on_another_post "p2" "Hi" "u2"
              comment1 sampleGen sampleDB sampleDB_comment_tree_ok Hin)
    as (reply & db' & Hrun & _ & _ & _ & Hbad);
    [discriminate|exact Hu|exact Hp| |discriminate|discriminate|].
  - intros c Hc. apply list_elem_of_In in Hc.
    destruct Hc as [<-|[<-|[<-|[]]]]; discriminate.
  - exists reply, db'. split; [exact Hrun|exact Hbad].
Defined.

(** X19. The reply handler.  For a parsed body: a missing or empty
    [content] or [authorId] is answered 400; otherwise, when no comment has
    the id of the path, the answer is 404 "Parent comment not found".  When
    the parent exists, and so do the author and the post of the parent, the
    answer is 201 with the author and one comment is appended, a reply to
    that parent on the parent's post.  When the parent exists but the
    author or the post of the parent does not, the store rejects the reply
    and the answer is 500.  Except for the 201, the store is unchanged. *)
Theorem reply_handler_outcomes
    (parentId : string) (body : commentHandlers.ReplyBody.t) (g : Gen) (db : DB) :
  unique_comment_ids db →
  let request := Request.mk (Ok body) in
  (truthy (commentHandlers.ReplyBody.content body) = false
   ∨ truthy (commentHandlers.ReplyBody.authorId body) = false →
   commentHandlers.createReply parentId request g db
   = (jsonResponse (Failure "Content and authorId are required") (Some 400), db))
  ∧
  (∀ content authorId,
     body = commentHandlers.ReplyBody.mk (Some content) (Some authorId) →
     content ≠ "" → authorId ≠ "" →
     ((∀ c, c ∈ comments db → Comment.id c ≠ parentId) →
      commentHandlers.createReply parentId request g db
      = (jsonResponse (Failure "Parent comment not found") (Some 404), db))
     ∧
     (∀ parent, parent ∈ comments db → Comment.id parent = parentId →
      (userExists db authorId → postExists db (Comment.postId parent) →
       ∃ author,
         let reply := Comment.mk (gen_id g) content authorId
                        (Comment.postId parent) (Some parentId)
                        (gen_now g) (gen_now g) in
         User.id author = authorId ∧
         commentHandlers.createReply parentId request g db
         = (jsonResponse (Success (CommentWithAuthor.mk reply (Some author)))
              (Some 201),
            mkDB (users db) (posts db) (comments db ++ [reply]) (likes db)))
      ∧
      (¬ (userExists db authorId ∧ postExists db (Comment.postId parent)) →
       commentHandlers.createReply parentId request g db
       = (jsonResponse (Failure "Failed to create reply") (Some 500), db)))).
Proof.
  intros Huniq request. split.
  - intros Hfalsy.
    unfold commentHandlers.createReply, try_catch, bind, readE, read, ret.
    cbn -[truthy].
    by destruct Hfalsy as [-> | ->]; rewrite ?orb_true_r.
  - intros content authorId -> Hc Ha.
    unfold commentHandlers.createReply, try_catch, bind, readE, read, ret.
    cbn -[truthy CommentService.getById CommentService.createReply].
    rewrite !truthy_Some by done.
    cbn -[CommentService.getById CommentService.createReply].
    split.
    + intros Hmissing. unfold CommentService.getById.
      assert (Prisma.findUnique (λ c, Comment.id c = parentId) (comments db) = None)
        as -> by by apply findUnique_None.
      done.
    + intros parent Hparent Hid. subst parentId.
      unfold CommentService.getById, CommentService.createReply, bind, read, throw.
      rewrite (findUnique_unique Comment.id (comments db) parent) by done.
      cbn -[CommentService.insert].
      rewrite (findUnique_unique Comment.id (comments db) parent) by done.
      cbn -[CommentService.insert].
      destruct (insert_cases content authorId (Comment.postId parent)
                  (Some (Comment.id parent)) g db)
        as [(Hu & Hp & _ & ->)|(Hmissing & ->)].
      * split; [|by intros []]. intros _ _.
        destruct (userById_exists db authorId Hu) as (author & Hfound & Hauthor).
        exists author. cbn. rewrite Hfound. done.
      * split; [|done]. intros Hu Hp. exfalso. apply Hmissing. split_and!; try done.
        cbn. unfold commentExists. by apply list_elem_of_fmap_2.
Qed.

Lemma reply_handler_outcomes_witness :
  unique_comment_ids sampleDB ∧
  commentHandlers.createReply "nope"
    (Request.mk (Ok (commentHandlers.ReplyBody.mk (Some "Hi") (Some "u1"))))
    sampleGen sampleDB
  = (jsonResponse (Failure "Parent comment not found") (Some 404), sampleDB).
Proof.
  split; [exact sampleDB_unique_comment_ids|].
  apply (proj1 (proj2 (reply_handler_outcomes "nope"
                  (commentHandlers.ReplyBody.mk (Some "Hi") (Some "u1"))
                  sampleGen sampleDB sampleDB_unique_comment_ids)
                 "Hi" "u1" eq_refl ltac:(discriminate) ltac:(discriminate))).
  intros c Hc. apply list_elem_of_In in Hc.
  destruct Hc as [<-|[<-|[<-|[]]]]; discriminate.
Defined.

Lemma length_filter_split {A} (P Q : A → Prop)
    `{∀ x, Decision (P x)} `{∀ x, Decision (Q x)} (l : list A) :
  length (filter P l)
  = (length (filter (λ x, P x ∧ Q x) l) + length (filter (λ x, P x ∧ ¬ Q x) l))%nat.
Proof.
  induction l as [|a l IH]; [done|].
  rewrite !filter_cons.
  repeat case_decide; cbn; try lia; exfalso; tauto.
Qed.

(** X20. Counts and lists.  In the hydrated view of a post, the like count
    is the length of the [likes] list and is what the like [countByPost]
    returns; the comment count is what the comment [countByPost] returns and
    counts the replies too, so it is the length of the [comments] list,
    which holds top-level comments only, plus the number of comments of the
    post that have a parent.  For a comment returned by [getById],
    [countReplies] is the length of its [replies] list. *)
Theorem counts_and_lists (id : string) (db : DB) :
  (∀ pf, PostService.getById id db = Some pf →
     Count.likes (PostFull._count pf) = Z.of_nat (length (PostFull.likes pf)) ∧
     Count.likes (PostFull._count pf) = LikeService.countByPost id db ∧
     Count.comments (PostFull._count pf) = CommentService.countByPost id db ∧
     Count.comments (PostFull._count pf)
     = Z.of_nat (length (PostFull.comments pf))
       + Z.of_nat (length (filter (λ c, Comment.postId c = id
                                        ∧ ¬ Comment.parentId c = None)
                             (comments db))))
  ∧
  (∀ c, CommentService.getById id db = Some c →
     CommentService.countReplies id db
     = Z.of_nat (length (CommentWithReplies.replies c))).
Proof.
  split.
  - intros pf. unfold PostService.getById.
    destruct (Prisma.findUnique (λ p, Post.id p = id) (posts db)) as [p|] eqn:Hfind;
      [|done].
    apply findUnique_Some in Hfind as [_ Hid]. subst id.
    intros [= <-]. cbn -[Prisma.rowsWhere Prisma.count].
    unfold LikeService.countByPost, CommentService.countByPost.
    split_and!; try done.
    rewrite length_fmap, merge_sort_Permutation.
    unfold Prisma.count.
    rewrite (length_filter_split (λ c, Comment.postId c = Post.id p)
               (λ c, Comment.parentId c = None)).
    lia.
  - intros c. unfold CommentService.getById.
    destruct (Prisma.findUnique (λ c, Comment.id c = id) (comments db)) as [row|] eqn:Hfind;
      [|done].
    apply findUnique_Some in Hfind as [_ Hid]. subst id.
    intros [= <-]. cbn -[Prisma.rowsWhere Prisma.count].
    unfold repliesOf, CommentService.countReplies.
    rewrite length_fmap. apply count_rowsWhere.
Qed.

Lemma counts_and_lists_witness :
  ∃ pf, PostService.getById "p1" sampleDB = Some pf ∧
        Count.comments (PostFull._count pf) = 3 ∧
        length (PostFull.comments pf) = 1%nat.
Proof.
  eexists. split; [reflexivity|]. split; [|reflexivity].
  exact (proj1 (proj2 (proj2 (proj1 (counts_and_lists "p1" sampleDB) _ eq_refl)))).
Defined.

(** ** Posts *)

Lemma sampleDB_unique_post_ids : unique_post_ids sampleDB.
Proof. unfold unique_post_ids. by_computation. Defined.

(** X21. [setPublished] puts a post into the feed and takes it out.  On a
    store with unique post ids, [setPublished(id, published)] of an
    existing post at time [now] returns the post with its flag set, its
    [updatedAt] set to [now] and every other field as it was; the old row
    is removed, the new one is stored last, and nothing else is touched.
    Afterwards, creation times being pairwise distinct and the limit
    keeping the queries within the safe integers, the post is on some page
    of the feed exactly when [published] is true. *)
Theorem setPublished_decides_feed_membership
    (published : bool) (now : Z) (db : DB) (p0 : Post.t) (limit : Z) :
  unique_post_ids db → distinct_times db → p0 ∈ posts db →
  0 < limit → Z.of_nat (length (posts db)) + limit ≤ MAX_SAFE_INTEGER →
  let p' := Post.mk (Post.id p0) (Post.title p0) (Post.content p0)
              (Post.imageUrl p0) published (Post.authorId p0)
              (Post.createdAt p0) now in
  ∃ db',
    PostService.setPublished (Post.id p0) published now db = (Ok p', db') ∧
    db' = mkDB (users db)
            (filter (λ p, Post.id p ≠ Post.id p0) (posts db) ++ [p'])
            (comments db) (likes db) ∧
    ((∃ page r pw, 0 < page ∧
        PostService.getFeed (explicit page limit) db' = Ok r ∧
        pw ∈ PaginatedResponse.data r ∧
        Post.id (PostWithCounts.post pw) = Post.id p0)
     ↔ published = true).
Proof.
  intros Hids _ Hp0 Hl Hsafe p'.
  destruct (list_find_unique Post.id (posts db) p0 Hids Hp0) as (i & Hfind & Hi).
  eexists.
  unfold PostService.setPublished, PostService.updateRow. rewrite Hfind.
  rewrite (delete_unique_key Post.id (posts db) i p0) by done.
  split; [done|]. split; [done|].
  set (db' := mkDB _ _ _ _).
  assert (∀ q, q ∈ posts db' → Post.id q = Post.id p0 → q = p') as Honly.
  { intros q Hq Hid. subst db'. cbn in Hq. apply elem_of_app in Hq as [Hq|Hq].
    - by apply list_elem_of_filter in Hq as [? _].
    - by apply list_elem_of_singleton in Hq. }
  assert (p' ∈ posts db') as Hp'.
  { subst db'. cbn. apply elem_of_app. right. by left. }
  assert (length (posts db') ≤ length (posts db))%nat as Hlen.
  { subst db'. cbn. rewrite length_app. cbn.
    rewrite <- (delete_unique_key Post.id (posts db) i p0) by done.
    rewrite length_delete by done.
    apply lookup_lt_Some in Hi. lia. }
  pose proof (length_postsAll (Some (PostFilters.mk None (Some true) None)) db').
  split.
  - intros (page & r & pw & Hpage & Hr & Hpw & Hid).
    assert (pw ∈ postsAll (Some (PostFilters.mk None (Some true) None)) db') as Hall.
    { apply (on_some_page db' PostWithCounts.t (λ ps, PostService.getFeed ps db')
               _ limit pw (posts_getFeed db') Hl); [lia|]. eauto. }
    apply elem_of_postsAll in Hall as (q & Hq & -> & Hw).
    apply where_spec in Hw as (_ & Hpub & _). cbn in Hid.
    rewrite (Honly q Hq Hid) in Hpub. by apply (Hpub true).
  - intros ->.
    assert (PostService.withCounts db' p'
            ∈ postsAll (Some (PostFilters.mk None (Some true) None)) db') as Hall.
    { apply elem_of_postsAll. exists p'. split_and!; [done..|].
      apply where_spec. cbn. split_and!; [done| |done]. by intros ? [= <-]. }
    apply (on_some_page db' PostWithCounts.t (λ ps, PostService.getFeed ps db')
             _ limit _ (posts_getFeed db') Hl) in Hall
      as (page & r & Hpage & Hr & Hpw); [|lia].
    exists page, r, (PostService.withCounts db' p'). by split_and!.
Qed.

Lemma setPublished_decides_feed_membership_witness :
  unique_post_ids sampleDB ∧ distinct_times sampleDB ∧ post2 ∈ posts sampleDB ∧
  0 < 10 ∧ Z.of_nat (length (posts sampleDB)) + 10 ≤ MAX_SAFE_INTEGER ∧
  ∃ p' db', PostService.setPublished "p2" true 100 sampleDB = (Ok p', db') ∧
            Post.published p' = true ∧ Post.updatedAt p' = 100.
Proof.
  assert (post2 ∈ posts sampleDB) as Hin by (right; left).
  split; [exact sampleDB_unique_post_ids|]. split; [exact sampleDB_distinct_times|].
  split; [exact Hin|]. split; [lia|]. split; [by vm_compute|].
  destruct (setPublished_decides_feed_membership true 100 sampleDB post2 10
              sampleDB_unique_post_ids sampleDB_distinct_times Hin ltac:(lia)
              ltac:(by vm_compute))
    as (db' & Hrun & _).
  eexists _, db'. split; [exact Hrun|]. split; reflexivity.
Defined.

(** X22. Creating a post through the handler.  A body whose [title],
    [content] or [authorId] is missing or empty is answered 400 and the
    store is unchanged.  Otherwise, when the author exists, the answer is
    201 with the author: one post is appended, with the given fields and
    the [published] flag of the body, or the column default when the body
    has none; if no older post has the generated id, the handler [getById]
    of that id then answers 200 with that post.  When no user has the
    [authorId], the store rejects the post: the answer is 500 and the store
    is unchanged. *)
Theorem post_create_outcomes
    (publishedDefault : bool) (body : CreatePostInput.t) (g : Gen) (db : DB) :
  let request := Request.mk (Ok body) in
  (truthy (CreatePostInput.title body) = false
   ∨ truthy (CreatePostInput.content body) = false
   ∨ truthy (CreatePostInput.authorId body) = false →
   postHandlers.create publishedDefault request g db
   = (jsonResponse (Failure "Title, content, and authorId are required") (Some 400),
      db))
  ∧
  (∀ title content authorId,
     CreatePostInput.title body = Some title → title ≠ "" →
     CreatePostInput.content body = Some content → content ≠ "" →
     CreatePostInput.authorId body = Some authorId → authorId ≠ "" →
     let row := Post.mk (gen_id g) title content (CreatePostInput.imageUrl body)
                  (default publishedDefault (CreatePostInput.published body))
                  authorId (gen_now g) (gen_now g) in
     let db' := mkDB (users db) (posts db ++ [row]) (comments db) (likes db) in
     (userExists db authorId →
      (∃ author,
         User.id author = authorId ∧
         postHandlers.create publishedDefault request g db
         = (jsonResponse (Success (PostWithAuthor.mk row (Some author)))
              (Some 201), db'))
      ∧
      ((∀ p, p ∈ posts db → Post.id p ≠ gen_id g) →
       ∃ pf, postHandlers.getById (gen_id g) db'
             = (jsonResponse (Success pf) None, db') ∧
             PostFull.post pf = row))
     ∧
     (¬ userExists db authorId →
      postHandlers.create publishedDefault request g db
      = (jsonResponse (Failure "Failed to create post") (Some 500), db))).
Proof.
  intros request. split.
  - intros Hfalsy.
    unfold postHandlers.create, try_catch, bind, readE, read, ret. cbn -[truthy].
    by destruct Hfalsy as [-> | [-> | ->]]; rewrite ?orb_true_r.
  - intros title content authorId Ht Htne Hc Hcne Ha Hane row db'.
    assert (postHandlers.create publishedDefault request g db
            = if decide (userExists db authorId)
              then (jsonResponse
                      (Success (PostWithAuthor.mk row (userById db authorId)))
                      (Some 201), db')
              else (jsonResponse (Failure "Failed to create post") (Some 500), db))
      as Hrun.
    { unfold postHandlers.create, try_catch, bind, readE, read, ret. cbn -[truthy].
      rewrite Ht, Hc, Ha, !truthy_Some by done. cbn.
      unfold PostService.create. rewrite Ht, Hc, Ha.
      by destruct (decide (userExists db authorId)). }
    rewrite Hrun. split.
    + intros Hu. rewrite decide_True by done. split.
      * destruct (userById_exists db authorId Hu) as (author & -> & Hid).
        by exists author.
      * intros Hfresh.
        unfold postHandlers.getById, try_catch, bind, read, ret, PostService.getById.
        assert (Prisma.findUnique (λ p, Post.id p = gen_id g) (posts db') = Some row)
          as ->; [|by eexists].
        subst db'. cbn. apply findUnique_snoc_new; [|done].
        intros p Hp. by apply Hfresh.
    + intros Hmissing. by rewrite decide_False.
Qed.

Lemma post_create_outcomes_witness :
  postHandlers.create false
    (Request.mk (Ok (CreatePostInput.mk (Some "T") (Some "") None None (Some "u1"))))
    sampleGen sampleDB
  = (jsonResponse (Failure "Title, content, and authorId are required") (Some 400),
     sampleDB)
  ∧
  userExists sampleDB "u1" ∧
  ∃ post db',
    postHandlers.create false
      (Request.mk (Ok (CreatePostInput.mk (Some "T") (Some "C") None None (Some "u1"))))
      sampleGen sampleDB
    = (jsonResponse (Success post) (Some 201), db') ∧
    ∃ author, PostWithAuthor.author post = Some author ∧ User.id author = "u1".
Proof.
  assert (userExists sampleDB "u1") as Hu by by_computation.
  split.
  - apply (proj1 (post_create_outcomes false
                    (CreatePostInput.mk (Some "T") (Some "") None None (Some "u1"))
                    sampleGen sampleDB)).
    right. left. reflexivity.
  - split; [exact Hu|].
    destruct (proj1 (proj1 (proj2 (post_create_outcomes false
                (CreatePostInput.mk (Some "T") (Some "C") None None (Some "u1"))
                sampleGen sampleDB)
              "T" "C" "u1" eq_refl ltac:(discriminate) eq_refl ltac:(discriminate)
              eq_refl ltac:(discriminate)) Hu))
      as (author & Hid & Hrun).
    eexists _, _. split; [exact Hrun|]. by exists author.
Defined.

(** ** Unknown ids *)

(** X23. An id that no row has.  The handlers that read one row answer 404:
    the user [getById] and [getByUsername], the post [getById], the comment
    [getById].  The handlers that change one row do not: the post [update]
    and [setPublished], the comment [update] (given a content) and
    [delete] answer 500, because the store rejects the write, and the user
    [update] answers 500 unless its own check answers 409 first.  In every
    case the store is unchanged. *)
Theorem unknown_ids_read_404_and_write_500 (id : string) (db : DB) :
  ((∀ u, u ∈ users db → User.id u ≠ id) →
   userHandlers.getById id db
   = (jsonResponse (Failure "User not found") (Some 404), db) ∧
   ∀ body now, ∃ response,
     userHandlers.update id (Request.mk (Ok body)) now db = (response, db) ∧
     (Response.status response = 409
      ∨ response = jsonResponse (Failure "Failed to update user") (Some 500)))
  ∧
  ((∀ u, u ∈ users db → User.username u ≠ id) →
   userHandlers.getByUsername id db
   = (jsonResponse (Failure "User not found") (Some 404), db))
  ∧
  ((∀ p, p ∈ posts db → Post.id p ≠ id) →
   postHandlers.getById id db
   = (jsonResponse (Failure "Post not found") (Some 404), db) ∧
   (∀ body now, postHandlers.update id (Request.mk (Ok body)) now db
                = (jsonResponse (Failure "Failed to update post") (Some 500), db)) ∧
   (∀ published now,
      postHandlers.setPublished id published now db
      = (jsonResponse (Failure "Failed to update post") (Some 500), db)))
  ∧
  ((∀ c, c ∈ comments db → Comment.id c ≠ id) →
   commentHandlers.getById id db
   = (jsonResponse (Failure "Comment not found") (Some 404), db) ∧
   (∀ content now, content ≠ "" →
      commentHandlers.update id
        (Request.mk (Ok (commentHandlers.ContentBody.mk (Some content)))) now db
      = (jsonResponse (Failure "Failed to update comment") (Some 500), db)) ∧
   commentHandlers.delete id db
   = (jsonResponse (Failure "Failed to delete comment") (Some 500), db)).
Proof.
  assert (∀ (A : Type) (P : A → Prop) `{∀ x, Decision (P x)} (l : list A),
            (∀ x, x ∈ l → ¬ P x) → list_find P l = None) as Hnofind.
  { intros A P ? l Hl. apply list_find_None, Forall_forall. done. }
  split_and!.
  - intros Hmissing. split.
    + unfold userHandlers.getById, try_catch, bind, read, ret, UserService.getById.
      assert (Prisma.findUnique (λ u, User.id u = id) (users db) = None) as ->
        by by apply findUnique_None.
      done.
    + intros body now.
      unfold userHandlers.update, try_catch, bind, readE, read, ret. cbn.
      destruct (if truthy (UpdateUserInput.email body) then _ else false);
        [eexists; split; [done|by left]|].
      destruct (if truthy (UpdateUserInput.username body) then _ else false);
        [eexists; split; [done|by left]|].
      unfold UserService.update. rewrite Hnofind by done.
      eexists; split; [done|by right].
  - intros Hmissing.
    unfold userHandlers.getByUsername, try_catch, bind, read, ret,
      UserService.getByUsername.
    assert (Prisma.findUnique (λ u, User.username u = id) (users db) = None) as ->
      by by apply findUnique_None.
    done.
  - intros Hmissing. split_and!.
    + unfold postHandlers.getById, try_catch, bind, read, ret, PostService.getById.
      assert (Prisma.findUnique (λ p, Post.id p = id) (posts db) = None) as ->
        by by apply findUnique_None.
      done.
    + intros body now.
      unfold postHandlers.update, try_catch, bind, readE, read, ret,
        PostService.update, PostService.updateRow, bind. cbn.
      by rewrite Hnofind by done.
    + intros published now.
      unfold postHandlers.setPublished, try_catch, bind, readE, read, ret,
        PostService.setPublished, PostService.updateRow. cbn.
      by rewrite Hnofind by done.
  - intros Hmissing. split_and!.
    + unfold commentHandlers.getById, try_catch, bind, read, ret,
        CommentService.getById.
      assert (Prisma.findUnique (λ c, Comment.id c = id) (comments db) = None) as ->
        by by apply findUnique_None.
      done.
    + intros content now Hne.
      unfold commentHandlers.update, try_catch, bind, readE, read, ret.
      cbn -[truthy CommentService.update].
      rewrite truthy_Some by done.
      unfold CommentService.update. cbn -[list_find].
      by rewrite Hnofind by done.
    + unfold commentHandlers.delete, try_catch, bind, read, ret,
        CommentService.delete. cbn -[list_find].
      by rewrite Hnofind by done.
Qed.

Lemma unknown_ids_read_404_and_write_500_witness :
  (∀ p, p ∈ posts sampleDB → Post.id p ≠ "nope") ∧
  postHandlers.setPublished "nope" true 100 sampleDB
  = (jsonResponse (Failure "Failed to update post") (Some 500), sampleDB).
Proof.
  assert (∀ p, p ∈ posts sampleDB → Post.id p ≠ "nope") as Hmissing.
  { intros p Hp. apply list_elem_of_In in Hp.
    destruct Hp as [<-|[<-|[]]]; discriminate. }
  split; [exact Hmissing|].
  apply (proj1 (proj2 (proj2 (unknown_ids_read_404_and_write_500 "nope" sampleDB)))
           Hmissing).
Defined.

(** ** Comment listings and the order of pages *)

Lemma elem_of_repliesOf (db : DB) (o : option SortOrder) (row : Comment.t)
    (r : CommentWithAuthor.t) :
  r ∈ CommentWithReplies.replies (withReplies db o row)
  ↔ ∃ rr, rr ∈ comments db ∧ Comment.parentId rr = Some (Comment.id row)
          ∧ r = withAuthor db rr.
Proof.
  unfold withReplies, repliesOf; cbn -[Prisma.rowsWhere].
  rewrite list_elem_of_fmap. split.
  - intros (rr & -> & Hrr). apply elem_of_rowsWhere in Hrr as [? ?]. eauto.
  - intros (rr & Hrr & Hparent & ->). exists rr. split; [done|].
    by apply elem_of_rowsWhere.
Qed.

Lemma length_commentsOf (db : DB) (postId authorId : string) :
  (length (commentsOfPost postId db) ≤ length (comments db))%nat ∧
  (length (commentsOfAuthor authorId db) ≤ length (comments db))%nat.
Proof.
  unfold commentsOfPost, commentsOfAuthor.
  rewrite !length_fmap, !rowsWhere_Permutation. split; apply length_filter.
Qed.

(** X24. What the comment listings hold.  On a store whose creation times
    are pairwise distinct, and for a positive [limit] that keeps the
    queries within the safe integers, the pages of [getByPost] hold exactly
    the top-level comments of the post, so a reply is never listed there on
    its own; each listed comment carries exactly the comments whose parent
    it is.  The pages of [getByAuthor] hold exactly the comments of the
    author, replies included. *)
Theorem comment_listings (db : DB) (limit : Z) :
  distinct_times db →
  0 < limit → Z.of_nat (length (comments db)) + limit ≤ MAX_SAFE_INTEGER →
  (∀ postId c,
     (∃ page r, 0 < page ∧
        CommentService.getByPost postId (explicit page limit) db = Ok r ∧
        c ∈ PaginatedResponse.data r)
     ↔ ∃ row, row ∈ comments db ∧ Comment.postId row = postId ∧
              Comment.parentId row = None ∧ c = withReplies db (Some asc) row)
  ∧
  (∀ row r,
     r ∈ CommentWithReplies.replies (withReplies db (Some asc) row)
     ↔ ∃ rr, rr ∈ comments db ∧ Comment.parentId rr = Some (Comment.id row)
             ∧ r = withAuthor db rr)
  ∧
  (∀ authorId c,
     (∃ page r, 0 < page ∧
        CommentService.getByAuthor authorId (explicit page limit) db = Ok r ∧
        c ∈ PaginatedResponse.data r)
     ↔ ∃ row, row ∈ comments db ∧ Comment.authorId row = authorId ∧
              c = withAuthor db row).
Proof.
  intros _ Hl Hsafe. split_and!.
  - intros postId c.
    destruct (length_commentsOf db postId "") as [Hlen _].
    rewrite (on_some_page db CommentWithReplies.t
               (λ ps, CommentService.getByPost postId ps db)
               _ limit c (comments_getByPost db postId)) by (done || lia).
    unfold commentsOfPost. rewrite list_elem_of_fmap. split.
    + intros (row & -> & Hrow). apply elem_of_rowsWhere in Hrow as [[? ?] ?].
      by exists row.
    + intros (row & Hrow & Hpost & Hparent & ->). exists row. split; [done|].
      by apply elem_of_rowsWhere.
  - intros row r. apply elem_of_repliesOf.
  - intros authorId c.
    destruct (length_commentsOf db "" authorId) as [_ Hlen].
    rewrite (on_some_page db CommentWithAuthor.t
               (λ ps, CommentService.getByAuthor authorId ps db)
               _ limit c (comments_getByAuthor db authorId)) by (done || lia).
    unfold commentsOfAuthor. rewrite list_elem_of_fmap. split.
    + intros (row & -> & Hrow). apply elem_of_rowsWhere in Hrow as [? ?].
      by exists row.
    + intros (row & Hrow & Hauthor & ->). exists row. split; [done|].
      by apply elem_of_rowsWhere.
Qed.

Lemma comment_listings_witness :
  distinct_times sampleDB ∧ 0 < 10 ∧
  Z.of_nat (length (comments sampleDB)) + 10 ≤ MAX_SAFE_INTEGER ∧
  ∃ page r, 0 < page ∧
    CommentService.getByPost "p1" (explicit page 10) sampleDB = Ok r ∧
    withReplies sampleDB (Some asc) comment1 ∈ PaginatedResponse.data r.
Proof.
  split; [exact sampleDB_distinct_times|]. split; [lia|]. split; [by vm_compute|].
  apply (proj1 (comment_listings sampleDB 10 sampleDB_distinct_times ltac:(lia)
                  ltac:(by vm_compute))).
  exists comment1. split; [left|]. by split_and!.
Defined.

Lemma window_newest_first {A} (createdAt : A → Z) (where_ : A → Prop)
    `{∀ x, Decision (where_ x)} (params : option PaginationParams.t)
    (dflt : Z) (rows cs : list A) :
  0 ≤ dflt → limit_not_negative params →
  let ps := default PaginationParams.empty params in
  let page := default 1 (PaginationParams.page ps) in
  let limit := default dflt (PaginationParams.limit ps) in
  Prisma.findMany createdAt where_ (Some desc) ((page - 1) * limit) (Some limit) rows
  = Ok cs →
  newest_first createdAt cs.
Proof.
  intros Hd Hlimit ps page limit.
  apply findMany_desc_newest_first.
  subst limit. destruct (PaginationParams.limit ps) as [n|] eqn:Hn; cbn; [|done].
  by apply Hlimit.
Qed.

Lemma newest_first_fmap {A B} (createdAt : A → Z) (key : B → Z) (f : A → B)
    (l : list A) :
  (∀ x, key (f x) = createdAt x) →
  newest_first createdAt l → newest_first key (f <$> l).
Proof.
  intros Hkey. unfold newest_first.
  apply Sorted_fmap. intros x y. by rewrite !Hkey.
Qed.

(** X25. Every page is newest first.  Whatever the pagination, as long as
    the limit is not negative, the rows of a page returned by any list
    operation are in descending order of creation time. *)
Theorem every_page_is_newest_first (db : DB) (params : option PaginationParams.t) :
  limit_not_negative params →
  (∀ r, UserService.getAll params db = Ok r →
        newest_first User.createdAt (PaginatedResponse.data r)) ∧
  (∀ filters r, PostService.getAll params filters db = Ok r →
        newest_first (λ p, Post.createdAt (PostWithCounts.post p))
          (PaginatedResponse.data r)) ∧
  (∀ postId r, CommentService.getByPost postId params db = Ok r →
        newest_first (λ c, Comment.createdAt (CommentWithReplies.comment c))
          (PaginatedResponse.data r)) ∧
  (∀ authorId r, CommentService.getByAuthor authorId params db = Ok r →
        newest_first (λ c, Comment.createdAt (CommentWithAuthor.comment c))
          (PaginatedResponse.data r)) ∧
  (∀ postId r, LikeService.getByPost postId params db = Ok r →
        newest_first (λ l, Like.createdAt (LikeWithUser.like l))
          (PaginatedResponse.data r)) ∧
  (∀ userId r, LikeService.getByUser userId params db = Ok r →
        newest_first (λ l, Like.createdAt (LikeWithPost.like l))
          (PaginatedResponse.data r)).
Proof.
  intros Hlimit. split_and!.
  - intros r. unfold UserService.getAll. cbn zeta.
    destruct (Prisma.findMany _ _ _ _ _ _) as [cs|] eqn:Hfind; [|done].
    intros [= <-]. cbn.
    eapply (window_newest_first User.createdAt) with (params := params) (dflt := 10);
      [lia|done|exact Hfind].
  - intros filters r. unfold PostService.getAll. cbn zeta.
    destruct (Prisma.findMany _ _ _ _ _ _) as [cs|] eqn:Hfind; [|done].
    intros [= <-]. cbn. apply (newest_first_fmap Post.createdAt); [done|].
    eapply (window_newest_first Post.createdAt) with (params := params) (dflt := 10);
      [lia|done|exact Hfind].
  - intros postId r. unfold CommentService.getByPost. cbn zeta.
    destruct (Prisma.findMany _ _ _ _ _ _) as [cs|] eqn:Hfind; [|done].
    intros [= <-]. cbn. apply (newest_first_fmap Comment.createdAt); [done|].
    eapply (window_newest_first Comment.createdAt) with (params := params) (dflt := 20);
      [lia|done|exact Hfind].
  - intros authorId r. unfold CommentService.getByAuthor. cbn zeta.
    destruct (Prisma.findMany _ _ _ _ _ _) as [cs|] eqn:Hfind; [|done].
    intros [= <-]. cbn. apply (newest_first_fmap Comment.createdAt); [done|].
    eapply (window_newest_first Comment.createdAt) with (params := params) (dflt := 20);
      [lia|done|exact Hfind].
  - intros postId r. unfold LikeService.getByPost. cbn zeta.
    destruct (Prisma.findMany _ _ _ _ _ _) as [cs|] eqn:Hfind; [|done].
    intros [= <-]. cbn. apply (newest_first_fmap Like.createdAt); [done|].
    eapply (window_newest_first Like.createdAt) with (params := params) (dflt := 50);
      [lia|done|exact Hfind].
  - intros userId r. unfold LikeService.getByUser. cbn zeta.
    destruct (Prisma.findMany _ _ _ _ _ _) as [cs|] eqn:Hfind; [|done].
    intros [= <-]. cbn. apply (newest_first_fmap Like.createdAt); [done|].
    eapply (window_newest_first Like.createdAt) with (params := params) (dflt := 20);
      [lia|done|exact Hfind].
Qed.

Lemma every_page_is_newest_first_witness :
  limit_not_negative None ∧
  ∃ r, UserService.getAll None sampleDB = Ok r ∧
       newest_first User.createdAt (PaginatedResponse.data r).
Proof.
  assert (limit_not_negative None) as Hlimit by (intros n; discriminate).
  split; [exact Hlimit|].
  eexists. split; [reflexivity|].
  apply (proj1 (every_page_is_newest_first sampleDB None Hlimit)). reflexivity.
Defined.

(** ** Totals, and what an update leaves alone *)

Lemma total_of_page (db : DB) (A : Type)
    (op : option PaginationParams.t → Exc (PaginatedResponse.t A)) (all : list A)
    (page limit : Z) (r : PaginatedResponse.t A) :
  list_operation db A op all → 0 ≤ limit →
  op (explicit page limit) = Ok r →
  Meta.total (PaginatedResponse.meta r) = Z.of_nat (length all).
Proof.
  intros Hop Hl. rewrite (list_operation_paged db A op all) by done.
  destruct (decide _); [|done]. by intros [= <-].
Qed.

(** X26. Totals agree with the count queries.  On any page that is
    returned, the [total] of the posts [getByAuthor] of a non-empty
    [authorId] is what [countByAuthor] returns; the [total] of the likes
    [getByPost] is what the like [countByPost] returns, which is also what
    the handler [getCount] answers with 200; and the [total] of the comments
    [getByPost], which counts top-level comments, is the comment
    [countByPost] less the comments of the post that have a parent. *)
Theorem totals_agree_with_counts (db : DB) (page limit : Z) (id : string) :
  0 ≤ limit →
  (∀ r, id ≠ "" → PostService.getByAuthor id (explicit page limit) db = Ok r →
        Meta.total (PaginatedResponse.meta r) = PostService.countByAuthor id db) ∧
  (∀ r, LikeService.getByPost id (explicit page limit) db = Ok r →
        Meta.total (PaginatedResponse.meta r) = LikeService.countByPost id db) ∧
  likeHandlers.getCount id db
  = (jsonResponse (Success (LikeService.countByPost id db)) None, db) ∧
  (∀ r, CommentService.getByPost id (explicit page limit) db = Ok r →
        Meta.total (PaginatedResponse.meta r)
        = CommentService.countByPost id db
          - Z.of_nat (length (filter (λ c, Comment.postId c = id
                                           ∧ ¬ Comment.parentId c = None)
                                (comments db)))).
Proof.
  intros Hl. split_and!.
  - intros r Hne Hr.
    rewrite (total_of_page db PostWithCounts.t
               (λ ps, PostService.getByAuthor id ps db) _ page limit r
               (posts_getByAuthor db id) Hl Hr).
    unfold postsAll, PostService.countByAuthor. rewrite length_fmap.
    rewrite <- (count_rowsWhere Post.createdAt _ (Some desc)).
    unfold Prisma.count. do 2 f_equal. apply list_filter_iff. intros p.
    rewrite Is_true_true, where_spec. cbn. split.
    + intros (Ha & _ & _). by apply Ha.
    + intros Ha. split_and!; [by intros ? [= <-] _|done..].
  - intros r Hr.
    rewrite (total_of_page db LikeWithUser.t
               (λ ps, LikeService.getByPost id ps db) _ page limit r
               (likes_getByPost db id) Hl Hr).
    unfold likesOfPost, LikeService.countByPost. rewrite length_fmap.
    by rewrite <- (count_rowsWhere Like.createdAt _ (Some desc)).
  - done.
  - intros r Hr.
    rewrite (total_of_page db CommentWithReplies.t
               (λ ps, CommentService.getByPost id ps db) _ page limit r
               (comments_getByPost db id) Hl Hr).
    unfold commentsOfPost, CommentService.countByPost. rewrite length_fmap.
    rewrite <- (count_rowsWhere Comment.createdAt _ (Some desc)).
    unfold Prisma.count.
    rewrite (length_filter_split (λ c, Comment.postId c = id)
               (λ c, Comment.parentId c = None) (comments db)).
    lia.
Qed.

Lemma totals_agree_with_counts_witness :
  0 ≤ 10 ∧
  ∃ r, LikeService.getByPost "p1" (explicit 1 10) sampleDB = Ok r ∧
       Meta.total (PaginatedResponse.meta r) = LikeService.countByPost "p1" sampleDB.
Proof.
  split; [lia|]. eexists. split; [reflexivity|].
  apply (proj1 (proj2 (totals_agree_with_counts sampleDB 1 10 "p1" ltac:(lia)))).
  reflexivity.
Defined.

Lemma fmap_moved_Permutation {A K} (f : A → K) (l : list A) (i : nat) (x x' : A) :
  l !! i = Some x → f x' = f x → f <$> (base.delete i l ++ [x']) ≡ₚ f <$> l.
Proof.
  intros Hi Hf. rewrite fmap_app. cbn. rewrite Hf.
  rewrite <- Permutation_cons_append, <- fmap_cons.
  apply fmap_Permutation. symmetry. by apply delete_Permutation.
Qed.

(** X27. What an update leaves alone, and what it moves.  Whatever the
    data and whether or not the call succeeds, the user [update], the post
    [update] and [setPublished], and the comment [update] leave their table
    with the same rows as far as ids and creation times go; the post updates
    also leave the authors, [setPublished] the title, content and image too,
    and the comment update leaves the author, the post and the parent of
    every comment.  None of them touches another table.  The updated row
    itself moves: on a store with unique comment ids, the comment [update]
    of an existing comment removes the old row and stores the new version,
    with the new content and [updatedAt], last. *)
Theorem updates_keep_identity_and_move_the_row (id : string) (now : Z) (db : DB) :
  (∀ data,
     let db' := (UserService.update id data now db).2 in
     (λ u, (User.id u, User.createdAt u)) <$> users db'
     ≡ₚ (λ u, (User.id u, User.createdAt u)) <$> users db ∧
     posts db' = posts db ∧ comments db' = comments db ∧ likes db' = likes db)
  ∧
  (∀ data,
     let db' := (PostService.update id data now db).2 in
     (λ p, (Post.id p, Post.authorId p, Post.createdAt p)) <$> posts db'
     ≡ₚ (λ p, (Post.id p, Post.authorId p, Post.createdAt p)) <$> posts db ∧
     users db' = users db ∧ comments db' = comments db ∧ likes db' = likes db)
  ∧
  (∀ published,
     let db' := (PostService.setPublished id published now db).2 in
     (λ p, (Post.id p, Post.title p, Post.content p, Post.imageUrl p,
            Post.authorId p, Post.createdAt p)) <$> posts db'
     ≡ₚ (λ p, (Post.id p, Post.title p, Post.content p, Post.imageUrl p,
               Post.authorId p, Post.createdAt p)) <$> posts db ∧
     users db' = users db ∧ comments db' = comments db ∧ likes db' = likes db)
  ∧
  (∀ data,
     let db' := (CommentService.update id data now db).2 in
     (λ c, (Comment.id c, Comment.authorId c, Comment.postId c,
            Comment.parentId c, Comment.createdAt c)) <$> comments db'
     ≡ₚ (λ c, (Comment.id c, Comment.authorId c, Comment.postId c,
               Comment.parentId c, Comment.createdAt c)) <$> comments db ∧
     users db' = users db ∧ posts db' = posts db ∧ likes db' = likes db)
  ∧
  (∀ data c,
     unique_comment_ids db → c ∈ comments db → Comment.id c = id →
     let c' := Comment.mk id (UpdateCommentInput.content data)
                 (Comment.authorId c) (Comment.postId c) (Comment.parentId c)
                 (Comment.createdAt c) now in
     ∃ r,
       CommentService.update id data now db
       = (Ok r,
          mkDB (users db) (posts db)
            (filter (λ x, Comment.id x ≠ id) (comments db) ++ [c']) (likes db)) ∧
       CommentWithAuthor.comment r = c').
Proof.
  split_and!.
  - intros data. cbn zeta. unfold UserService.update.
    destruct (list_find _ (users db)) as [[i u]|] eqn:Hfind; [|done].
    apply list_find_Some in Hfind as (Hi & _ & _).
    destruct (decide (Exists _ _)); [done|]. cbn.
    split_and!; try done. by apply (fmap_moved_Permutation _ _ i u).
  - intros data. cbn zeta.
    unfold PostService.update, PostService.updateRow, bind, read, ret.
    destruct (list_find _ (posts db)) as [[i p]|] eqn:Hfind; [|done].
    apply list_find_Some in Hfind as (Hi & _ & _). cbn.
    split_and!; try done. by apply (fmap_moved_Permutation _ _ i p).
  - intros published. cbn zeta.
    unfold PostService.setPublished, PostService.updateRow.
    destruct (list_find _ (posts db)) as [[i p]|] eqn:Hfind; [|done].
    apply list_find_Some in Hfind as (Hi & _ & _). cbn.
    split_and!; try done. by apply (fmap_moved_Permutation _ _ i p).
  - intros data. cbn zeta. unfold CommentService.update.
    destruct (list_find _ (comments db)) as [[i c]|] eqn:Hfind; [|done].
    apply list_find_Some in Hfind as (Hi & _ & _). cbn.
    split_and!; try done. by apply (fmap_moved_Permutation _ _ i c).
  - intros data c Huniq Hc Hid c'. subst id.
    destruct (list_find_unique Comment.id (comments db) c Huniq Hc) as (i & Hfind & Hi).
    unfold CommentService.update. rewrite Hfind.
    rewrite (delete_unique_key Comment.id (comments db) i c) by done.
    eexists. split; reflexivity.
Qed.

Lemma updates_keep_identity_and_move_the_row_witness :
  unique_comment_ids sampleDB ∧ reply_late ∈ comments sampleDB ∧
  comments (CommentService.update "c3" (UpdateCommentInput.mk "Edited") 100 sampleDB).2
  = [comment1; reply_early;
     Comment.mk "c3" "Edited" "u1" "p1" (Some "c1") 40 100].
Proof.
  assert (reply_late ∈ comments sampleDB) as Hin by (right; left).
  split; [exact sampleDB_unique_comment_ids|]. split; [exact Hin|].
  destruct (proj2 (proj2 (proj2 (proj2
              (updates_keep_identity_and_move_the_row "c3" 100 sampleDB))))
              (UpdateCommentInput.mk "Edited") reply_late
              sampleDB_unique_comment_ids Hin eq_refl)
    as (r & Hrun & _).
  rewrite Hrun. reflexivity.
Defined.

(** The moved row shows where a query has no [orderBy]: in [sampleDB] the
    hydrated post lists the replies to "c1" with the later one first; after
    that reply is edited it is listed last. *)
Example update_moves_the_reply :
  (λ p, replyTimes <$> PostFull.comments p)
    <$> PostService.getById "p1"
          (CommentService.update "c3" (UpdateCommentInput.mk "Edited") 100 sampleDB).2
  = Some [[30; 40]].
Proof. by vm_compute. Qed.
